(** * Document Compare Intelligence: the chunk / aggregate / synthesize pipeline

    A shallow embedding of [pdf_processor.chunk_text] and of
    [llm_comparer.compare_chunk] / [llm_comparer.compare_texts], together
    with the properties of the pipeline that the design document states;
    and of the code around them: the extraction of the text in
    [pdf_processor], the two calls to the model in [llm_comparer], the
    rendering of the sections in [visualizer] and the handler of the page in
    [app], with further properties read off that code.

    Conventions.
    - A Python [str] is a [string]; [len] is [String.length]; the characters
      are those of [ascii].
    - A Python [int] is a [Z]; indices and lengths are [nat].
    - The dictionary returned to the caller keeps its keys: its ["summary"]
      is a [gmap string Z], so that the presence of a key can be stated.
    - The two calls to the language model are the only effects that matter;
      they are oracles, and every call is recorded in a trace of events.
    - Logging and the pacing delay are not modelled. *)

From Stdlib Require Import ZArith Ascii String List Lia.
From stdpp Require Import base tactics option list gmap strings pretty.
Import ListNotations.

Local Open Scope string_scope.
Local Open Scope list_scope.
Local Open Scope nat_scope.

(** ** Strings *)

Module Str.

(** The line feed, the double quote, and the blank-line separator made of
    two line feeds. *)
Definition LF : ascii := "010"%char.
Definition DQ : ascii := "034"%char.
Definition blank_line : string := String LF (String LF "").

(** Python's truth value of a string: it is not empty. *)
Definition truthy (s : string) : bool :=
  match s with
  | "" => false
  | String _ _ => true
  end.

(** [len(s)], as the integer the source compares with a budget. *)
Definition len (s : string) : Z := Z.of_nat (String.length s).

(** [sep.join(parts)]. *)
Fixpoint join (sep : string) (parts : list string) : string :=
  match parts with
  | [] => ""
  | p :: rest =>
      match rest with
      | [] => p
      | _ :: _ => p +:+ sep +:+ join sep rest
      end
  end.

(** [s[:n]]. *)
Fixpoint slice_to (n : nat) (s : string) : string :=
  match n, s with
  | S n', String c rest => String c (slice_to n' rest)
  | _, _ => ""
  end.

(** A text given line by line: every line is followed by a line feed. *)
Definition unlines (ls : list string) : string :=
  foldr (fun l acc => l +:+ String LF acc) "" ls.

(** Put a character in front of the first piece of a split. *)
Definition cons_head (c : ascii) (parts : list string) : list string :=
  match parts with
  | [] => [String c ""]
  | p :: rest => String c p :: rest
  end.

(** [text.split('\n\n')]: the pieces between the occurrences of the
    separator, which are found from the left and do not overlap.  The
    result is never the empty list: [''.split('\n\n')] is [['']]. *)
Fixpoint split_blank (text : string) : list string :=
  match text with
  | "" => [""]
  | String c rest =>
      match rest with
      | String c' rest' =>
          if Ascii.eqb c LF && Ascii.eqb c' LF
          then "" :: split_blank rest'
          else cons_head c (split_blank rest)
      | "" => cons_head c (split_blank rest)
      end
  end.

End Str.

(** ** The chunker: [pdf_processor.chunk_text] *)

Module Chunker.
Import Str.

(** One turn of the loop over the paragraphs.  The state is the pair of
    [chunks] and [current_chunk]. *)
Definition chunk_step (max_chunk_size : Z)
    (st : list string * string) (paragraph : string) : list string * string :=
  let '(chunks, current_chunk) := st in
  if bool_decide (len current_chunk + len paragraph > max_chunk_size)%Z
     && truthy current_chunk
  then (chunks ++ [current_chunk], paragraph)
  else if truthy current_chunk
       then (chunks, current_chunk +:+ blank_line +:+ paragraph)
       else (chunks, paragraph).

Definition chunk_loop (max_chunk_size : Z)
    (paragraphs : list string) (st : list string * string)
    : list string * string :=
  foldl (chunk_step max_chunk_size) st paragraphs.

(** After the loop the last chunk is added if it has content. *)
Definition chunk_finish (st : list string * string) : list string :=
  let '(chunks, current_chunk) := st in
  if truthy current_chunk then chunks ++ [current_chunk] else chunks.

(** The loop and its epilogue, on a list of paragraphs. *)
Definition chunk_paragraphs (max_chunk_size : Z) (paragraphs : list string)
    : list string :=
  chunk_finish (chunk_loop max_chunk_size paragraphs ([], "")).

Definition chunk_text (text : string) (max_chunk_size : Z) : list string :=
  let paragraphs := split_blank text in
  chunk_paragraphs max_chunk_size paragraphs.

End Chunker.

(** ** Effects: a trace of the calls, and exceptions *)

Module Run.

(** The calls whose order matters: the chunker, the comparison of one chunk
    pair (the [i]-th one of the run), and the synthesis of the final
    narrative. *)
Inductive event : Type :=
| ChunkTextCalled (text : string) (max_chunk_size : Z)
| CompareChunkCalled (i : nat) (text1 text2 : string)
| SynthesisCalled (prompt : string).

Inductive exn : Type :=
| ValueError (msg : string)
| IndexError.

(** A computation yields the events it caused, in order, and either the
    exception it raised or its value. *)
Definition M (A : Type) : Type := list event * (exn + A).

Definition ret {A} (a : A) : M A := ([], inr a).
Definition raise {A} (e : exn) : M A := ([], inl e).
Definition emit (ev : event) : M unit := ([ev], inr tt).

Definition bind {A B} (c : M A) (k : A -> M B) : M B :=
  match c with
  | (tr, inl e) => (tr, inl e)
  | (tr, inr a) => let '(tr', r) := k a in (tr ++ tr', r)
  end.

Declare Scope run_scope.
Delimit Scope run_scope with run.
Notation "x <- c ;; k" := (bind c (fun x => k))
  (at level 100, c at next level, right associativity) : run_scope.
Notation "c ;; k" := (bind c (fun _ => k))
  (at level 100, right associativity) : run_scope.

Local Open Scope run_scope.

(** [for i in range: s = body(i, s)]. *)
Fixpoint for_each {St} (body : nat -> St -> M St) (range : list nat) (s : St)
    : M St :=
  match range with
  | [] => ret s
  | i :: rest => s' <- body i s ;; for_each body rest s'
  end.

(** [l[i]], which raises outside the list. *)
Definition index {A} (l : list A) (i : nat) : M A :=
  match l !! i with
  | Some x => ret x
  | None => raise IndexError
  end.

End Run.

(** ** The comparator and the orchestrator: [llm_comparer] *)

Module Comparer.
Import Str Chunker Run.
Local Open Scope run_scope.

(** *** Data *)

(** A diff section [{"type": t, "text": s}], with ["original"] when the
    section is a modification. *)
Record DiffSection : Type := {
  ds_type : string;
  ds_text : string;
  ds_original : option string
}.

(** The three counts of a chunk; a key may be missing. *)
Record Counts : Type := {
  additions : option Z;
  deletions : option Z;
  modifications : option Z
}.

(** The parsed object of one chunk comparison.  A field is [None] when the
    key is missing.  The values have the types that the prompt prescribes:
    a list of sections, a dictionary of integer counts, a string.  An
    answer with values of other types is not a value of this type. *)
Record ChunkResult : Type := {
  error : option string;
  raw_response : option string;
  diff_sections : option (list DiffSection);
  summary : option Counts;
  detailed_summary : option string
}.

(** What [call_gemini_api] followed by [json.loads] can do. *)
Inductive api_reply : Type :=
| Parsed (response_json_str : string) (result_json : ChunkResult)
| Undecodable (response_json_str : string)
| ApiRaised (e : string).

(** What [call_gemini_for_text] can do. *)
Inductive text_reply : Type :=
| Text (synthesized_summary : string)
| TextRaised (synth_error : string).

(** The dictionary that [compare_texts] returns. *)
Record Comparison : Type := {
  out_diff_sections : list DiffSection;
  out_summary : gmap string Z;
  out_detailed_summary : string
}.

(** [key in d]. *)
Definition has {A} (field : option A) : bool :=
  match field with
  | Some _ => true
  | None => false
  end.

(** [d.get(key, dflt)]. *)
Definition get {A} (field : option A) (dflt : A) : A :=
  match field with
  | Some v => v
  | None => dflt
  end.

Definition section (t text : string) : DiffSection :=
  {| ds_type := t; ds_text := text; ds_original := None |}.

Definition no_counts : Counts :=
  {| additions := None; deletions := None; modifications := None |}.

Definition zero_counts : Counts :=
  {| additions := Some 0%Z; deletions := Some 0%Z; modifications := Some 0%Z |}.

(** The error dictionary that every failure path of [compare_chunk] builds. *)
Definition error_result (err : string) (raw : option string) (detail : string)
    : ChunkResult :=
  {| error := Some err;
     raw_response := raw;
     diff_sections := Some [];
     summary := Some zero_counts;
     detailed_summary := Some detail |}.

(** *** [compare_chunk] *)

(** The part of [compare_chunk] after the call: from the reply to the
    dictionary it returns. *)
Definition classify (reply : api_reply) : ChunkResult :=
  match reply with
  | Parsed response_json_str result_json =>
      if has (error result_json) then result_json
      else if has (diff_sections result_json) && has (summary result_json)
              && has (detailed_summary result_json)
      then result_json
      else error_result "Invalid JSON structure received from Gemini"
             (Some response_json_str)
             "Error: Invalid JSON structure received from API."
  | Undecodable response_json_str =>
      error_result "Invalid response format from Gemini, failed JSON decoding"
        (Some response_json_str)
        "Error: Failed JSON decoding of API response."
  | ApiRaised e =>
      error_result ("Unexpected error: " +:+ e) None
        ("Unexpected Error during chunk comparison: " +:+ e)
  end.

Section Pipeline.

(** The language model.  Its reply to a comparison may differ from call to
    call, so it is given the position of the call in the run. *)
Variable call_gemini_api : nat -> string -> string -> api_reply.
Variable call_gemini_for_text : string -> text_reply.

Definition compare_chunk (i : nat) (text1 text2 : string) : M ChunkResult :=
  emit (CompareChunkCalled i text1 text2) ;;
  ret (classify (call_gemini_api i text1 text2)).

(** *** [compare_texts] *)

(** The accumulators of the orchestrator. *)
Record Acc : Type := {
  all_diff_sections : list DiffSection;
  total_additions : Z;
  total_deletions : Z;
  total_modifications : Z;
  all_chunk_summaries_raw : list string;
  chunk_errors : list string
}.

Definition acc_init : Acc :=
  {| all_diff_sections := [];
     total_additions := 0%Z;
     total_deletions := 0%Z;
     total_modifications := 0%Z;
     all_chunk_summaries_raw := [];
     chunk_errors := [] |}.

(** The body of the loop over the aligned pairs, after the comparison. *)
Definition process_pair (i : nat) (chunk_result : ChunkResult) (acc : Acc) : Acc :=
  if negb (has (error chunk_result)) then
    let summary := get (summary chunk_result) no_counts in
    let detailed_summary := detailed_summary chunk_result in
    {| all_diff_sections :=
         all_diff_sections acc ++ get (diff_sections chunk_result) [];
       total_additions := (total_additions acc + get (additions summary) 0)%Z;
       total_deletions := (total_deletions acc + get (deletions summary) 0)%Z;
       total_modifications :=
         (total_modifications acc + get (modifications summary) 0)%Z;
       all_chunk_summaries_raw :=
         match detailed_summary with
         | Some text =>
             if truthy text then all_chunk_summaries_raw acc ++ [text]
             else all_chunk_summaries_raw acc
         | None => all_chunk_summaries_raw acc
         end;
       chunk_errors := chunk_errors acc |}
  else
    let error_message :=
      get (error chunk_result) "Unknown error in chunk processing" in
    {| all_diff_sections :=
         all_diff_sections acc ++
         [section "unchanged"
            (blank_line +:+ "[ERROR PROCESSING CHUNK " +:+ pretty (i + 1) +:+ ": "
             +:+ error_message +:+ "]" +:+ blank_line)];
       total_additions := total_additions acc;
       total_deletions := total_deletions acc;
       total_modifications := total_modifications acc;
       all_chunk_summaries_raw :=
         all_chunk_summaries_raw acc ++
         ["[Error processing chunk " +:+ pretty (i + 1) +:+ ": "
          +:+ error_message +:+ "]"];
       chunk_errors :=
         chunk_errors acc ++
         ["Chunk " +:+ pretty (i + 1) +:+ ": " +:+ error_message] |}.

Definition pair_body (chunks1 chunks2 : list string) (i : nat) (acc : Acc) : M Acc :=
  chunk1 <- index chunks1 i ;;
  chunk2 <- index chunks2 i ;;
  chunk_result <- compare_chunk i chunk1 chunk2 ;;
  ret (process_pair i chunk_result acc).

(** The bodies of the two loops over the leftover chunks. *)
Definition process_added (i : nat) (added_chunk_text : string) (acc : Acc) : Acc :=
  {| all_diff_sections :=
       all_diff_sections acc ++ [section "added" added_chunk_text];
     total_additions := (total_additions acc + 1)%Z;
     total_deletions := total_deletions acc;
     total_modifications := total_modifications acc;
     all_chunk_summaries_raw :=
       all_chunk_summaries_raw acc ++
       ["Chunk " +:+ pretty (i + 1) +:+ ": This entire chunk was added."];
     chunk_errors := chunk_errors acc |}.

Definition process_deleted (i : nat) (deleted_chunk_text : string) (acc : Acc) : Acc :=
  {| all_diff_sections :=
       all_diff_sections acc ++ [section "deleted" deleted_chunk_text];
     total_additions := total_additions acc;
     total_deletions := (total_deletions acc + 1)%Z;
     total_modifications := total_modifications acc;
     all_chunk_summaries_raw :=
       all_chunk_summaries_raw acc ++
       ["Chunk " +:+ pretty (i + 1) +:+ ": This entire chunk was deleted."];
     chunk_errors := chunk_errors acc |}.

Definition added_body (chunks2 : list string) (i : nat) (acc : Acc) : M Acc :=
  added_chunk_text <- index chunks2 i ;;
  ret (process_added i added_chunk_text acc).

Definition deleted_body (chunks1 : list string) (i : nat) (acc : Acc) : M Acc :=
  deleted_chunk_text <- index chunks1 i ;;
  ret (process_deleted i deleted_chunk_text acc).

(** The ceiling on the text sent for synthesis, and the mark left where the
    text was cut. *)
Definition max_synthesis_input_len : Z := 20000.
Definition truncation_marker : string :=
  String LF "... [Summaries truncated due to length]".
Definition summaries_separator : string :=
  String LF ("---" +:+ String LF "").

Definition cap_summaries (concatenated_chunk_summaries : string) : string :=
  if bool_decide (len concatenated_chunk_summaries > max_synthesis_input_len)%Z
  then slice_to (Z.to_nat max_synthesis_input_len) concatenated_chunk_summaries
       +:+ truncation_marker
  else concatenated_chunk_summaries.

Definition synthesis_prompt (total_additions total_deletions total_modifications : Z)
    (concatenated_chunk_summaries : string) : string :=
  String LF (unlines [
    "You are an expert analyst summarizing document changes. You have been provided with the results of a chunk-by-chunk comparison between two versions of a document.";
    "";
    "Overall Change Counts:";
    "- Additions: " +:+ pretty total_additions +:+ " significant blocks/changes noted.";
    "- Deletions: " +:+ pretty total_deletions +:+ " significant blocks/changes noted.";
    "- Modifications: " +:+ pretty total_modifications +:+ " significant blocks/changes noted.";
    "";
    "Chunk-level Summaries and Error Notes:";
    "--- START CHUNK SUMMARIES ---";
    concatenated_chunk_summaries;
    "--- END CHUNK SUMMARIES ---";
    "";
    "Based *only* on the information above, generate a single, cohesive, human-readable summary of the *overall* key changes between the original and modified documents. Focus on the most significant differences.";
    "- Do NOT mention the word " +:+ String DQ "chunk" +:+ String DQ " or the chunking process in your final summary.";
    "- Synthesize the findings into a unified narrative.";
    "- If errors were noted during chunk processing, briefly mention that some parts might be missing or inaccurate due to processing errors.";
    "- Be concise yet informative."
  ]).

Definition synthesize (prompt : string) : M text_reply :=
  emit (SynthesisCalled prompt) ;;
  ret (call_gemini_for_text prompt).

Definition error_prefix (chunk_errors : list string) : string :=
  "**Note:** Errors occurred during the processing of "
  +:+ pretty (length chunk_errors)
  +:+ " chunk(s). The comparison or summary below might be incomplete or inaccurate in affected areas."
  +:+ String LF "Error Details:" +:+ String LF "- "
  +:+ join (String LF "- ") chunk_errors
  +:+ blank_line +:+ "---" +:+ blank_line.

Definition chunk_text_call (text : string) (max_chunk_size : Z) : M (list string) :=
  emit (ChunkTextCalled text max_chunk_size) ;;
  ret (chunk_text text max_chunk_size).

Definition is_empty {A} (l : list A) : bool :=
  match l with
  | [] => true
  | _ :: _ => false
  end.

(** The loop over the aligned pairs. *)
Definition compare_pairs (chunks1 chunks2 : list string) : M Acc :=
  let num_pairs_to_compare := length chunks1 `min` length chunks2 in
  for_each (pair_body chunks1 chunks2) (seq 0 num_pairs_to_compare) acc_init.

(** The leftover chunks of the longer document. *)
Definition handle_leftover (chunks1 chunks2 : list string) (acc : Acc) : M Acc :=
  let num_chunks1 := length chunks1 in
  let num_chunks2 := length chunks2 in
  if bool_decide (num_chunks1 < num_chunks2) then
    for_each (added_body chunks2) (seq num_chunks1 (num_chunks2 - num_chunks1)) acc
  else if bool_decide (num_chunks2 < num_chunks1) then
    for_each (deleted_body chunks1) (seq num_chunks2 (num_chunks1 - num_chunks2)) acc
  else ret acc.

(** The text handed to the synthesis: the narratives joined, then capped. *)
Definition synthesis_input (acc : Acc) : string :=
  cap_summaries (join summaries_separator (all_chunk_summaries_raw acc)).

(** The final synthesis step, and the note on the errors put in front. *)
Definition final_synthesis (acc : Acc) : M string :=
  let concatenated_chunk_summaries := synthesis_input acc in
  final_detailed_summary <-
    (if negb (is_empty (all_chunk_summaries_raw acc)) then
       reply <- synthesize
                  (synthesis_prompt (total_additions acc) (total_deletions acc)
                     (total_modifications acc) concatenated_chunk_summaries) ;;
       match reply with
       | Text synthesized_summary =>
           if truthy synthesized_summary then ret synthesized_summary
           else ret ("Synthesis Failed. Raw Chunk Summaries:"
                     +:+ summaries_separator +:+ concatenated_chunk_summaries)
       | TextRaised synth_error =>
           ret ("Synthesis Failed (" +:+ synth_error +:+ "). Raw Chunk Summaries:"
                +:+ summaries_separator +:+ concatenated_chunk_summaries)
       end
     else
       ret "No specific changes were identified or summarized during chunk processing.") ;;
  if negb (is_empty (chunk_errors acc))
  then ret (error_prefix (chunk_errors acc) +:+ final_detailed_summary)
  else ret final_detailed_summary.

(** The dictionary returned after the loops. *)
Definition aggregate_result (num_chunks1 num_chunks2 : nat) (acc : Acc)
    (final_detailed_summary : string) : Comparison :=
  {| out_diff_sections := all_diff_sections acc;
     out_summary :=
       {[ "additions" := total_additions acc;
          "deletions" := total_deletions acc;
          "modifications" := total_modifications acc;
          "chunks_processed" := Z.of_nat (num_chunks1 `min` num_chunks2);
          "chunks_added" := (0 `max` (Z.of_nat num_chunks2 - Z.of_nat num_chunks1))%Z;
          "chunks_deleted" := (0 `max` (Z.of_nat num_chunks1 - Z.of_nat num_chunks2))%Z;
          "chunk_errors" := Z.of_nat (length (chunk_errors acc)) ]};
     out_detailed_summary := final_detailed_summary |}.

(** The dictionary returned when both texts have no chunk. *)
Definition empty_result : Comparison :=
  {| out_diff_sections := [section "unchanged" ""];
     out_summary :=
       {[ "additions" := 0%Z; "deletions" := 0%Z; "modifications" := 0%Z ]};
     out_detailed_summary := "Both documents appear to be empty." |}.

Definition prompt_overhead_estimate : Z := 1500.

Definition compare_texts (text1 text2 : string) (max_chunk_size : Z) : M Comparison :=
  let effective_chunk_content_size := (max_chunk_size - prompt_overhead_estimate)%Z in
  if bool_decide (effective_chunk_content_size <= 0)%Z then
    raise (ValueError "max_chunk_size is too small to accommodate the prompt overhead.")
  else
    chunks1 <- chunk_text_call text1 effective_chunk_content_size ;;
    chunks2 <- chunk_text_call text2 effective_chunk_content_size ;;
    let num_chunks1 := length chunks1 in
    let num_chunks2 := length chunks2 in
    if is_empty chunks1 && is_empty chunks2 then ret empty_result
    else
      acc <- compare_pairs chunks1 chunks2 ;;
      acc <- handle_leftover chunks1 chunks2 acc ;;
      final_detailed_summary <- final_synthesis acc ;;
      ret (aggregate_result num_chunks1 num_chunks2 acc final_detailed_summary).

(** *** The loops in closed form *)

(** A fold over a list that also counts the position, from [i] on. *)
Fixpoint fold_indexed {A St} (f : nat -> A -> St -> St) (i : nat) (l : list A)
    (s : St) : St :=
  match l with
  | [] => s
  | x :: rest => fold_indexed f (S i) rest (f i x s)
  end.

(** A map over a list that also counts the position, from [i] on. *)
Fixpoint map_indexed {A B} (f : nat -> A -> B) (i : nat) (l : list A) : list B :=
  match l with
  | [] => []
  | x :: rest => f i x :: map_indexed f (S i) rest
  end.

(** The aligned pairs, the answers of the comparator to them, and the calls
    made for them. *)
Definition aligned_pairs (chunks1 chunks2 : list string) : list (string * string) :=
  zip chunks1 chunks2.

Definition pair_results (chunks1 chunks2 : list string) : list ChunkResult :=
  map_indexed (fun i pair => classify (call_gemini_api i pair.1 pair.2)) 0
    (aligned_pairs chunks1 chunks2).

Definition pair_events (chunks1 chunks2 : list string) : list event :=
  map_indexed (fun i pair => CompareChunkCalled i pair.1 pair.2) 0
    (aligned_pairs chunks1 chunks2).

(** The accumulators after the first [m] pairs. *)
Definition state_after (chunks1 chunks2 : list string) (m : nat) : Acc :=
  fold_indexed process_pair 0 (take m (pair_results chunks1 chunks2)) acc_init.

(** The accumulators after the leftover chunks. *)
Definition with_leftover (chunks1 chunks2 : list string) (acc : Acc) : Acc :=
  let num_chunks1 := length chunks1 in
  let num_chunks2 := length chunks2 in
  if bool_decide (num_chunks1 < num_chunks2) then
    fold_indexed process_added num_chunks1 (drop num_chunks1 chunks2) acc
  else if bool_decide (num_chunks2 < num_chunks1) then
    fold_indexed process_deleted num_chunks2 (drop num_chunks2 chunks1) acc
  else acc.

(** The accumulators at the end of the two loops. *)
Definition final_acc (chunks1 chunks2 : list string) : Acc :=
  with_leftover chunks1 chunks2
    (fold_indexed process_pair 0 (pair_results chunks1 chunks2) acc_init).

(** The call made by the final synthesis step, if any. *)
Definition synthesis_events (acc : Acc) : list event :=
  if negb (is_empty (all_chunk_summaries_raw acc))
  then [SynthesisCalled
          (synthesis_prompt (total_additions acc) (total_deletions acc)
             (total_modifications acc) (synthesis_input acc))]
  else [].

End Pipeline.

(** The accumulators only grow: the lists by appending, the totals by
    adding.  [acc_append] puts two of them together. *)
Definition acc_append (a b : Acc) : Acc :=
  {| all_diff_sections := all_diff_sections a ++ all_diff_sections b;
     total_additions := (total_additions a + total_additions b)%Z;
     total_deletions := (total_deletions a + total_deletions b)%Z;
     total_modifications := (total_modifications a + total_modifications b)%Z;
     all_chunk_summaries_raw := all_chunk_summaries_raw a ++ all_chunk_summaries_raw b;
     chunk_errors := chunk_errors a ++ chunk_errors b |}.

Definition acc_concat (l : list Acc) : Acc := foldr acc_append acc_init l.

(** What one pair gives to the accumulators: what the body of the loop
    makes of the empty accumulators. *)
Definition pair_contribution (i : nat) (chunk_result : ChunkResult) : Acc :=
  process_pair i chunk_result acc_init.

(** The counts that a result reports, read as the orchestrator reads them. *)
Definition reported (count : Counts -> option Z) (chunk_result : ChunkResult) : Z :=
  get (count (get (summary chunk_result) no_counts)) 0%Z.

Definition Zsum (l : list Z) : Z := foldr Z.add 0%Z l.

(** The comparisons in a trace. *)
Definition is_comparison (ev : event) : bool :=
  match ev with
  | CompareChunkCalled _ _ _ => true
  | _ => false
  end.

End Comparer.

(** ** Sample documents and sample behaviours of the model *)

Module Examples.
Import Str Comparer.

(** A well-formed answer that reports two additions, one deletion and one
    modification. *)
Definition changed (text : string) : ChunkResult :=
  {| error := None;
     raw_response := None;
     diff_sections :=
       Some [{| ds_type := "modified"; ds_text := text; ds_original := Some "old" |}];
     summary :=
       Some {| additions := Some 2%Z; deletions := Some 1%Z; modifications := Some 1%Z |};
     detailed_summary := Some ("Changed " +:+ text) |}.

(** An answer that has the three required fields and an ["error"] key. *)
Definition error_and_fields : ChunkResult :=
  {| error := Some "API call blocked: SAFETY";
     raw_response := None;
     diff_sections := Some [];
     summary := Some zero_counts;
     detailed_summary := Some "Error: API call blocked (SAFETY)" |}.

Definition always_succeeds : nat -> string -> string -> api_reply :=
  fun _ _ text2 => Parsed "{}" (changed text2).

Definition second_call_fails : nat -> string -> string -> api_reply :=
  fun i _ text2 =>
    match i with
    | 1 => Undecodable "not json"
    | _ => Parsed "{}" (changed text2)
    end.

Definition always_blocked : nat -> string -> string -> api_reply :=
  fun _ _ _ => Parsed "{}" error_and_fields.

Definition no_narrative : string -> text_reply := fun _ => Text "".

(** An answer whose narrative is longer than the ceiling of the synthesis. *)
Fixpoint filler (n : nat) : string :=
  match n with
  | 0 => ""
  | S n' => String "x" (filler n')
  end.

Definition verbose (text : string) : ChunkResult :=
  {| error := None;
     raw_response := None;
     diff_sections := Some [section "unchanged" text];
     summary := Some zero_counts;
     detailed_summary := Some (filler (Z.to_nat 20001)) |}.

Definition always_verbose : nat -> string -> string -> api_reply :=
  fun _ _ text2 => Parsed "{}" (verbose text2).

Definition three_paragraphs : string :=
  "a" +:+ blank_line +:+ "b" +:+ blank_line +:+ "c".

Definition five_paragraphs : string :=
  "a" +:+ blank_line +:+ "B" +:+ blank_line +:+ "c" +:+ blank_line +:+ "d"
  +:+ blank_line +:+ "e".

End Examples.


(** ** Methods of Python strings used by the rest of the code *)

Module Py.
Import Str.

(** [c.isspace()] for a character below 256: the characters that
    [str.strip()] removes. *)
Definition is_space (c : ascii) : bool :=
  let n := nat_of_ascii c in
  ((9 <=? n) && (n <=? 13)) || ((28 <=? n) && (n <=? 32))
  || (n =? 133) || (n =? 160).

(** [s.lstrip()], [s.rstrip()] and [s.strip()]. *)
Fixpoint lstrip (s : string) : string :=
  match s with
  | "" => ""
  | String c rest => if is_space c then lstrip rest else s
  end.

Fixpoint rstrip (s : string) : string :=
  match s with
  | "" => ""
  | String c rest =>
      match rstrip rest with
      | "" => if is_space c then "" else String c ""
      | String c' rest' => String c (String c' rest')
      end
  end.

Definition strip (s : string) : string := rstrip (lstrip s).

(** [s.replace(old, new)] for a pattern [old] of one character. *)
Fixpoint replace_char (old : ascii) (new : string) (s : string) : string :=
  match s with
  | "" => ""
  | String c rest =>
      (if Ascii.eqb c old then new else String c "")
      +:+ replace_char old new rest
  end.

(** [s.find(c)] and [s.rfind(c)] for a character [c]: the first and the
    last position of [c], or -1. *)
Fixpoint find_char (c : ascii) (s : string) : Z :=
  match s with
  | "" => -1
  | String d rest =>
      if Ascii.eqb d c then 0
      else let r := find_char c rest in
           if bool_decide (r = -1)%Z then -1 else r + 1
  end%Z.

Fixpoint rfind_char (c : ascii) (s : string) : Z :=
  match s with
  | "" => -1
  | String d rest =>
      let r := rfind_char c rest in
      if bool_decide (r = -1)%Z
      then (if Ascii.eqb d c then 0 else -1)
      else r + 1
  end%Z.

Fixpoint drop_chars (n : nat) (s : string) : string :=
  match n, s with
  | S n', String _ rest => drop_chars n' rest
  | _, _ => s
  end.

(** [s[a:b]]: a negative bound counts from the end, and both bounds are
    brought back into the string. *)
Definition slice_bound (s : string) (i : Z) : Z :=
  if bool_decide (i < 0)%Z then (0 `max` (i + len s))%Z else (i `min` len s)%Z.

Definition slice (a b : Z) (s : string) : string :=
  let a' := slice_bound s a in
  let b' := slice_bound s b in
  slice_to (Z.to_nat (b' - a')) (drop_chars (Z.to_nat a') s).

(** [s.startswith(c)] and [s.endswith(c)] for a character [c]. *)
Definition starts_with_char (c : ascii) (s : string) : bool :=
  match s with
  | "" => false
  | String d _ => Ascii.eqb d c
  end.

Fixpoint ends_with_char (c : ascii) (s : string) : bool :=
  match s with
  | "" => false
  | String d rest =>
      match rest with
      | "" => Ascii.eqb d c
      | String _ _ => ends_with_char c rest
      end
  end.

(** [html.escape(s)], with [quote=True]: five replacements, the ampersand
    first. *)
Definition html_escape (s : string) : string :=
  replace_char "'" "&#x27;"
    (replace_char DQ "&quot;"
       (replace_char ">" "&gt;"
          (replace_char "<" "&lt;"
             (replace_char "&" "&amp;" s)))).

End Py.

(** ** The extraction of the text: [pdf_processor] *)

Module Extractor.
Import Str Py.

(** What reading a PDF with one of the two libraries gives: an exception,
    or the pages, each with the result of its [extract_text()], which may
    be [None]. *)
Inductive pdf_read : Type :=
| ReadFailed
| Pages (pages : list (option string)).

(** The loop over the pages: [text += page.extract_text() or ""] and then
    [text += "\n\n"]. *)
Definition page_text (page : option string) : string :=
  match page with
  | Some text => if truthy text then text else ""
  | None => ""
  end.

Definition pages_text (pages : list (option string)) : string :=
  foldl (fun text page => (text +:+ page_text page) +:+ blank_line) "" pages.

Definition extract_text_with_pdfplumber (read : pdf_read) : string :=
  match read with
  | ReadFailed => ""
  | Pages pages => strip (pages_text pages)
  end.

Definition extract_text_with_pypdf2 (read : pdf_read) : string :=
  match read with
  | ReadFailed => ""
  | Pages pages => strip (pages_text pages)
  end.

Definition extraction_error : string :=
  "ERROR: Could not extract text from the PDF. It may be a scanned document requiring OCR.".

(** [extract_text_from_pdf]: the file as the two libraries read it. *)
Definition extract_text_from_pdf (with_pdfplumber with_pypdf2 : pdf_read) : string :=
  let text := extract_text_with_pdfplumber with_pdfplumber in
  let text :=
    if negb (truthy text) then extract_text_with_pypdf2 with_pypdf2 else text in
  if negb (truthy text) then extraction_error else text.

End Extractor.

(** ** The rendering of the sections: [visualizer] *)

Module Visualizer.
Import Str Py Comparer.

(** A section as the renderer reads it: each key may be missing. *)
Record RawSection : Type := {
  raw_type : option string;
  raw_text : option string;
  raw_original : option string
}.

(** The sections of a comparison have a type and a text. *)
Definition raw_of (section : DiffSection) : RawSection :=
  {| raw_type := Some (ds_type section);
     raw_text := Some (ds_text section);
     raw_original := ds_original section |}.

Definition html_header : string :=
  join (String LF "") [
    "";
    "    <style>";
    "        .diff-container {";
    "            font-family: Arial, sans-serif;";
    "            line-height: 1.6;";
    "            padding: 20px;";
    "            background-color: #f9f9f9;";
    "            border-radius: 5px;";
    "            border: 1px solid #ddd;";
    "        }";
    "        .diff-unchanged {";
    "            color: #333;";
    "        }";
    "        .diff-added {";
    "            background-color: #e6ffed;";
    "            color: #22863a;";
    "            text-decoration: none;";
    "            padding: 2px 0;";
    "            border-radius: 3px;";
    "        }";
    "        .diff-deleted {";
    "            background-color: #ffeef0;";
    "            color: #cb2431;";
    "            text-decoration: line-through;";
    "            padding: 2px 0;";
    "            border-radius: 3px;";
    "        }";
    "        .diff-modified {";
    "            background-color: #fff5b1;";
    "            color: #735c0f;";
    "            padding: 2px 0;";
    "            border-radius: 3px;";
    "        }";
    "        .tooltip {";
    "            position: relative;";
    "            display: inline-block;";
    "            border-bottom: 1px dotted black;";
    "        }";
    "        .tooltip .tooltiptext {";
    "            visibility: hidden;";
    "            width: 300px;";
    "            background-color: #555;";
    "            color: #fff;";
    "            text-align: center;";
    "            border-radius: 6px;";
    "            padding: 5px;";
    "            position: absolute;";
    "            z-index: 1;";
    "            bottom: 125%;";
    "            left: 50%;";
    "            margin-left: -150px;";
    "            opacity: 0;";
    "            transition: opacity 0.3s;";
    "        }";
    "        .tooltip:hover .tooltiptext {";
    "            visibility: visible;";
    "            opacity: 1;";
    "        }";
    "    </style>";
    "    <div class=" +:+ String DQ "diff-container" +:+ String DQ ">";
    "    " ].

(** [html.escape(text)] and then [.replace("\n", "<br>")]. *)
Definition display_text (text : string) : string :=
  replace_char LF "<br>" (html_escape text).

Definition span (class section_text : string) : string :=
  "<span class=" +:+ String DQ class +:+ String DQ ">" +:+ section_text +:+ "</span>".

(** What one turn of the loop adds to [html_output]. *)
Definition section_html (section : RawSection) : string :=
  let section_type := get (raw_type section) "unchanged" in
  let section_text := display_text (get (raw_text section) "") in
  if String.eqb section_type "unchanged" then span "diff-unchanged" section_text
  else if String.eqb section_type "added" then span "diff-added" section_text
  else if String.eqb section_type "deleted" then span "diff-deleted" section_text
  else if String.eqb section_type "modified" then
    let original_text := display_text (get (raw_original section) "") in
    join (String LF "") [
      "";
      "            <span class=" +:+ String DQ "tooltip diff-modified" +:+ String DQ ">";
      "                " ]
    +:+ section_text
    +:+ join (String LF "") [
      "";
      "                <span class=" +:+ String DQ "tooltiptext" +:+ String DQ ">Original: " ]
    +:+ original_text
    +:+ join (String LF "") [
      "</span>";
      "            </span>";
      "            " ]
  else "".

Definition generate_diff_html (diff_sections : list RawSection) : string :=
  foldl (fun html_output section => html_output +:+ section_html section)
    html_header diff_sections
  +:+ "</div>".

End Visualizer.

(** ** The calls to the model: [call_gemini_api] and [call_gemini_for_text] *)

Module Gemini.
Import Str Py Run Comparer.

(** Reading [response.text] gives a string or raises. *)
Inductive text_access : Type :=
| TextIs (text : string)
| TextRaises (e : string).

(** The response of the service, as far as the code looks at it: whether
    it has candidates, the reason of a block when the feedback has one, and
    its text. *)
Record response : Type := {
  candidates : bool;
  block_reason : option string;
  text : text_access
}.

(** What [generate_content] does. *)
Inductive generate_outcome : Type :=
| Responded (r : response)
| GoogleAPIError (e : string)
| OtherError (e : string).

(** The string that [call_gemini_api] returns: a text taken from the
    response, or the [json.dumps] of an error dictionary. *)
Inductive api_string : Type :=
| Verbatim (s : string)
| Dumped (d : ChunkResult).

(** [not api_key]. *)
Definition no_key (api_key : option string) : bool :=
  match api_key with
  | Some key => negb (truthy key)
  | None => true
  end.

(** [str(e)]. *)
Definition exn_message (e : exn) : string :=
  match e with
  | ValueError msg => msg
  | IndexError => "list index out of range"
  end.

Section Json.

(** [json.loads]: the parsed object, or [None] for a decoding error; and
    [json.dumps], of which [json.loads] is the inverse. *)
Variable json_loads : string -> option ChunkResult.
Variable json_dumps : ChunkResult -> string.

Definition call_gemini_api (api_key : option string) (outcome : generate_outcome)
    : exn + api_string :=
  if no_key api_key then
    inl (ValueError "Google API key not found. Please set the GOOGLE_API_KEY environment variable.")
  else
    inr
      match outcome with
      | Responded r =>
          if negb (candidates r) then
            let block_reason := get (block_reason r) "Unknown" in
            Dumped (error_result ("API call blocked: " +:+ block_reason) None
                      ("Error: API call blocked (" +:+ block_reason +:+ ")"))
          else
            match text r with
            | TextRaises e =>
                Dumped (error_result ("General Error: " +:+ e) None ("Error: " +:+ e))
            | TextIs text =>
                if truthy text && starts_with_char "{" (strip text)
                   && ends_with_char "}" (strip text)
                then Verbatim text
                else if truthy text then
                  let json_start := find_char "{" text in
                  let json_end := (rfind_char "}" text + 1)%Z in
                  if negb (bool_decide (json_start = -1)%Z)
                     && negb (bool_decide (json_end = -1)%Z)
                  then
                    let cleaned_json := slice json_start json_end text in
                    match json_loads cleaned_json with
                    | Some _ => Verbatim cleaned_json
                    | None =>
                        Dumped (error_result
                                  "Invalid JSON structure received and cleanup failed"
                                  (Some text) "Error: Invalid JSON response from API.")
                    end
                  else
                    Dumped (error_result
                              "Could not extract JSON object from Gemini response"
                              (Some text)
                              "Error: Could not extract JSON object from API response.")
                else
                  Dumped (error_result "Received empty response from Gemini API" None
                            "Error: Received empty response from API.")
            end
      | GoogleAPIError e =>
          Dumped (error_result ("Google API Error: " +:+ e) None
                    ("Error: Google API Error (" +:+ e +:+ ")"))
      | OtherError e =>
          Dumped (error_result ("General Error: " +:+ e) None ("Error: " +:+ e))
      end.

(** The first two steps of [compare_chunk]: the call, and [json.loads] of
    the string it returns.  An exception of the call is caught by
    [compare_chunk], which keeps its message [str(e)]. *)
Definition call_and_load (api_key : option string) (outcome : generate_outcome)
    : api_reply :=
  match call_gemini_api api_key outcome with
  | inl e => ApiRaised (exn_message e)
  | inr (Verbatim response_json_str) =>
      match json_loads response_json_str with
      | Some result_json => Parsed response_json_str result_json
      | None => Undecodable response_json_str
      end
  | inr (Dumped d) => Parsed (json_dumps d) d
  end.

End Json.

(** [call_gemini_for_text]: the text of the response, or the empty string
    for a missing key, an empty text or any error. *)
Definition call_gemini_for_text (api_key : option string) (outcome : generate_outcome)
    : string :=
  if no_key api_key then ""
  else
    match outcome with
    | Responded r =>
        match text r with
        | TextIs text => if truthy text then text else ""
        | TextRaises _ => ""
        end
    | GoogleAPIError _ => ""
    | OtherError _ => ""
    end.

End Gemini.

(** ** The page: [app] *)

Module App.
Import Str Py Run Comparer.

(** What the page shows, one constructor for each Streamlit call of the
    handler. *)
Inductive widget : Type :=
| Info (body : string)
| Failure (body : string)
| Success (body : string)
| Subheader (body : string)
| Line (body : string)
| Warning (body : string)
| Html (body : string).

(** The value of [max_chunk_size] when [compare_texts] is called without
    it, as [main] does. *)
Definition default_max_chunk_size : Z := 8000.

(** [f"{label}{summary.get(key, 'N/A')}"]. *)
Definition count_line (label key : string) (summary : gmap string Z) : string :=
  label +:+ match summary !! key with
            | Some n => pretty n
            | None => "N/A"
            end.

(** The branch of [main] that displays the dictionary returned by
    [compare_texts].  That dictionary has the keys [diff_sections],
    [summary] and [detailed_summary] and no other, so the test
    ["error" in comparison_result] fails and this branch is the one
    taken. *)
Definition display (comparison_result : Comparison) : list widget :=
  [Success "Comparison completed!"]
  ++ (if bool_decide (out_summary comparison_result = ∅)
      then [Warning "Summary information not available in the response."]
      else
        [Subheader "Summary of Changes";
         Line (count_line "Additions: " "additions" (out_summary comparison_result));
         Line (count_line "Deletions: " "deletions" (out_summary comparison_result));
         Line (count_line "Modifications: " "modifications"
                 (out_summary comparison_result))])
  ++ (if truthy (out_detailed_summary comparison_result)
      then [Subheader "Change Analysis";
            Line (out_detailed_summary comparison_result)]
      else [Warning "Detailed summary not available in the response."])
  ++ (if is_empty (out_diff_sections comparison_result)
      then [Warning "Difference sections not available for visualization."]
      else
        [Subheader "Visualized Differences";
         Html (Visualizer.generate_diff_html
                 (map Visualizer.raw_of (out_diff_sections comparison_result)))]).

Section Page.

(** [json.loads] and [json.dumps], the key found in the environment, and
    what the service does at each call. *)
Variable json_loads : string -> option ChunkResult.
Variable json_dumps : ChunkResult -> string.
Variable api_key : option string.
Variable generate_json : nat -> string -> string -> Gemini.generate_outcome.
Variable generate_text : string -> Gemini.generate_outcome.

(** The two calls of the comparer, made through [llm_comparer]'s own
    functions.  [call_gemini_for_text] catches every exception. *)
Definition compare_call (i : nat) (text1 text2 : string) : api_reply :=
  Gemini.call_and_load json_loads json_dumps api_key (generate_json i text1 text2).

Definition synthesis_call (prompt : string) : text_reply :=
  Text (Gemini.call_gemini_for_text api_key (generate_text prompt)).

Definition compare_texts (text1 text2 : string) (max_chunk_size : Z) : M Comparison :=
  Comparer.compare_texts compare_call synthesis_call text1 text2 max_chunk_size.

(** The handler of the button, from the extraction on: each document is
    given as what the two libraries read in its file.  The result is what
    the page shows, the calls made, and the exception that ends the handler
    if there is one. *)
Definition main (pdf1 pdf2 : Extractor.pdf_read * Extractor.pdf_read)
    : list widget * list event * option exn :=
  let text1 := Extractor.extract_text_from_pdf pdf1.1 pdf1.2 in
  let text2 := Extractor.extract_text_from_pdf pdf2.1 pdf2.2 in
  let shown := [Info "Extracting text from PDFs...";
                Info "Analyzing differences with Gemini..."] in
  match compare_texts text1 text2 default_max_chunk_size with
  | (trace, inl e) => (shown, trace, Some e)
  | (trace, inr comparison_result) => (shown ++ display comparison_result, trace, None)
  end.

End Page.

End App.

(** ** Sample files, responses and keys *)

Module Samples.
Import Str Comparer.

(** The object with no key, and a reader of JSON that knows its text and
    nothing else. *)
Definition empty_object : ChunkResult :=
  {| error := None;
     raw_response := None;
     diff_sections := None;
     summary := None;
     detailed_summary := None |}.

Definition json_loads (s : string) : option ChunkResult :=
  if String.eqb s "{}" then Some empty_object else None.

Definition json_dumps (d : ChunkResult) : string :=
  "{error: " +:+ get (error d) "" +:+ "}".

(** An answer that reports no change and tells nothing. *)
Definition quiet : ChunkResult :=
  {| error := None;
     raw_response := None;
     diff_sections := Some [];
     summary := Some zero_counts;
     detailed_summary := Some "" |}.

Definition always_quiet : nat -> string -> string -> api_reply :=
  fun _ _ _ => Parsed "{}" quiet.

(** A response that wraps the object in a fence, and one without any
    object. *)
Definition fenced : Gemini.response :=
  {| Gemini.candidates := true;
     Gemini.block_reason := None;
     Gemini.text :=
       Gemini.TextIs ("```json" +:+ String LF "{}" +:+ String LF "```") |}.

Definition chatty : Gemini.response :=
  {| Gemini.candidates := true;
     Gemini.block_reason := None;
     Gemini.text := Gemini.TextIs "I cannot compare these." |}.

Definition always_fenced : nat -> string -> string -> Gemini.generate_outcome :=
  fun _ _ _ => Gemini.Responded fenced.

Definition always_chatty : string -> Gemini.generate_outcome :=
  fun _ => Gemini.Responded chatty.

(** A file with two pages of text, and a scan: the first library finds a
    page without text, the second one fails. *)
Definition two_pages : Extractor.pdf_read * Extractor.pdf_read :=
  (Extractor.Pages [Some "first page"; Some "second page"], Extractor.ReadFailed).

Definition scan : Extractor.pdf_read * Extractor.pdf_read :=
  (Extractor.Pages [None], Extractor.ReadFailed).

(** Sections for the renderer, one of them of a type it does not know. *)
Definition moved : Visualizer.RawSection :=
  {| Visualizer.raw_type := Some "moved";
     Visualizer.raw_text := Some "x";
     Visualizer.raw_original := None |}.

End Samples.
(** * Properties *)

(** ** Strings: splitting and joining *)

Section StringFacts.
Import Str.

(** The equations of [+:+], which does not unfold under [simpl]. *)
Lemma append_nil_l (t : string) : "" +:+ t = t.
Proof. reflexivity. Qed.

Lemma append_cons c (s t : string) : String c s +:+ t = String c (s +:+ t).
Proof. reflexivity. Qed.

Lemma length_append (s t : string) :
  String.length (s +:+ t) = String.length s + String.length t.
Proof.
  induction s as [|c s IH]; [reflexivity |].
  rewrite append_cons. simpl. now rewrite IH.
Qed.

Lemma len_nonneg s : (0 <= len s)%Z.
Proof. unfold len. lia. Qed.

Lemma len_append s t : len (s +:+ t) = (len s + len t)%Z.
Proof. unfold len. rewrite length_append. lia. Qed.

Lemma truthy_true s : truthy s = true <-> s <> "".
Proof. destruct s; simpl; split; congruence. Qed.

Lemma truthy_false s : truthy s = false <-> s = "".
Proof. destruct s; simpl; split; congruence. Qed.

Lemma truthy_append_l s t : truthy s = true -> truthy (s +:+ t) = true.
Proof. destruct s; [discriminate | reflexivity]. Qed.

Lemma append_assoc (s t u : string) : (s +:+ t) +:+ u = s +:+ (t +:+ u).
Proof.
  induction s as [|c s IH]; [reflexivity |].
  rewrite !append_cons. now rewrite IH.
Qed.

Lemma append_empty_r (s : string) : s +:+ "" = s.
Proof.
  induction s as [|c s IH]; [reflexivity |].
  rewrite append_cons. now rewrite IH.
Qed.

Lemma join_cons sep p q rest :
  join sep (p :: q :: rest) = p +:+ sep +:+ join sep (q :: rest).
Proof. reflexivity. Qed.

Lemma join_cons_head sep c parts :
  parts <> [] -> join sep (cons_head c parts) = String c (join sep parts).
Proof.
  destruct parts as [|p [|q rest]]; [congruence | reflexivity | reflexivity].
Qed.

(** The equations of [split_blank]. *)
Lemma split_blank_single c : split_blank (String c "") = [String c ""].
Proof. reflexivity. Qed.

Lemma split_blank_separator rest :
  split_blank (String LF (String LF rest)) = "" :: split_blank rest.
Proof. reflexivity. Qed.

Lemma split_blank_char c c' rest :
  Ascii.eqb c LF && Ascii.eqb c' LF = false ->
  split_blank (String c (String c' rest))
  = cons_head c (split_blank (String c' rest)).
Proof. intros H. cbn [split_blank]. rewrite H. reflexivity. Qed.

(** An induction scheme that follows the recursion of [split_blank]. *)
Lemma split_blank_ind (P : string -> Prop) :
  P "" ->
  (forall c, P (String c "")) ->
  (forall rest, P rest -> P (String LF (String LF rest))) ->
  (forall c c' rest,
      Ascii.eqb c LF && Ascii.eqb c' LF = false ->
      P (String c' rest) -> P (String c (String c' rest))) ->
  forall s, P s.
Proof.
  intros Hnil Hone Hsep Hchar.
  assert (both : forall s, P s /\ forall c, P (String c s)).
  { induction s as [|c' rest [IH1 IH2]].
    - split; [exact Hnil | exact Hone].
    - split; [apply IH2 |].
      intros c.
      destruct (Ascii.eqb c LF && Ascii.eqb c' LF) eqn:E.
      + apply andb_true_iff in E as [E1 E2].
        apply Ascii.eqb_eq in E1, E2. subst. apply Hsep, IH1.
      + apply Hchar; [exact E | apply IH2]. }
  intros s. apply both.
Qed.

Lemma split_blank_nonempty s : split_blank s <> [].
Proof.
  induction s as [ | c | rest IH | c c' rest E IH] using split_blank_ind.
  - discriminate.
  - discriminate.
  - rewrite split_blank_separator. discriminate.
  - rewrite split_blank_char by assumption.
    destruct (split_blank (String c' rest)); [congruence | discriminate].
Qed.

(** Splitting at the blank lines and joining back gives the text. *)
Lemma join_split_blank s : join blank_line (split_blank s) = s.
Proof.
  induction s as [ | c | rest IH | c c' rest E IH] using split_blank_ind.
  - reflexivity.
  - reflexivity.
  - rewrite split_blank_separator.
    pose proof (split_blank_nonempty rest) as Hne.
    destruct (split_blank rest) as [|p ps] eqn:Hs; [congruence |].
    rewrite join_cons, IH. reflexivity.
  - rewrite split_blank_char by assumption.
    rewrite join_cons_head by apply split_blank_nonempty.
    now rewrite IH.
Qed.

(** The first paragraph of a text is empty only if the text is empty or
    begins with a blank line. *)
Lemma split_blank_first s :
  s <> "" -> String.prefix blank_line s = false ->
  exists p ps, split_blank s = p :: ps /\ truthy p = true.
Proof.
  induction s as [ | c | rest IH | c c' rest E IH] using split_blank_ind;
    intros Hne Hpre.
  - congruence.
  - eauto.
  - exfalso. simpl in Hpre. destruct rest; discriminate.
  - rewrite split_blank_char by assumption.
    pose proof (split_blank_nonempty (String c' rest)) as Hn.
    destruct (split_blank (String c' rest)) as [|p ps]; [congruence |].
    simpl. eauto.
Qed.

End StringFacts.

(** ** The chunker *)

Section ChunkerFacts.
Import Str Chunker.

Variable max_chunk_size : Z.

Local Abbreviation step := (chunk_step max_chunk_size).
Local Abbreviation loop := (chunk_loop max_chunk_size).

Lemma chunk_loop_cons p ps st : loop (p :: ps) st = loop ps (step st p).
Proof. reflexivity. Qed.

Lemma chunk_loop_app ps qs st : loop (ps ++ qs) st = loop qs (loop ps st).
Proof. unfold chunk_loop. apply foldl_app. Qed.

(** The three cases of a turn of the loop. *)
Lemma chunk_step_flush chunks cur p :
  (len cur + len p > max_chunk_size)%Z -> truthy cur = true ->
  step (chunks, cur) p = (chunks ++ [cur], p).
Proof.
  intros Hbig Hcur. unfold chunk_step.
  rewrite bool_decide_eq_true_2 by exact Hbig. now rewrite Hcur.
Qed.

Lemma chunk_step_extend chunks cur p :
  (len cur + len p <= max_chunk_size)%Z -> truthy cur = true ->
  step (chunks, cur) p = (chunks, cur +:+ blank_line +:+ p).
Proof.
  intros Hfit Hcur. unfold chunk_step.
  rewrite bool_decide_eq_false_2 by lia. now rewrite Hcur.
Qed.

Lemma chunk_step_start chunks p : step (chunks, "") p = (chunks, p).
Proof. unfold chunk_step. simpl. now rewrite andb_false_r. Qed.

(** The chunks already closed are a prefix of the result: the loop only
    appends to them, and never reads them. *)
Lemma chunk_step_closed chunks cur p :
  step (chunks, cur) p
  = (chunks ++ (step ([], cur) p).1, (step ([], cur) p).2).
Proof.
  unfold chunk_step.
  destruct (bool_decide _ && truthy cur); [reflexivity |].
  destruct (truthy cur); simpl; now rewrite app_nil_r.
Qed.

Lemma chunk_loop_closed ps chunks cur :
  loop ps (chunks, cur)
  = (chunks ++ (loop ps ([], cur)).1, (loop ps ([], cur)).2).
Proof.
  revert chunks cur.
  induction ps as [|p ps IH]; intros chunks cur.
  - simpl. now rewrite app_nil_r.
  - rewrite !chunk_loop_cons.
    rewrite (chunk_step_closed chunks).
    destruct (step ([], cur) p) as [d cur'] eqn:E. simpl.
    rewrite (IH (chunks ++ d)), (IH d). simpl.
    now rewrite app_assoc.
Qed.

Lemma chunk_finish_closed chunks closed cur :
  chunk_finish (chunks ++ closed, cur) = chunks ++ chunk_finish (closed, cur).
Proof.
  unfold chunk_finish. destruct (truthy cur); [now rewrite app_assoc | reflexivity].
Qed.

(** A chunk is closed only when it has content. *)
Lemma chunk_step_truthy chunks cur p :
  Forall (fun c => truthy c = true) chunks ->
  Forall (fun c => truthy c = true) (step (chunks, cur) p).1.
Proof.
  intros H. unfold chunk_step.
  destruct (bool_decide _ && truthy cur) eqn:E.
  - apply andb_true_iff in E as [_ E]. simpl.
    apply Forall_app; split; [exact H | now constructor].
  - destruct (truthy cur); exact H.
Qed.

Lemma chunk_loop_truthy ps st :
  Forall (fun c => truthy c = true) st.1 ->
  Forall (fun c => truthy c = true) (loop ps st).1.
Proof.
  revert st. induction ps as [|p ps IH]; intros [chunks cur] H; [exact H |].
  rewrite chunk_loop_cons. apply IH. now apply chunk_step_truthy.
Qed.

Lemma chunk_paragraphs_truthy ps :
  Forall (fun c => truthy c = true) (chunk_paragraphs max_chunk_size ps).
Proof.
  unfold chunk_paragraphs.
  pose proof (chunk_loop_truthy ps ([], "") (Forall_nil_2 _)) as H.
  destruct (loop ps ([], "")) as [chunks cur]. simpl in *.
  destruct (truthy cur) eqn:E; [| exact H].
  apply Forall_app; split; [exact H | now constructor].
Qed.

(** A paragraph longer than the budget closes the chunk before it, is a
    chunk of its own, and the chunking starts afresh after it.  The
    paragraph has content: it has when the budget is not negative. *)
Lemma chunk_step_oversized chunks cur p :
  (len p > max_chunk_size)%Z ->
  step (chunks, cur) p = (chunk_finish (chunks, cur), p).
Proof.
  intros Hp. unfold chunk_step, chunk_finish.
  pose proof (len_nonneg cur).
  rewrite bool_decide_eq_true_2 by lia. simpl.
  now destruct (truthy cur).
Qed.

Lemma oversized_truthy p :
  (0 <= max_chunk_size)%Z \/ p <> "" -> (len p > max_chunk_size)%Z ->
  truthy p = true.
Proof.
  intros [Hmax | Hne] Hp; (destruct p; [| reflexivity]).
  - unfold len in Hp. simpl in Hp. lia.
  - congruence.
Qed.

Lemma chunk_loop_after_oversized ps chunks p :
  (0 <= max_chunk_size)%Z \/ p <> "" -> (len p > max_chunk_size)%Z ->
  chunk_finish (loop ps (chunks, p))
  = chunks ++ [p] ++ chunk_finish (loop ps ([], "")).
Proof.
  intros Hmax Hp.
  pose proof (oversized_truthy p Hmax Hp) as Ht.
  destruct ps as [|q ps].
  - simpl. now rewrite Ht.
  - rewrite !chunk_loop_cons.
    rewrite chunk_step_flush by (pose proof (len_nonneg q); (lia || exact Ht)).
    rewrite chunk_step_start.
    rewrite (chunk_loop_closed ps (chunks ++ [p])).
    rewrite chunk_finish_closed.
    rewrite <- app_assoc. f_equal. f_equal.
    now destruct (loop ps ([], q)).
Qed.

Lemma chunk_paragraphs_oversized pre p post :
  (0 <= max_chunk_size)%Z \/ p <> "" -> (len p > max_chunk_size)%Z ->
  chunk_paragraphs max_chunk_size (pre ++ p :: post)
  = chunk_paragraphs max_chunk_size pre ++ [p]
    ++ chunk_paragraphs max_chunk_size post.
Proof.
  intros Hmax Hp. unfold chunk_paragraphs.
  rewrite chunk_loop_app, chunk_loop_cons.
  destruct (loop pre ([], "")) as [chunks cur].
  rewrite chunk_step_oversized by exact Hp.
  now apply chunk_loop_after_oversized.
Qed.

(** A text that fits in the budget is never cut: once the first paragraph
    has content, the loop rebuilds the text in [current_chunk]. *)
Lemma chunk_loop_fits ps cur :
  truthy cur = true ->
  (len (join blank_line (cur :: ps)) <= max_chunk_size)%Z ->
  loop ps ([], cur) = ([], join blank_line (cur :: ps)).
Proof.
  revert cur. induction ps as [|p ps IH]; intros cur Hcur Hfit; [reflexivity |].
  rewrite chunk_loop_cons.
  assert (Hlen : (len cur + 2 + len p <= len (join blank_line (cur :: p :: ps)))%Z).
  { assert (Hb : len blank_line = 2%Z) by reflexivity.
    rewrite join_cons, !len_append, Hb.
    destruct ps as [|q ps].
    - change (join blank_line [p]) with p. lia.
    - rewrite join_cons, !len_append, Hb.
      pose proof (len_nonneg (join blank_line (q :: ps))). lia. }
  rewrite chunk_step_extend by (lia || exact Hcur).
  assert (Hjoin : join blank_line ((cur +:+ blank_line +:+ p) :: ps)
                  = join blank_line (cur :: p :: ps)).
  { destruct ps as [|q ps]; [reflexivity |].
    rewrite !join_cons. now rewrite !append_assoc. }
  rewrite IH.
  - now rewrite Hjoin.
  - now apply truthy_append_l.
  - now rewrite Hjoin.
Qed.

End ChunkerFacts.

(** What the budget does bound: a chunk is a paragraph of the text, or it
    is at most two characters, one separator, longer than the budget. *)
Section BudgetSlack.
Import Str Chunker.

Variable max_chunk_size : Z.
Variable paragraphs : list string.

Local Abbreviation bounded :=
  (fun chunk : string =>
     In chunk paragraphs \/ (len chunk <= max_chunk_size + 2)%Z).

Local Abbreviation invariant :=
  (fun st : list string * string =>
     Forall bounded st.1 /\ (truthy st.2 = true -> bounded st.2)).

Lemma chunk_step_bounded st p :
  In p paragraphs -> invariant st -> invariant (chunk_step max_chunk_size st p).
Proof.
  intros Hp [Hchunks Hcur]. destruct st as [chunks cur].
  cbn [fst snd] in *. unfold chunk_step.
  destruct (truthy cur) eqn:Ecur.
  - case_bool_decide as Hbig; cbn [andb fst snd].
    + split; [| intros _; now left].
      apply Forall_app; split; [exact Hchunks |].
      constructor; [now apply Hcur | constructor].
    + split; [exact Hchunks |]. intros _. right.
      assert (Hb : len blank_line = 2%Z) by reflexivity.
      rewrite !len_append, Hb. lia.
  - rewrite andb_false_r. cbn [fst snd].
    split; [exact Hchunks | intros _; now left].
Qed.

Lemma chunk_loop_bounded ps st :
  (forall p, In p ps -> In p paragraphs) ->
  invariant st -> invariant (chunk_loop max_chunk_size ps st).
Proof.
  revert st. induction ps as [|p ps IH]; intros st Hps Hst; [exact Hst |].
  rewrite chunk_loop_cons. apply IH.
  - intros q Hq. apply Hps. now right.
  - apply chunk_step_bounded; [apply Hps; now left | exact Hst].
Qed.

Lemma chunk_paragraphs_bounded :
  Forall bounded (chunk_paragraphs max_chunk_size paragraphs).
Proof.
  unfold chunk_paragraphs.
  destruct (chunk_loop_bounded paragraphs ([], "")) as [Hchunks Hcur].
  - auto.
  - split; [constructor | discriminate].
  - destruct (chunk_loop max_chunk_size paragraphs ([], "")) as [chunks cur].
    cbn [fst snd chunk_finish] in *. destruct (truthy cur); [| exact Hchunks].
    apply Forall_app; split; [exact Hchunks |].
    constructor; [now apply Hcur | constructor].
Qed.

End BudgetSlack.

(** X24: what the size test of [chunk_text] does guarantee.  A chunk is a
    paragraph of the text, or it is at most two characters longer than the
    budget: the separator, which the test leaves out. *)
Lemma chunk_text_budget_slack (text : string) (max_chunk_size : Z) (chunk : string) :
  In chunk (Chunker.chunk_text text max_chunk_size) ->
  In chunk (Str.split_blank text) \/ (Str.len chunk <= max_chunk_size + 2)%Z.
Proof.
  intros H.
  pose proof (chunk_paragraphs_bounded max_chunk_size (Str.split_blank text)) as Hall.
  rewrite Forall_forall in Hall. now apply Hall, list_elem_of_In.
Qed.

(** ** The runs of the orchestrator *)

Section RunFacts.
Import Run.
Local Open Scope run_scope.

Lemma bind_returned {A B} tr (a : A) (k : A -> M B) tr' r :
  k a = (tr', r) -> bind (tr, inr a) k = (tr ++ tr', r).
Proof. intros H. unfold bind. now rewrite H. Qed.

Lemma bind_ret {A B} (a : A) (k : A -> M B) : bind (ret a) k = k a.
Proof. unfold bind, ret. now destruct (k a). Qed.

Lemma bind_emit {B} ev (k : unit -> M B) tr r :
  k tt = (tr, r) -> bind (emit ev) k = (ev :: tr, r).
Proof. intros H. unfold bind, emit. now rewrite H. Qed.

Lemma index_lookup {A} (l : list A) i x : l !! i = Some x -> index l i = ret x.
Proof. intros H. unfold index. now rewrite H. Qed.

(** A loop whose body reads the [i]-th element of a list and cannot fail is
    a fold over a segment of the list. *)
Lemma for_each_fold {A St} (l : list A) (body : nat -> St -> M St)
    (f : nat -> A -> St -> St) (ev : nat -> A -> list event) :
  (forall i x s, l !! i = Some x -> body i s = (ev i x, inr (f i x s))) ->
  forall m i s, i + m <= length l ->
    for_each body (seq i m) s
    = (concat (Comparer.map_indexed ev i (take m (drop i l))),
       inr (Comparer.fold_indexed f i (take m (drop i l)) s)).
Proof.
  intros Hbody. induction m as [|m IH]; intros i s Hlen.
  - reflexivity.
  - destruct (lookup_lt_is_Some_2 l i) as [x Hx]; [lia |].
    rewrite (drop_S l x i Hx). cbn [seq for_each take].
    rewrite (Hbody i x s Hx).
    erewrite bind_returned; [reflexivity |].
    apply IH. lia.
Qed.

End RunFacts.

Section IndexedFacts.
Import Comparer.

Lemma map_indexed_length {A B} (f : nat -> A -> B) i l :
  length (map_indexed f i l) = length l.
Proof. revert i. induction l as [|x l IH]; intros i; simpl; [reflexivity | now rewrite IH]. Qed.

Lemma map_indexed_lookup {A B} (f : nat -> A -> B) i l j :
  map_indexed f i l !! j = f (i + j) <$> l !! j.
Proof.
  revert i j. induction l as [|x l IH]; intros i [|j]; simpl; try reflexivity.
  - now rewrite Nat.add_0_r.
  - rewrite IH. now replace (S i + j) with (i + S j) by lia.
Qed.

Lemma map_indexed_app {A B} (f : nat -> A -> B) i l l' :
  map_indexed f i (l ++ l') = map_indexed f i l ++ map_indexed f (i + length l) l'.
Proof.
  revert i. induction l as [|x l IH]; intros i; simpl.
  - now rewrite Nat.add_0_r.
  - rewrite IH. now replace (S i + length l) with (i + S (length l)) by lia.
Qed.

Lemma concat_map_indexed_singleton {A B} (f : nat -> A -> B) i l :
  concat (map_indexed (fun j x => [f j x]) i l) = map_indexed f i l.
Proof. revert i. induction l as [|x l IH]; intros i; simpl; [reflexivity | now rewrite IH]. Qed.

Lemma concat_map_indexed_nil {A B} i (l : list A) :
  concat (map_indexed (fun _ _ => @nil B) i l) = [].
Proof. revert i. induction l as [|x l IH]; intros i; simpl; [reflexivity | apply IH]. Qed.

Lemma fold_indexed_map_indexed {A B St} (g : nat -> A -> B) (f : nat -> B -> St -> St) i l s :
  fold_indexed f i (map_indexed g i l) s = fold_indexed (fun j x => f j (g j x)) i l s.
Proof. revert i s. induction l as [|x l IH]; intros i s; simpl; [reflexivity | apply IH]. Qed.

Lemma fold_indexed_app {A St} (f : nat -> A -> St -> St) i l l' s :
  fold_indexed f i (l ++ l') s
  = fold_indexed f (i + length l) l' (fold_indexed f i l s).
Proof.
  revert i s. induction l as [|x l IH]; intros i s; simpl.
  - now rewrite Nat.add_0_r.
  - rewrite IH. now replace (S i + length l) with (i + S (length l)) by lia.
Qed.

End IndexedFacts.

Section OrchestratorFacts.
Import Str Chunker Run Comparer.
Local Open Scope run_scope.

Variable call_gemini_api : nat -> string -> string -> api_reply.
Variable call_gemini_for_text : string -> text_reply.

Local Abbreviation results := (pair_results call_gemini_api).
Local Abbreviation run := (compare_texts call_gemini_api call_gemini_for_text).

Lemma aligned_pairs_length chunks1 chunks2 :
  length (aligned_pairs chunks1 chunks2) = length chunks1 `min` length chunks2.
Proof. unfold aligned_pairs. apply length_zip_with. Qed.

Lemma pair_results_length chunks1 chunks2 :
  length (results chunks1 chunks2) = length chunks1 `min` length chunks2.
Proof. unfold pair_results. now rewrite map_indexed_length, aligned_pairs_length. Qed.

Lemma aligned_pairs_lookup chunks1 chunks2 i pair :
  aligned_pairs chunks1 chunks2 !! i = Some pair ->
  chunks1 !! i = Some pair.1 /\ chunks2 !! i = Some pair.2.
Proof.
  unfold aligned_pairs. intros H.
  apply lookup_zip_with_Some in H as (c1 & c2 & -> & H1 & H2). now split.
Qed.

(** One turn of the loop over the pairs: the two chunks are there, the
    comparator is called once, and the turn never raises. *)
Lemma pair_body_runs chunks1 chunks2 i pair acc :
  aligned_pairs chunks1 chunks2 !! i = Some pair ->
  pair_body call_gemini_api chunks1 chunks2 i acc
  = ([CompareChunkCalled i pair.1 pair.2],
     inr (process_pair i (classify (call_gemini_api i pair.1 pair.2)) acc)).
Proof.
  intros H. apply aligned_pairs_lookup in H as [H1 H2].
  unfold pair_body. rewrite (index_lookup _ _ _ H1), bind_ret.
  rewrite (index_lookup _ _ _ H2), bind_ret.
  reflexivity.
Qed.

(** The loop over the pairs compares every aligned pair, in order, and
    ends with the fold of its body over the answers. *)
Lemma compare_pairs_runs chunks1 chunks2 :
  compare_pairs call_gemini_api chunks1 chunks2
  = (pair_events chunks1 chunks2,
     inr (fold_indexed process_pair 0 (results chunks1 chunks2) acc_init)).
Proof.
  unfold compare_pairs.
  rewrite (for_each_fold (aligned_pairs chunks1 chunks2) _
             (fun i pair => process_pair i (classify (call_gemini_api i pair.1 pair.2)))
             (fun i pair => [CompareChunkCalled i pair.1 pair.2])).
  - rewrite drop_0, <- aligned_pairs_length, firstn_all.
    rewrite concat_map_indexed_singleton.
    unfold pair_events, pair_results.
    now rewrite fold_indexed_map_indexed.
  - intros i pair acc H. now apply pair_body_runs.
  - rewrite aligned_pairs_length. lia.
Qed.

Lemma leftover_loop_runs (f : nat -> string -> Acc -> Acc) chunks body i acc :
  (forall j a, body j a = (c <- index chunks j ;; ret (f j c a))) ->
  i <= length chunks ->
  for_each body (seq i (length chunks - i)) acc
  = ([], inr (fold_indexed f i (drop i chunks) acc)).
Proof.
  intros Hbody Hi.
  rewrite (for_each_fold chunks body f (fun _ _ => [])).
  - rewrite concat_map_indexed_nil.
    rewrite <- length_drop, firstn_all. reflexivity.
  - intros j x a Hx. rewrite Hbody, (index_lookup _ _ _ Hx), bind_ret. reflexivity.
  - lia.
Qed.

(** The leftover chunks are all there, and no call is made for them. *)
Lemma handle_leftover_runs chunks1 chunks2 acc :
  handle_leftover chunks1 chunks2 acc = ([], inr (with_leftover chunks1 chunks2 acc)).
Proof.
  unfold handle_leftover, with_leftover.
  repeat case_bool_decide.
  - apply leftover_loop_runs; [reflexivity | lia].
  - apply leftover_loop_runs; [reflexivity | lia].
  - reflexivity.
Qed.

(** The final synthesis step calls the model at most once, and never
    raises. *)
Lemma final_synthesis_runs acc :
  exists final_detailed_summary,
    final_synthesis call_gemini_for_text acc
    = (synthesis_events acc, inr final_detailed_summary).
Proof.
  unfold final_synthesis, synthesis_events, synthesize.
  destruct (is_empty (all_chunk_summaries_raw acc)); simpl.
  - destruct (is_empty (chunk_errors acc)); simpl; eauto.
  - destruct (call_gemini_for_text _) as [text | e]; simpl.
    + destruct (truthy text); simpl;
        destruct (is_empty (chunk_errors acc)); simpl; eauto.
    + destruct (is_empty (chunk_errors acc)); simpl; eauto.
Qed.

Lemma empty_chunks_iff (chunks1 chunks2 : list string) :
  is_empty chunks1 && is_empty chunks2 = true <-> chunks1 = [] /\ chunks2 = [].
Proof. destruct chunks1, chunks2; simpl; split; intros; try easy; now destruct H. Qed.

(** The runs of [compare_texts] with a positive content budget. *)
Lemma compare_texts_empty text1 text2 max_chunk_size :
  (0 < max_chunk_size - prompt_overhead_estimate)%Z ->
  let size := (max_chunk_size - prompt_overhead_estimate)%Z in
  chunk_text text1 size = [] -> chunk_text text2 size = [] ->
  run text1 text2 max_chunk_size
  = ([ChunkTextCalled text1 size; ChunkTextCalled text2 size], inr empty_result).
Proof.
  intros Hpos size H1 H2. unfold compare_texts.
  rewrite bool_decide_eq_false_2 by lia.
  unfold chunk_text_call. fold size. rewrite H1, H2. reflexivity.
Qed.

Lemma compare_texts_runs text1 text2 max_chunk_size :
  (0 < max_chunk_size - prompt_overhead_estimate)%Z ->
  let size := (max_chunk_size - prompt_overhead_estimate)%Z in
  let chunks1 := chunk_text text1 size in
  let chunks2 := chunk_text text2 size in
  chunks1 <> [] \/ chunks2 <> [] ->
  exists final_detailed_summary,
    run text1 text2 max_chunk_size
    = ([ChunkTextCalled text1 size; ChunkTextCalled text2 size]
         ++ pair_events chunks1 chunks2
         ++ synthesis_events (final_acc call_gemini_api chunks1 chunks2),
       inr (aggregate_result (length chunks1) (length chunks2)
              (final_acc call_gemini_api chunks1 chunks2) final_detailed_summary)).
Proof.
  intros Hpos size chunks1 chunks2 Hne.
  destruct (final_synthesis_runs (final_acc call_gemini_api chunks1 chunks2))
    as [final Hfinal].
  exists final. unfold compare_texts.
  rewrite bool_decide_eq_false_2 by lia.
  unfold chunk_text_call. fold size. fold chunks1. fold chunks2.
  assert (Hif : is_empty chunks1 && is_empty chunks2 = false).
  { destruct (is_empty chunks1 && is_empty chunks2) eqn:E; [| reflexivity].
    apply empty_chunks_iff in E as [E1 E2]. destruct Hne; congruence. }
  cbn [bind emit ret]. rewrite Hif.
  rewrite compare_pairs_runs. cbn [bind].
  rewrite handle_leftover_runs. cbn [bind].
  fold (final_acc call_gemini_api chunks1 chunks2). rewrite Hfinal.
  cbn [bind ret]. rewrite !app_nil_r. reflexivity.
Qed.

End OrchestratorFacts.

(** ** The accumulators *)

Section AccumulatorFacts.
Import Str Comparer.

Lemma acc_eq (a b : Acc) :
  all_diff_sections a = all_diff_sections b ->
  total_additions a = total_additions b ->
  total_deletions a = total_deletions b ->
  total_modifications a = total_modifications b ->
  all_chunk_summaries_raw a = all_chunk_summaries_raw b ->
  chunk_errors a = chunk_errors b ->
  a = b.
Proof. destruct a, b; simpl; intros; subst; reflexivity. Qed.

Lemma acc_append_init_r a : acc_append a acc_init = a.
Proof. apply acc_eq; simpl; rewrite ?app_nil_r; lia || reflexivity. Qed.

Lemma acc_append_assoc a b c :
  acc_append (acc_append a b) c = acc_append a (acc_append b c).
Proof. apply acc_eq; simpl; rewrite <- ?app_assoc; lia || reflexivity. Qed.

(** Each of the three loop bodies adds its own contribution to the
    accumulators, whatever they hold. *)
Lemma process_pair_append i r acc :
  process_pair i r acc = acc_append acc (pair_contribution i r).
Proof.
  unfold pair_contribution, process_pair.
  destruct (has (error r)); simpl.
  - apply acc_eq; simpl; rewrite ?app_nil_r; lia || reflexivity.
  - apply acc_eq; simpl; rewrite ?app_nil_r; try (lia || reflexivity).
    destruct (detailed_summary r) as [text|]; [| now rewrite app_nil_r].
    destruct (truthy text); [reflexivity | now rewrite app_nil_r].
Qed.

Lemma process_added_append i c acc :
  process_added i c acc = acc_append acc (process_added i c acc_init).
Proof. apply acc_eq; simpl; rewrite ?app_nil_r; lia || reflexivity. Qed.

Lemma process_deleted_append i c acc :
  process_deleted i c acc = acc_append acc (process_deleted i c acc_init).
Proof. apply acc_eq; simpl; rewrite ?app_nil_r; lia || reflexivity. Qed.

Lemma fold_indexed_append {A} (f : nat -> A -> Acc -> Acc) :
  (forall i x acc, f i x acc = acc_append acc (f i x acc_init)) ->
  forall l i acc,
    fold_indexed f i l acc
    = acc_append acc (acc_concat (map_indexed (fun j x => f j x acc_init) i l)).
Proof.
  intros Hf. induction l as [|x l IH]; intros i acc; simpl.
  - now rewrite acc_append_init_r.
  - rewrite IH, (Hf i x acc). apply acc_append_assoc.
Qed.

(** The fields of a concatenation. *)
Lemma acc_concat_sections l :
  all_diff_sections (acc_concat l) = concat (map all_diff_sections l).
Proof. induction l as [|a l IH]; simpl; [reflexivity | now rewrite IH]. Qed.

Lemma acc_concat_summaries l :
  all_chunk_summaries_raw (acc_concat l) = concat (map all_chunk_summaries_raw l).
Proof. induction l as [|a l IH]; simpl; [reflexivity | now rewrite IH]. Qed.

Lemma acc_concat_errors l :
  chunk_errors (acc_concat l) = concat (map chunk_errors l).
Proof. induction l as [|a l IH]; simpl; [reflexivity | now rewrite IH]. Qed.

Lemma acc_concat_additions l :
  total_additions (acc_concat l) = Zsum (map total_additions l).
Proof. induction l as [|a l IH]; simpl; [reflexivity | now rewrite IH]. Qed.

Lemma acc_concat_deletions l :
  total_deletions (acc_concat l) = Zsum (map total_deletions l).
Proof. induction l as [|a l IH]; simpl; [reflexivity | now rewrite IH]. Qed.

Lemma acc_concat_modifications l :
  total_modifications (acc_concat l) = Zsum (map total_modifications l).
Proof. induction l as [|a l IH]; simpl; [reflexivity | now rewrite IH]. Qed.

Lemma map_map_indexed {A B C} (g : B -> C) (f : nat -> A -> B) i l :
  map g (map_indexed f i l) = map_indexed (fun j x => g (f j x)) i l.
Proof. revert i. induction l as [|x l IH]; intros i; simpl; [reflexivity | now rewrite IH]. Qed.

Lemma map_indexed_Forall {A B} (P : A -> Prop) (f : nat -> A -> B) (g : A -> B) i l :
  Forall P l -> (forall j x, P x -> f j x = g x) ->
  map_indexed f i l = map g l.
Proof.
  intros HP Hfg. revert i.
  induction HP as [|x l Hx _ IH]; intros i; simpl; [reflexivity |].
  now rewrite (Hfg i x Hx), IH.
Qed.

Lemma map_indexed_const {A B} (g : A -> B) i l :
  map_indexed (fun _ x => g x) i l = map g l.
Proof. revert i. induction l as [|x l IH]; intros i; simpl; [reflexivity | now rewrite IH]. Qed.

Lemma concat_map_singleton {A B} (g : A -> B) l :
  concat (map (fun x => [g x]) l) = map g l.
Proof. induction l as [|x l IH]; simpl; [reflexivity | now rewrite IH]. Qed.

Lemma concat_map_nil {A B} (l : list A) :
  concat (map (fun _ => @nil B) l) = [].
Proof. induction l as [|x l IH]; simpl; [reflexivity | exact IH]. Qed.

Lemma Zsum_map_const {A} (z : Z) (l : list A) :
  Zsum (map (fun _ => z) l) = (z * Z.of_nat (length l))%Z.
Proof. induction l as [|x l IH]; simpl length; simpl; [lia | rewrite IH; lia]. Qed.

(** What a pair gives when the comparison succeeded, and when it failed. *)
Lemma pair_contribution_success i r :
  error r = None ->
  all_diff_sections (pair_contribution i r) = get (diff_sections r) []
  /\ total_additions (pair_contribution i r) = reported additions r
  /\ total_deletions (pair_contribution i r) = reported deletions r
  /\ total_modifications (pair_contribution i r) = reported modifications r
  /\ chunk_errors (pair_contribution i r) = [].
Proof.
  intros H. unfold pair_contribution, process_pair, reported. rewrite H. simpl.
  repeat split; reflexivity.
Qed.

Lemma pair_contribution_failure i r error_message :
  error r = Some error_message ->
  pair_contribution i r
  = {| all_diff_sections :=
         [section "unchanged"
            (blank_line +:+ "[ERROR PROCESSING CHUNK " +:+ pretty (i + 1) +:+ ": "
             +:+ error_message +:+ "]" +:+ blank_line)];
       total_additions := 0;
       total_deletions := 0;
       total_modifications := 0;
       all_chunk_summaries_raw :=
         ["[Error processing chunk " +:+ pretty (i + 1) +:+ ": "
          +:+ error_message +:+ "]"];
       chunk_errors := ["Chunk " +:+ pretty (i + 1) +:+ ": " +:+ error_message] |}.
Proof.
  intros H. unfold pair_contribution, process_pair. rewrite H. reflexivity.
Qed.

End AccumulatorFacts.

Section ClosedForms.
Import Str Chunker Run Comparer.

Variable call_gemini_api : nat -> string -> string -> api_reply.

Local Abbreviation results := (pair_results call_gemini_api).

Lemma acc_append_init_l a : acc_append acc_init a = a.
Proof. apply acc_eq; simpl; lia || reflexivity. Qed.

(** The loop over the pairs puts the contributions of the pairs together,
    in the order of the pairs. *)
Lemma pairs_fold i rs acc :
  fold_indexed process_pair i rs acc
  = acc_append acc (acc_concat (map_indexed pair_contribution i rs)).
Proof. apply (fold_indexed_append process_pair), process_pair_append. Qed.

Lemma pairs_fold_init rs :
  fold_indexed process_pair 0 rs acc_init
  = acc_concat (map_indexed pair_contribution 0 rs).
Proof. now rewrite pairs_fold, acc_append_init_l. Qed.

(** What the pairs give when every comparison succeeded. *)
Lemma pairs_all_succeeded i rs :
  Forall (fun r => error r = None) rs ->
  let acc := acc_concat (map_indexed pair_contribution i rs) in
  all_diff_sections acc = concat (map (fun r => get (diff_sections r) []) rs)
  /\ total_additions acc = Zsum (map (reported additions) rs)
  /\ total_deletions acc = Zsum (map (reported deletions) rs)
  /\ total_modifications acc = Zsum (map (reported modifications) rs)
  /\ chunk_errors acc = [].
Proof.
  intros H. revert i. induction H as [|r rs Hr _ IH]; intros i.
  - repeat split.
  - destruct (IH (S i)) as (I1 & I2 & I3 & I4 & I5).
    destruct (pair_contribution_success i r Hr) as (P1 & P2 & P3 & P4 & P5).
    cbn [map_indexed acc_concat foldr map concat Zsum] in *.
    fold (acc_concat (map_indexed pair_contribution (S i) rs)).
    cbn [acc_append all_diff_sections total_additions total_deletions
         total_modifications chunk_errors].
    rewrite I1, I2, I3, I4, I5, P1, P2, P3, P4, P5. repeat split.
Qed.

(** What the leftover chunks give: one section and one unit each. *)
Lemma added_fold i chunks acc :
  let acc' := fold_indexed process_added i chunks acc in
  all_diff_sections acc' = all_diff_sections acc ++ map (section "added") chunks
  /\ total_additions acc' = (total_additions acc + Z.of_nat (length chunks))%Z
  /\ total_deletions acc' = total_deletions acc
  /\ total_modifications acc' = total_modifications acc
  /\ chunk_errors acc' = chunk_errors acc.
Proof.
  revert i acc. induction chunks as [|c chunks IH]; intros i acc.
  - cbn. rewrite app_nil_r. repeat split. lia.
  - destruct (IH (S i) (process_added i c acc)) as (I1 & I2 & I3 & I4 & I5).
    cbn [fold_indexed]. cbn zeta in *.
    rewrite I1, I2, I3, I4, I5. cbn [process_added all_diff_sections total_additions
      total_deletions total_modifications chunk_errors map length].
    rewrite <- app_assoc. repeat split. lia.
Qed.

Lemma deleted_fold i chunks acc :
  let acc' := fold_indexed process_deleted i chunks acc in
  all_diff_sections acc' = all_diff_sections acc ++ map (section "deleted") chunks
  /\ total_additions acc' = total_additions acc
  /\ total_deletions acc' = (total_deletions acc + Z.of_nat (length chunks))%Z
  /\ total_modifications acc' = total_modifications acc
  /\ chunk_errors acc' = chunk_errors acc.
Proof.
  revert i acc. induction chunks as [|c chunks IH]; intros i acc.
  - cbn. rewrite app_nil_r. repeat split. lia.
  - destruct (IH (S i) (process_deleted i c acc)) as (I1 & I2 & I3 & I4 & I5).
    cbn [fold_indexed]. cbn zeta in *.
    rewrite I1, I2, I3, I4, I5. cbn [process_deleted all_diff_sections total_additions
      total_deletions total_modifications chunk_errors map length].
    rewrite <- app_assoc. repeat split. lia.
Qed.

(** The accumulators after [j] pairs and after one more. *)
Lemma state_after_step chunks1 chunks2 j r :
  results chunks1 chunks2 !! j = Some r ->
  state_after call_gemini_api chunks1 chunks2 (S j)
  = process_pair j r (state_after call_gemini_api chunks1 chunks2 j).
Proof.
  intros Hr. unfold state_after.
  rewrite (take_S_r _ _ _ Hr), fold_indexed_app. cbn [fold_indexed].
  rewrite length_take_le; [reflexivity |].
  apply lookup_lt_Some in Hr. lia.
Qed.

(** The rest of the run goes on from the accumulators after any pair. *)
Lemma final_acc_from chunks1 chunks2 m :
  m <= length (results chunks1 chunks2) ->
  final_acc call_gemini_api chunks1 chunks2
  = with_leftover chunks1 chunks2
      (fold_indexed process_pair m (drop m (results chunks1 chunks2))
         (state_after call_gemini_api chunks1 chunks2 m)).
Proof.
  intros Hm. unfold final_acc, state_after. f_equal.
  rewrite <- (take_drop m (results chunks1 chunks2)) at 1.
  rewrite fold_indexed_app. now rewrite length_take_le by exact Hm.
Qed.

Lemma pair_events_lookup chunks1 chunks2 i c1 c2 :
  chunks1 !! i = Some c1 -> chunks2 !! i = Some c2 ->
  pair_events chunks1 chunks2 !! i = Some (CompareChunkCalled i c1 c2).
Proof.
  intros H1 H2. unfold pair_events, aligned_pairs.
  rewrite map_indexed_lookup.
  rewrite (proj2 (lookup_zip_with_Some pair chunks1 chunks2 i (c1, c2))).
  - reflexivity.
  - eauto.
Qed.

(** The entries of the summary of a run. *)
Lemma aggregate_result_summary n1 n2 acc final :
  let s := out_summary (aggregate_result n1 n2 acc final) in
  s !! "additions" = Some (total_additions acc)
  /\ s !! "deletions" = Some (total_deletions acc)
  /\ s !! "modifications" = Some (total_modifications acc)
  /\ s !! "chunks_processed" = Some (Z.of_nat (n1 `min` n2))
  /\ s !! "chunk_errors" = Some (Z.of_nat (length (chunk_errors acc))).
Proof. unfold aggregate_result. simpl out_summary. repeat split; by simplify_map_eq. Qed.

End ClosedForms.

(** * The claims of the design document *)

Section ChunkerClaims.
Import Str Chunker.

(** C3, as stated, fails: a text that begins with a blank line loses it,
    because the loop drops the empty paragraphs met while the current
    chunk is still empty. *)
Lemma roundtrip_fails_on_leading_blank_line :
  let T := blank_line +:+ "abc" in
  (len T <= 8000)%Z /\ join blank_line (chunk_text T 8000) <> T.
Proof. vm_compute. split; [discriminate | discriminate]. Qed.

(** C3, amended: a text that fits in the budget and does not begin with the
    blank-line separator is given back by joining its chunks with that
    separator. *)
Theorem chunk_text_roundtrip (T : string) (max_chunk_size : Z) :
  (len T <= max_chunk_size)%Z ->
  String.prefix blank_line T = false ->
  join blank_line (chunk_text T max_chunk_size) = T.
Proof.
  intros Hfit Hpre.
  destruct (decide (T = "")) as [-> | Hne].
  { unfold chunk_text, chunk_paragraphs.
    change (split_blank "") with [""].
    now rewrite chunk_loop_cons, chunk_step_start. }
  destruct (split_blank_first T Hne Hpre) as (p & ps & Hsplit & Hp).
  pose proof (join_split_blank T) as Hjoin. rewrite Hsplit in Hjoin.
  unfold chunk_text, chunk_paragraphs. rewrite Hsplit.
  rewrite chunk_loop_cons, chunk_step_start.
  rewrite chunk_loop_fits; [| exact Hp | now rewrite Hjoin].
  rewrite Hjoin. unfold chunk_finish.
  apply truthy_true in Hne. now rewrite Hne.
Qed.

Lemma chunk_text_roundtrip_witness :
  let T := "Para1" +:+ blank_line +:+ "Para2" in
  (len T <= 8000)%Z
  /\ String.prefix blank_line T = false
  /\ join blank_line (chunk_text T 8000) = T.
Proof.
  intros T.
  assert (Hfit : (len T <= 8000)%Z) by (vm_compute; discriminate).
  assert (Hpre : String.prefix blank_line T = false) by reflexivity.
  exact (conj Hfit (conj Hpre (chunk_text_roundtrip T 8000 Hfit Hpre))).
Defined.

(** C4 at the input on which the code exceeds the budget: the test that
    opens a new chunk leaves out the two characters of the separator, so
    two paragraphs of 3 and 2 characters make one chunk of 7 under a budget
    of 5, and that chunk is not a paragraph of the input. *)
Theorem chunk_text_exceeds_budget :
  let text := "aaa" +:+ blank_line +:+ "bb" in
  split_blank text = ["aaa"; "bb"]
  /\ chunk_text text 5 = [text]
  /\ len text = 7%Z
  /\ ~ In text (split_blank text).
Proof.
  vm_compute. repeat split. intros [H | [H | []]]; discriminate.
Qed.

(** C5: a paragraph longer than the budget is never split and is a chunk
    of its own: the chunks are those of the paragraphs before it, then the
    paragraph itself, then those of the paragraphs after it.  This holds
    for every budget that is not negative, which are the budgets that
    [compare_texts] passes, and at any budget for a paragraph that has
    content. *)
Theorem oversized_paragraph_is_standalone
    (text : string) (max_chunk_size : Z) (before : list string) (paragraph : string)
    (after : list string) :
  (0 <= max_chunk_size)%Z \/ paragraph <> "" ->
  split_blank text = before ++ paragraph :: after ->
  (len paragraph > max_chunk_size)%Z ->
  chunk_text text max_chunk_size
  = chunk_paragraphs max_chunk_size before ++ [paragraph]
    ++ chunk_paragraphs max_chunk_size after
  /\ In paragraph (chunk_text text max_chunk_size).
Proof.
  intros Hmax Hsplit Hlen.
  assert (E : chunk_text text max_chunk_size
              = chunk_paragraphs max_chunk_size before ++ [paragraph]
                ++ chunk_paragraphs max_chunk_size after).
  { unfold chunk_text. rewrite Hsplit. now apply chunk_paragraphs_oversized. }
  split; [exact E |].
  rewrite E. apply in_or_app. right. now left.
Qed.

Lemma oversized_paragraph_is_standalone_witness :
  let text := "ab" +:+ blank_line +:+ "0123456789" +:+ blank_line +:+ "cd" in
  split_blank text = ["ab"] ++ "0123456789" :: ["cd"]
  /\ (len "0123456789" > 5)%Z
  /\ chunk_text text 5 = ["ab"] ++ ["0123456789"] ++ ["cd"]
  /\ In "0123456789" (chunk_text text 5).
Proof.
  intros text.
  assert (Hmax : (0 <= 5)%Z \/ "0123456789" <> "") by (left; lia).
  assert (Hsplit : split_blank text = ["ab"] ++ "0123456789" :: ["cd"]) by reflexivity.
  assert (Hlen : (len "0123456789" > 5)%Z) by reflexivity.
  exact (conj Hsplit (conj Hlen
           (oversized_paragraph_is_standalone text 5 ["ab"] "0123456789" ["cd"]
              Hmax Hsplit Hlen))).
Defined.

(** C9: no chunk is the empty string, whatever the text and the budget, and
    a text that is only a blank-line separator has no chunk at all. *)
Theorem chunk_text_chunks_not_empty (text : string) (max_chunk_size : Z) :
  Forall (fun chunk => chunk <> "") (chunk_text text max_chunk_size)
  /\ chunk_text blank_line max_chunk_size = [].
Proof.
  split.
  - unfold chunk_text.
    eapply Forall_impl; [apply chunk_paragraphs_truthy |].
    intros chunk H. now apply truthy_true.
  - unfold chunk_text, chunk_paragraphs.
    change (split_blank blank_line) with [""; ""].
    now rewrite !chunk_loop_cons, !chunk_step_start.
Qed.

End ChunkerClaims.

Section ComparatorClaims.
Import Str Chunker Run Comparer.

(** C10: [compare_chunk] hands a parsed response on as a success, that is
    without an ["error"] key, exactly when the parsed object has no
    ["error"] key and has the three required fields.  A parsed object with
    an ["error"] key is returned as it is, a failure, whatever else it
    holds. *)
Theorem compare_chunk_success_iff
    (call_gemini_api : nat -> string -> string -> api_reply)
    (i : nat) (text1 text2 response_json_str : string) (result_json : ChunkResult) :
  call_gemini_api i text1 text2 = Parsed response_json_str result_json ->
  exists chunk_result,
    compare_chunk call_gemini_api i text1 text2
    = ([CompareChunkCalled i text1 text2], inr chunk_result)
    /\ (has (error chunk_result) = false
        <-> has (error result_json) = false
            /\ has (diff_sections result_json) = true
            /\ has (summary result_json) = true
            /\ has (detailed_summary result_json) = true)
    /\ (has (error chunk_result) = false -> chunk_result = result_json)
    /\ (has (error result_json) = true -> chunk_result = result_json).
Proof.
  intros Hreply. eexists. split.
  { unfold compare_chunk. rewrite Hreply. reflexivity. }
  unfold classify.
  destruct (has (error result_json)) eqn:Eerr.
  { repeat split; try tauto; try congruence. intros (? & _). congruence. }
  destruct (has (diff_sections result_json)), (has (summary result_json)),
    (has (detailed_summary result_json)); simpl; rewrite ?Eerr;
    repeat split; try tauto; try congruence; intros; try easy.
  all: try (destruct H as (? & ? & ? & ?); congruence).
Qed.

End ComparatorClaims.

Section OrchestratorClaims.
Import Str Chunker Run Comparer.

Variable call_gemini_api : nat -> string -> string -> api_reply.
Variable call_gemini_for_text : string -> text_reply.

Local Abbreviation run := (compare_texts call_gemini_api call_gemini_for_text).

(** C6: when the budget, or more generally the budget less the reserve for
    the prompt, is not positive, [compare_texts] raises the configuration
    error with an empty trace: the chunker has not been called.  When the
    content budget is positive the run returns, after chunking both
    texts. *)
Theorem configuration_check (text1 text2 : string) (max_chunk_size : Z) :
  let configuration_error : exn :=
    ValueError "max_chunk_size is too small to accommodate the prompt overhead." in
  ((max_chunk_size <= 0)%Z ->
     run text1 text2 max_chunk_size = ([], inl configuration_error))
  /\ ((max_chunk_size - prompt_overhead_estimate <= 0)%Z ->
        run text1 text2 max_chunk_size = ([], inl configuration_error))
  /\ ((0 < max_chunk_size - prompt_overhead_estimate)%Z ->
        exists trace result,
          run text1 text2 max_chunk_size
          = (ChunkTextCalled text1 (max_chunk_size - prompt_overhead_estimate)
               :: ChunkTextCalled text2 (max_chunk_size - prompt_overhead_estimate)
               :: trace,
             inr result)).
Proof.
  intros configuration_error.
  assert (Hraise : (max_chunk_size - prompt_overhead_estimate <= 0)%Z ->
                   run text1 text2 max_chunk_size = ([], inl configuration_error)).
  { intros H. unfold compare_texts. now rewrite bool_decide_eq_true_2 by exact H. }
  split; [| split].
  - intros H. apply Hraise. unfold prompt_overhead_estimate. lia.
  - exact Hraise.
  - intros Hpos.
    destruct (chunk_text text1 (max_chunk_size - prompt_overhead_estimate)) as [|c1 l1] eqn:E1;
      [destruct (chunk_text text2 (max_chunk_size - prompt_overhead_estimate)) as [|c2 l2] eqn:E2 |].
    + exists [], empty_result. now apply compare_texts_empty.
    + destruct (compare_texts_runs call_gemini_api call_gemini_for_text
                  text1 text2 max_chunk_size Hpos) as [final Hrun].
      { right. rewrite E2. discriminate. }
      rewrite Hrun. eexists _, _. reflexivity.
    + destruct (compare_texts_runs call_gemini_api call_gemini_for_text
                  text1 text2 max_chunk_size Hpos) as [final Hrun].
      { left. rewrite E1. discriminate. }
      rewrite Hrun. eexists _, _. reflexivity.
Qed.

(** The keys of the two summaries. *)
Lemma aggregate_result_keys n1 n2 acc final key :
  In key ["additions"; "deletions"; "modifications"; "chunks_processed";
          "chunks_added"; "chunks_deleted"; "chunk_errors"] ->
  is_Some (out_summary (aggregate_result n1 n2 acc final) !! key).
Proof.
  unfold aggregate_result. simpl out_summary.
  intros H. repeat (destruct H as [<- | H]; [simplify_map_eq; eauto |]).
  destruct H.
Qed.

Lemma empty_result_keys key :
  is_Some (out_summary empty_result !! key)
  <-> In key ["additions"; "deletions"; "modifications"].
Proof.
  unfold empty_result. simpl out_summary. split.
  - intros [v Hv].
    destruct (decide (key = "additions")) as [-> | H1]; [now left |].
    destruct (decide (key = "deletions")) as [-> | H2]; [right; now left |].
    destruct (decide (key = "modifications")) as [-> | H3]; [right; right; now left |].
    simplify_map_eq.
  - intros H. repeat (destruct H as [<- | H]; [simplify_map_eq; eauto |]).
    destruct H.
Qed.

(** C7, amended: a run that returns always has the three change counts in
    its summary; it also has the four chunk counts when at least one text
    has a chunk; when neither has, the summary holds the three change
    counts only. *)
Theorem result_summary_keys (text1 text2 : string) (max_chunk_size : Z)
    (trace : list event) (result : Comparison) :
  run text1 text2 max_chunk_size = (trace, inr result) ->
  let size := (max_chunk_size - prompt_overhead_estimate)%Z in
  (forall key, In key ["additions"; "deletions"; "modifications"] ->
     is_Some (out_summary result !! key))
  /\ (chunk_text text1 size <> [] \/ chunk_text text2 size <> [] ->
      forall key,
        In key ["chunks_processed"; "chunks_added"; "chunks_deleted"; "chunk_errors"] ->
        is_Some (out_summary result !! key))
  /\ (chunk_text text1 size = [] /\ chunk_text text2 size = [] ->
      forall key,
        In key ["chunks_processed"; "chunks_added"; "chunks_deleted"; "chunk_errors"] ->
        out_summary result !! key = None).
Proof.
  intros Hrun size.
  assert (Hpos : (0 < max_chunk_size - prompt_overhead_estimate)%Z).
  { destruct (decide (max_chunk_size - prompt_overhead_estimate <= 0)%Z) as [H|H]; [| lia].
    unfold compare_texts in Hrun. rewrite bool_decide_eq_true_2 in Hrun by exact H.
    discriminate. }
  destruct (decide (chunk_text text1 size = [] /\ chunk_text text2 size = [])) as [[E1 E2] | Hne].
  - rewrite (compare_texts_empty _ _ _ _ _ Hpos E1 E2) in Hrun.
    injection Hrun as _ <-.
    split; [| split].
    + intros key H. now apply empty_result_keys.
    + intros [H | H]; congruence.
    + intros _ key H.
      destruct (out_summary empty_result !! key) eqn:E; [| reflexivity].
      assert (Hin : In key ["additions"; "deletions"; "modifications"])
        by (apply empty_result_keys; eauto).
      exfalso. simpl in H, Hin.
      repeat (destruct H as [<- | H]; [intuition discriminate |]). destruct H.
  - assert (Hsome : chunk_text text1 size <> [] \/ chunk_text text2 size <> []).
    { destruct (chunk_text text1 size); [| left; discriminate].
      destruct (chunk_text text2 size); [| right; discriminate].
      exfalso. now apply Hne. }
    destruct (compare_texts_runs call_gemini_api call_gemini_for_text
                text1 text2 max_chunk_size Hpos Hsome) as [final Hruns].
    rewrite Hruns in Hrun. injection Hrun as _ <-.
    split; [| split].
    + intros key H. apply aggregate_result_keys. simpl in *. tauto.
    + intros _ key H. apply aggregate_result_keys. simpl in *. tauto.
    + intros H. exfalso. now apply Hne.
Qed.

End OrchestratorClaims.

Section AggregationClaims.
Import Str Chunker Run Comparer.

Variable call_gemini_api : nat -> string -> string -> api_reply.
Variable call_gemini_for_text : string -> text_reply.

Local Abbreviation run := (compare_texts call_gemini_api call_gemini_for_text).
Local Abbreviation results := (pair_results call_gemini_api).

(** C1: when one document has [k > 0] more chunks than the other and every
    aligned comparison succeeded, the run returns; the leftover chunks are
    the last [k] sections, in their order, tagged added when they come from
    the second document and deleted when they come from the first; the
    sections of the pairs come before them; and the matching total is the
    sum of the counts reported for the pairs plus [k], one per leftover
    chunk. *)
Theorem leftover_chunks_counted_once_each
    (text1 text2 : string) (max_chunk_size : Z) (k : nat) :
  (0 < max_chunk_size - prompt_overhead_estimate)%Z ->
  0 < k ->
  let size := (max_chunk_size - prompt_overhead_estimate)%Z in
  let chunks1 := chunk_text text1 size in
  let chunks2 := chunk_text text2 size in
  Forall (fun r => error r = None) (results chunks1 chunks2) ->
  let pair_sections :=
    concat (map (fun r => get (diff_sections r) []) (results chunks1 chunks2)) in
  (length chunks2 = length chunks1 + k ->
   exists trace result,
     run text1 text2 max_chunk_size = (trace, inr result)
     /\ out_summary result !! "additions"
        = Some (Zsum (map (reported additions) (results chunks1 chunks2)) + Z.of_nat k)%Z
     /\ out_diff_sections result
        = pair_sections ++ map (section "added") (drop (length chunks1) chunks2)
     /\ length (drop (length chunks1) chunks2) = k)
  /\ (length chunks1 = length chunks2 + k ->
      exists trace result,
        run text1 text2 max_chunk_size = (trace, inr result)
        /\ out_summary result !! "deletions"
           = Some (Zsum (map (reported deletions) (results chunks1 chunks2)) + Z.of_nat k)%Z
        /\ out_diff_sections result
           = pair_sections ++ map (section "deleted") (drop (length chunks2) chunks1)
        /\ length (drop (length chunks2) chunks1) = k).
Proof.
  intros Hpos Hk size chunks1 chunks2 Hok pair_sections.
  destruct (pairs_all_succeeded 0 _ Hok) as (P1 & P2 & P3 & _ & _).
  rewrite <- pairs_fold_init in P1, P2, P3.
  split; intros Hlen.
  - destruct (compare_texts_runs call_gemini_api call_gemini_for_text
                text1 text2 max_chunk_size Hpos) as [final Hrun].
    { right. fold size chunks2. intros E. rewrite E in Hlen. simpl in Hlen. lia. }
    fold size chunks1 chunks2 in Hrun. rewrite Hrun.
    eexists _, _. split; [reflexivity |].
    destruct (aggregate_result_summary (length chunks1) (length chunks2)
                (final_acc call_gemini_api chunks1 chunks2) final) as (S1 & _).
    rewrite S1. cbn [out_diff_sections aggregate_result].
    unfold final_acc, with_leftover.
    rewrite bool_decide_eq_true_2 by lia.
    destruct (added_fold (length chunks1) (drop (length chunks1) chunks2)
                (fold_indexed process_pair 0 (results chunks1 chunks2) acc_init))
      as (A1 & A2 & _).
    cbn zeta in A1, A2. rewrite A1, A2, P1, P2, length_drop.
    repeat split; [f_equal; f_equal; lia | lia].
  - destruct (compare_texts_runs call_gemini_api call_gemini_for_text
                text1 text2 max_chunk_size Hpos) as [final Hrun].
    { left. fold size chunks1. intros E. rewrite E in Hlen. simpl in Hlen. lia. }
    fold size chunks1 chunks2 in Hrun. rewrite Hrun.
    eexists _, _. split; [reflexivity |].
    destruct (aggregate_result_summary (length chunks1) (length chunks2)
                (final_acc call_gemini_api chunks1 chunks2) final) as (_ & S2 & _).
    rewrite S2. cbn [out_diff_sections aggregate_result].
    unfold final_acc, with_leftover.
    rewrite bool_decide_eq_false_2 by lia.
    rewrite bool_decide_eq_true_2 by lia.
    destruct (deleted_fold (length chunks2) (drop (length chunks2) chunks1)
                (fold_indexed process_pair 0 (results chunks1 chunks2) acc_init))
      as (D1 & _ & D3 & _).
    cbn zeta in D1, D3. rewrite D1, D3, P1, P3, length_drop.
    repeat split; [f_equal; f_equal; lia | lia].
Qed.

(** C2: a pair whose comparison failed leaves the three totals as they
    were, adds one entry to [chunk_errors], and adds one section, tagged
    unchanged, whose text names the chunk and the error.  The run does not
    stop there: it returns, the comparator was called for every aligned
    pair, and the result is that of the loop carried on over the pairs that
    follow. *)
Theorem failed_pair_does_not_stop_the_run
    (text1 text2 : string) (max_chunk_size : Z) (j : nat)
    (chunk_result : ChunkResult) (error_message : string) :
  (0 < max_chunk_size - prompt_overhead_estimate)%Z ->
  let size := (max_chunk_size - prompt_overhead_estimate)%Z in
  let chunks1 := chunk_text text1 size in
  let chunks2 := chunk_text text2 size in
  results chunks1 chunks2 !! j = Some chunk_result ->
  error chunk_result = Some error_message ->
  let before := state_after call_gemini_api chunks1 chunks2 j in
  let after := state_after call_gemini_api chunks1 chunks2 (S j) in
  (total_additions after = total_additions before
   /\ total_deletions after = total_deletions before
   /\ total_modifications after = total_modifications before)
  /\ chunk_errors after
     = chunk_errors before ++ ["Chunk " +:+ pretty (j + 1) +:+ ": " +:+ error_message]
  /\ all_diff_sections after
     = all_diff_sections before
       ++ [section "unchanged"
             (blank_line +:+ "[ERROR PROCESSING CHUNK " +:+ pretty (j + 1) +:+ ": "
              +:+ error_message +:+ "]" +:+ blank_line)]
  /\ exists synthesis final_detailed_summary,
       let rest := drop (S j) (results chunks1 chunks2) in
       let acc := with_leftover chunks1 chunks2
                    (fold_indexed process_pair (S j) rest after) in
       run text1 text2 max_chunk_size
       = ([ChunkTextCalled text1 size; ChunkTextCalled text2 size]
            ++ pair_events chunks1 chunks2 ++ synthesis,
          inr (aggregate_result (length chunks1) (length chunks2) acc
                 final_detailed_summary))
       /\ (forall i chunk1 chunk2,
             chunks1 !! i = Some chunk1 -> chunks2 !! i = Some chunk2 ->
             pair_events chunks1 chunks2 !! i = Some (CompareChunkCalled i chunk1 chunk2))
       /\ Forall (fun ev => is_comparison ev = false) synthesis.
Proof.
  intros Hpos size chunks1 chunks2 Hj Herr before after.
  assert (Hjn : j < length (results chunks1 chunks2)) by (eapply lookup_lt_Some; eauto).
  assert (Hstep : after = process_pair j chunk_result before)
    by (now apply state_after_step).
  rewrite Hstep. unfold process_pair. rewrite Herr.
  cbn [has negb get all_diff_sections total_additions total_deletions
       total_modifications chunk_errors].
  repeat split.
  assert (Hne : chunks1 <> [] \/ chunks2 <> []).
  { left. intros E. rewrite pair_results_length, E in Hjn. simpl in Hjn. lia. }
  destruct (compare_texts_runs call_gemini_api call_gemini_for_text
              text1 text2 max_chunk_size Hpos Hne) as [final Hrun].
  fold size chunks1 chunks2 in Hrun.
  exists (synthesis_events (final_acc call_gemini_api chunks1 chunks2)), final.
  cbn zeta. split; [| split].
  - rewrite Hrun. do 3 f_equal.
    rewrite (final_acc_from call_gemini_api chunks1 chunks2 (S j)) by lia.
    fold after. rewrite Hstep. unfold process_pair. rewrite Herr. reflexivity.
  - intros i c1 c2. apply pair_events_lookup.
  - unfold synthesis_events.
    destruct (negb _); repeat constructor.
Qed.

End AggregationClaims.

Section SynthesisClaims.
Import Str Chunker Run Comparer.

Variable call_gemini_api : nat -> string -> string -> api_reply.
Variable call_gemini_for_text : string -> text_reply.

Local Abbreviation run := (compare_texts call_gemini_api call_gemini_for_text).
Local Abbreviation results := (pair_results call_gemini_api).

Lemma slice_to_length n s :
  String.length (slice_to n s) = Nat.min n (String.length s).
Proof.
  revert s. induction n as [|n IH]; intros [|c s]; simpl; try reflexivity.
  now rewrite IH.
Qed.

(** The text sent for synthesis is the joined narratives when they fit, and
    otherwise their first 20000 characters followed by the marker. *)
Lemma cap_summaries_spec joined :
  ((len joined <= max_synthesis_input_len)%Z -> cap_summaries joined = joined)
  /\ ((len joined > max_synthesis_input_len)%Z ->
      cap_summaries joined
      = slice_to (Z.to_nat max_synthesis_input_len) joined +:+ truncation_marker
      /\ len (slice_to (Z.to_nat max_synthesis_input_len) joined)
         = max_synthesis_input_len)
  /\ (len (cap_summaries joined) <= max_synthesis_input_len + len truncation_marker)%Z.
Proof.
  unfold cap_summaries, max_synthesis_input_len.
  assert (Hslice : (len joined > 20000)%Z ->
                   len (slice_to (Z.to_nat 20000) joined) = 20000%Z).
  { intros H. unfold len in *. rewrite slice_to_length. lia. }
  split; [| split].
  - intros H. now rewrite bool_decide_eq_false_2 by lia.
  - intros H. rewrite bool_decide_eq_true_2 by exact H. split; [reflexivity | now apply Hslice].
  - case_bool_decide as H.
    + rewrite len_append, Hslice by exact H. lia.
    + pose proof (len_nonneg truncation_marker). lia.
Qed.

Lemma unlines_app l1 l2 : unlines (l1 ++ l2) = unlines l1 +:+ unlines l2.
Proof.
  induction l1 as [|x l1 IH]; [reflexivity |].
  cbn [app unlines foldr]. fold (unlines (l1 ++ l2)). fold (unlines l1).
  now rewrite IH, append_assoc, append_cons.
Qed.

(** The prompt of the synthesis holds the text it is given, as it is. *)
Lemma synthesis_prompt_holds_input a d m input :
  exists before after, synthesis_prompt a d m input = before +:+ input +:+ after.
Proof.
  exists (String LF (unlines [
    "You are an expert analyst summarizing document changes. You have been provided with the results of a chunk-by-chunk comparison between two versions of a document.";
    "";
    "Overall Change Counts:";
    "- Additions: " +:+ pretty a +:+ " significant blocks/changes noted.";
    "- Deletions: " +:+ pretty d +:+ " significant blocks/changes noted.";
    "- Modifications: " +:+ pretty m +:+ " significant blocks/changes noted.";
    "";
    "Chunk-level Summaries and Error Notes:";
    "--- START CHUNK SUMMARIES ---"])).
  exists (String LF (unlines [
    "--- END CHUNK SUMMARIES ---";
    "";
    "Based *only* on the information above, generate a single, cohesive, human-readable summary of the *overall* key changes between the original and modified documents. Focus on the most significant differences.";
    "- Do NOT mention the word " +:+ String DQ "chunk" +:+ String DQ " or the chunking process in your final summary.";
    "- Synthesize the findings into a unified narrative.";
    "- If errors were noted during chunk processing, briefly mention that some parts might be missing or inaccurate due to processing errors.";
    "- Be concise yet informative."])).
  unfold synthesis_prompt.
  match goal with
  | |- _ = String LF (unlines ?pre) +:+ input +:+ String LF (unlines ?post) =>
      change (input +:+ String LF (unlines post)) with (unlines (input :: post));
      rewrite (append_cons LF (unlines pre) (unlines (input :: post)));
      rewrite <- (unlines_app pre (input :: post))
  end.
  reflexivity.
Qed.

(** The narratives of a run are those of the pairs, in the order of the
    pairs, followed by the notes on the leftover chunks. *)
Lemma final_acc_summaries chunks1 chunks2 :
  all_chunk_summaries_raw (final_acc call_gemini_api chunks1 chunks2)
  = concat (map_indexed
              (fun i r => all_chunk_summaries_raw (pair_contribution i r)) 0
              (results chunks1 chunks2))
    ++ all_chunk_summaries_raw (with_leftover chunks1 chunks2 acc_init).
Proof.
  unfold final_acc. rewrite pairs_fold_init.
  set (pairs := acc_concat _).
  assert (E : all_chunk_summaries_raw pairs
              = concat (map_indexed
                          (fun i r => all_chunk_summaries_raw (pair_contribution i r)) 0
                          (results chunks1 chunks2))).
  { unfold pairs. now rewrite acc_concat_summaries, map_map_indexed. }
  rewrite <- E. unfold with_leftover.
  repeat case_bool_decide.
  - rewrite (fold_indexed_append process_added process_added_append _ _ pairs).
    rewrite (fold_indexed_append process_added process_added_append _ _ acc_init).
    reflexivity.
  - rewrite (fold_indexed_append process_deleted process_deleted_append _ _ pairs).
    rewrite (fold_indexed_append process_deleted process_deleted_append _ _ acc_init).
    reflexivity.
  - simpl. now rewrite app_nil_r.
Qed.

(** The narrative that a pair leaves: its summary when the comparison
    succeeded and the summary has content, a line on the error when it
    failed. *)
Lemma pair_narratives i rs :
  map_indexed (fun i r => all_chunk_summaries_raw (pair_contribution i r)) i rs
  = map_indexed
      (fun i r =>
         match error r with
         | Some error_message =>
             ["[Error processing chunk " +:+ pretty (i + 1) +:+ ": "
              +:+ error_message +:+ "]"]
         | None =>
             match detailed_summary r with
             | Some text => if truthy text then [text] else []
             | None => []
             end
         end) i rs.
Proof.
  revert i. induction rs as [|r rs IH]; intros i; [reflexivity |].
  cbn [map_indexed]. rewrite IH. f_equal.
  unfold pair_contribution, process_pair.
  destruct (error r) as [msg|]; cbn; [reflexivity |].
  destruct (detailed_summary r) as [text|]; [| reflexivity].
  now destruct (truthy text).
Qed.

(** C8: the narratives kept for the synthesis are those of the pairs, the
    successes and the failures alike, in the order of the pairs, then the
    notes on the leftover chunks.  They are joined with the separator line.
    When the joined text is longer than 20000 characters, its first 20000
    characters followed by the truncation marker are used in its place.
    That text, inside the prompt, is what the model is called with, once,
    after all the comparisons. *)
Theorem synthesis_input_is_joined_and_capped
    (text1 text2 : string) (max_chunk_size : Z) :
  (0 < max_chunk_size - prompt_overhead_estimate)%Z ->
  let size := (max_chunk_size - prompt_overhead_estimate)%Z in
  let chunks1 := chunk_text text1 size in
  let chunks2 := chunk_text text2 size in
  let acc := final_acc call_gemini_api chunks1 chunks2 in
  let narratives := all_chunk_summaries_raw acc in
  let joined := join summaries_separator narratives in
  narratives <> [] ->
  (* the narratives, in order *)
  narratives
  = concat (map_indexed
              (fun i r =>
                 match error r with
                 | Some error_message =>
                     ["[Error processing chunk " +:+ pretty (i + 1) +:+ ": "
                      +:+ error_message +:+ "]"]
                 | None =>
                     match detailed_summary r with
                     | Some text => if truthy text then [text] else []
                     | None => []
                     end
                 end) 0 (results chunks1 chunks2))
    ++ all_chunk_summaries_raw (with_leftover chunks1 chunks2 acc_init)
  (* the cap *)
  /\ ((len joined <= max_synthesis_input_len)%Z -> synthesis_input acc = joined)
  /\ ((len joined > max_synthesis_input_len)%Z ->
      synthesis_input acc
      = slice_to (Z.to_nat max_synthesis_input_len) joined +:+ truncation_marker
      /\ len (slice_to (Z.to_nat max_synthesis_input_len) joined)
         = max_synthesis_input_len)
  /\ (len (synthesis_input acc) <= max_synthesis_input_len + len truncation_marker)%Z
  (* the call *)
  /\ exists prompt before after result,
       prompt = before +:+ synthesis_input acc +:+ after
       /\ run text1 text2 max_chunk_size
          = ([ChunkTextCalled text1 size; ChunkTextCalled text2 size]
               ++ pair_events chunks1 chunks2 ++ [SynthesisCalled prompt],
             inr result).
Proof.
  intros Hpos size chunks1 chunks2 acc narratives joined Hsome.
  destruct (cap_summaries_spec joined) as (C1 & C2 & C3).
  split; [| split; [exact C1 | split; [exact C2 | split; [exact C3 |]]]].
  - unfold narratives, acc. rewrite final_acc_summaries. f_equal. f_equal.
    apply pair_narratives.
  - assert (Hne : chunks1 <> [] \/ chunks2 <> []).
    { destruct chunks1 as [|c1 l1] eqn:E1; [| left; discriminate].
      destruct chunks2 as [|c2 l2] eqn:E2; [| right; discriminate].
      exfalso. apply Hsome. reflexivity. }
    destruct (compare_texts_runs call_gemini_api call_gemini_for_text
                text1 text2 max_chunk_size Hpos Hne) as [final Hrun].
    fold size chunks1 chunks2 acc in Hrun.
    destruct (synthesis_prompt_holds_input (total_additions acc) (total_deletions acc)
                (total_modifications acc) (synthesis_input acc))
      as (before & after & Hprompt).
    exists (synthesis_prompt (total_additions acc) (total_deletions acc)
              (total_modifications acc) (synthesis_input acc)), before, after.
    eexists. split; [exact Hprompt |].
    rewrite Hrun. unfold synthesis_events. fold narratives.
    destruct narratives; [congruence | reflexivity].
Qed.

End SynthesisClaims.

(** * Runs on the sample documents *)

Section Witnesses.
Import Str Chunker Run Comparer Examples.

Lemma compare_chunk_success_iff_witness :
  exists chunk_result,
    compare_chunk always_blocked 0 "a" "b"
    = ([CompareChunkCalled 0 "a" "b"], inr chunk_result)
    /\ has (error chunk_result) = true
    /\ chunk_result = error_and_fields.
Proof.
  destruct (compare_chunk_success_iff always_blocked 0 "a" "b" "{}"
              error_and_fields eq_refl)
    as (chunk_result & Hrun & _ & _ & Hsame).
  exists chunk_result.
  assert (E : chunk_result = error_and_fields) by (apply Hsame; reflexivity).
  split; [exact Hrun |]. split; [| exact E]. rewrite E. reflexivity.
Defined.

Lemma configuration_check_witness :
  (compare_texts always_succeeds no_narrative "a" "b" 0
   = ([], inl (ValueError "max_chunk_size is too small to accommodate the prompt overhead.")))
  /\ (compare_texts always_succeeds no_narrative "a" "b" 1500
      = ([], inl (ValueError "max_chunk_size is too small to accommodate the prompt overhead.")))
  /\ (exists trace result,
        compare_texts always_succeeds no_narrative "a" "b" 1501
        = (ChunkTextCalled "a" 1 :: ChunkTextCalled "b" 1 :: trace, inr result)).
Proof.
  split; [| split].
  - apply (proj1 (configuration_check always_succeeds no_narrative "a" "b" 0)). lia.
  - apply (proj1 (proj2 (configuration_check always_succeeds no_narrative "a" "b" 1500))).
    unfold prompt_overhead_estimate. lia.
  - apply (proj2 (proj2 (configuration_check always_succeeds no_narrative "a" "b" 1501))).
    unfold prompt_overhead_estimate. lia.
Defined.

(** C7, as stated, fails: when both texts have no chunk the run returns a
    summary without the four chunk counts. *)
Lemma empty_documents_summary_lacks_chunk_counts :
  exists trace result,
    compare_texts always_succeeds no_narrative "" "" 8000 = (trace, inr result)
    /\ out_summary result !! "chunks_processed" = None
    /\ out_summary result !! "chunks_added" = None
    /\ out_summary result !! "chunks_deleted" = None
    /\ out_summary result !! "chunk_errors" = None.
Proof.
  exists [ChunkTextCalled "" 6500; ChunkTextCalled "" 6500], empty_result.
  repeat split; vm_compute; reflexivity.
Qed.

Lemma result_summary_keys_witness :
  exists trace result,
    compare_texts always_succeeds no_narrative "a" "b" 8000 = (trace, inr result)
    /\ (forall key,
          In key ["additions"; "deletions"; "modifications"] ->
          is_Some (out_summary result !! key))
    /\ (forall key,
          In key ["chunks_processed"; "chunks_added"; "chunks_deleted"; "chunk_errors"] ->
          is_Some (out_summary result !! key)).
Proof.
  destruct (compare_texts always_succeeds no_narrative "a" "b" 8000)
    as [trace [e | result]] eqn:E.
  - exfalso. vm_compute in E. discriminate.
  - exists trace, result. split; [reflexivity |].
    destruct (result_summary_keys always_succeeds no_narrative "a" "b" 8000
                trace result E) as (H3 & H4 & _).
    split; [exact H3 |]. apply H4. left. vm_compute. discriminate.
Defined.

Lemma leftover_chunks_counted_once_each_witness :
  (exists trace result,
     compare_texts always_succeeds no_narrative three_paragraphs five_paragraphs 1501
     = (trace, inr result)
     /\ out_summary result !! "additions" = Some 8%Z
     /\ out_diff_sections result
        = [ {| ds_type := "modified"; ds_text := "a"; ds_original := Some "old" |};
            {| ds_type := "modified"; ds_text := "B"; ds_original := Some "old" |};
            {| ds_type := "modified"; ds_text := "c"; ds_original := Some "old" |} ]
          ++ [section "added" "d"; section "added" "e"]
     /\ length (drop 3 (chunk_text five_paragraphs 1)) = 2)
  /\ (exists trace result,
        compare_texts always_succeeds no_narrative five_paragraphs three_paragraphs 1501
        = (trace, inr result)
        /\ out_summary result !! "deletions" = Some 5%Z
        /\ out_diff_sections result
           = [ {| ds_type := "modified"; ds_text := "a"; ds_original := Some "old" |};
               {| ds_type := "modified"; ds_text := "b"; ds_original := Some "old" |};
               {| ds_type := "modified"; ds_text := "c"; ds_original := Some "old" |} ]
             ++ [section "deleted" "d"; section "deleted" "e"]
        /\ length (drop 3 (chunk_text five_paragraphs 1)) = 2).
Proof.
  assert (Hpos : (0 < 1501 - prompt_overhead_estimate)%Z) by reflexivity.
  assert (Hk : 0 < 2) by lia.
  split.
  - apply (proj1 (leftover_chunks_counted_once_each always_succeeds no_narrative
                    three_paragraphs five_paragraphs 1501 2 Hpos Hk
                    ltac:(vm_compute; repeat constructor))).
    reflexivity.
  - apply (proj2 (leftover_chunks_counted_once_each always_succeeds no_narrative
                    five_paragraphs three_paragraphs 1501 2 Hpos Hk
                    ltac:(vm_compute; repeat constructor))).
    reflexivity.
Defined.

Lemma failed_pair_does_not_stop_the_run_witness :
  let chunks1 := chunk_text three_paragraphs 1 in
  let chunks2 := chunk_text five_paragraphs 1 in
  let before := state_after second_call_fails chunks1 chunks2 1 in
  let after := state_after second_call_fails chunks1 chunks2 2 in
  total_additions before = 2%Z
  /\ total_additions after = 2%Z
  /\ length (chunk_errors before) = 0
  /\ chunk_errors after
     = ["Chunk 2: Invalid response format from Gemini, failed JSON decoding"]
  /\ exists trace result,
       compare_texts second_call_fails no_narrative three_paragraphs five_paragraphs 1501
       = (trace, inr result)
       /\ pair_events chunks1 chunks2 !! 2 = Some (CompareChunkCalled 2 "c" "c").
Proof.
  intros chunks1 chunks2 before after.
  destruct (failed_pair_does_not_stop_the_run second_call_fails no_narrative
              three_paragraphs five_paragraphs 1501 1
              (classify (Undecodable "not json"))
              "Invalid response format from Gemini, failed JSON decoding"
              eq_refl eq_refl eq_refl)
    as ((Ha & _ & _) & He & _ & synthesis & final & Hrun & Hcalls & _).
  split; [reflexivity |].
  split; [etransitivity; [exact Ha | reflexivity] |].
  split; [reflexivity |].
  split; [etransitivity; [exact He | reflexivity] |].
  eexists _, _. split; [exact Hrun |].
  apply Hcalls; reflexivity.
Defined.

Lemma synthesis_input_is_joined_and_capped_witness :
  (let acc := final_acc always_verbose (chunk_text "a" 6500) (chunk_text "b" 6500) in
   let joined := join summaries_separator (all_chunk_summaries_raw acc) in
   (len joined > max_synthesis_input_len)%Z
   /\ synthesis_input acc
      = slice_to (Z.to_nat max_synthesis_input_len) joined +:+ truncation_marker
   /\ len (slice_to (Z.to_nat max_synthesis_input_len) joined)
      = max_synthesis_input_len)
  /\
  let acc := final_acc second_call_fails
               (chunk_text three_paragraphs 1) (chunk_text five_paragraphs 1) in
  all_chunk_summaries_raw acc
  = ["Changed a";
     "[Error processing chunk 2: Invalid response format from Gemini, failed JSON decoding]";
     "Changed c";
     "Chunk 4: This entire chunk was added.";
     "Chunk 5: This entire chunk was added."]
  /\ synthesis_input acc = join summaries_separator (all_chunk_summaries_raw acc)
  /\ exists prompt before after result,
       prompt = before +:+ synthesis_input acc +:+ after
       /\ compare_texts second_call_fails no_narrative three_paragraphs five_paragraphs 1501
          = ([ChunkTextCalled three_paragraphs 1; ChunkTextCalled five_paragraphs 1]
               ++ pair_events (chunk_text three_paragraphs 1) (chunk_text five_paragraphs 1)
               ++ [SynthesisCalled prompt],
             inr result).
Proof.
  split.
  { intros acc joined.
    assert (Hsome : all_chunk_summaries_raw acc <> []).
    { intros E. apply (f_equal length) in E. revert E. vm_compute. discriminate. }
    destruct (synthesis_input_is_joined_and_capped always_verbose no_narrative
                "a" "b" 8000 eq_refl Hsome)
      as (_ & _ & Hcut & _).
    assert (Hlong : (len joined > max_synthesis_input_len)%Z)
      by (vm_compute; reflexivity).
    exact (conj Hlong (Hcut Hlong)). }
  intros acc.
  destruct (synthesis_input_is_joined_and_capped second_call_fails no_narrative
              three_paragraphs five_paragraphs 1501 eq_refl
              ltac:(vm_compute; discriminate))
    as (Hn & Hfit & _ & _ & Hcall).
  split; [etransitivity; [exact Hn | reflexivity] |].
  split; [apply Hfit; vm_compute; discriminate | exact Hcall].
Defined.

End Witnesses.

(** * Further properties of the code *)

(** ** The chunker keeps the paragraphs *)

Section ChunkerGroups.
Import Str Chunker.

Variable max_chunk_size : Z.

(** A group of paragraphs that makes a chunk: it begins with a paragraph
    that has content. *)
Local Abbreviation good :=
  (fun group : list string =>
     exists p rest, group = p :: rest /\ truthy p = true).

Lemma join_cons_nonempty sep p (l : list string) :
  l <> [] -> join sep (p :: l) = p +:+ sep +:+ join sep l.
Proof. destruct l; [congruence | reflexivity]. Qed.

Lemma join_snoc group p :
  group <> [] ->
  join blank_line (group ++ [p]) = join blank_line group +:+ blank_line +:+ p.
Proof.
  induction group as [|q group IH]; intros Hne; [congruence |].
  destruct group as [|q' group]; [reflexivity |].
  change ((q :: q' :: group) ++ [p]) with (q :: ((q' :: group) ++ [p])).
  rewrite join_cons_nonempty by (destruct group; discriminate).
  rewrite IH by discriminate.
  rewrite (join_cons_nonempty _ q (q' :: group)) by discriminate.
  now rewrite !append_assoc.
Qed.

Lemma join_good_truthy group : good group -> truthy (join blank_line group) = true.
Proof.
  intros (p & rest & -> & Hp). destruct rest; [exact Hp |].
  rewrite join_cons. now apply truthy_append_l.
Qed.

Lemma filter_truthy_snoc_empty (l : list string) :
  filter (fun p => truthy p = true) (l ++ [""]) = filter (fun p => truthy p = true) l.
Proof. rewrite filter_app. cbn. now rewrite app_nil_r. Qed.

(** The state of the loop after some paragraphs: the closed chunks and the
    current chunk are joins of groups of those paragraphs, which hold the
    paragraphs with content, in order. *)
Local Abbreviation grouped :=
  (fun (done : list string) (st : list string * string) =>
     exists groups group,
       st.1 = map (join blank_line) groups
       /\ Forall good groups
       /\ (group = [] /\ st.2 = "" \/ good group /\ st.2 = join blank_line group)
       /\ filter (fun p => truthy p = true) (concat groups ++ group)
          = filter (fun p => truthy p = true) done).

Lemma chunk_step_grouped done st p :
  grouped done st -> grouped (done ++ [p]) (chunk_step max_chunk_size st p).
Proof.
  destruct st as [chunks cur]. cbn [fst snd].
  intros (groups & group & Hchunks & Hgood & Hcur & Hfilter).
  assert (Hstart : forall gs,
             Forall good gs ->
             filter (fun q => truthy q = true) (concat gs)
             = filter (fun q => truthy q = true) done ->
             grouped (done ++ [p]) (map (join blank_line) gs, p)).
  { intros gs Hgs Hf. destruct (truthy p) eqn:Ep.
    - exists gs, [p]. cbn [fst snd]. repeat split; [exact Hgs | | ].
      + right. split; [now exists p, [] | reflexivity].
      + now rewrite !filter_app, Hf.
    - apply truthy_false in Ep. subst p.
      exists gs, []. cbn [fst snd]. repeat split; [exact Hgs | now left |].
      now rewrite app_nil_r, filter_truthy_snoc_empty. }
  unfold chunk_step.
  destruct Hcur as [[-> ->] | [Hg ->]].
  - cbn [truthy]. rewrite andb_false_r. subst chunks.
    apply Hstart; [exact Hgood |]. now rewrite app_nil_r in Hfilter.
  - rewrite (join_good_truthy group Hg).
    destruct (bool_decide _); cbn [andb].
    + subst chunks.
      replace (map (join blank_line) groups ++ [join blank_line group])
        with (map (join blank_line) (groups ++ [group]))
        by (now rewrite map_app).
      apply Hstart.
      * apply Forall_app; split; [exact Hgood | now constructor].
      * rewrite concat_app. cbn [concat]. now rewrite app_nil_r.
    + exists groups, (group ++ [p]). cbn [fst snd].
      split; [exact Hchunks |]. split; [exact Hgood |]. split.
      * right. split.
        -- destruct Hg as (q & rest & -> & Hq). now exists q, (rest ++ [p]).
        -- rewrite join_snoc; [reflexivity |].
           destruct Hg as (q & rest & -> & _). discriminate.
      * rewrite app_assoc, filter_app, Hfilter. now rewrite filter_app.
Qed.

Lemma chunk_loop_grouped ps done st :
  grouped done st -> grouped (done ++ ps) (chunk_loop max_chunk_size ps st).
Proof.
  revert done st. induction ps as [|p ps IH]; intros done st H.
  - now rewrite app_nil_r.
  - rewrite chunk_loop_cons.
    replace (done ++ p :: ps) with ((done ++ [p]) ++ ps)
      by (now rewrite <- app_assoc).
    apply IH. now apply chunk_step_grouped.
Qed.

Lemma chunk_paragraphs_grouped paragraphs :
  exists groups,
    chunk_paragraphs max_chunk_size paragraphs = map (join blank_line) groups
    /\ Forall good groups
    /\ filter (fun p => truthy p = true) (concat groups)
       = filter (fun p => truthy p = true) paragraphs.
Proof.
  unfold chunk_paragraphs.
  destruct (chunk_loop_grouped paragraphs [] ([], ""))
    as (groups & group & Hchunks & Hgood & Hcur & Hfilter).
  { exists [], []. cbn. repeat split; [constructor | now left]. }
  destruct (chunk_loop max_chunk_size paragraphs ([], "")) as [chunks cur].
  cbn [fst snd app chunk_finish] in *.
  destruct Hcur as [[-> ->] | [Hg ->]].
  - exists groups. cbn [truthy]. rewrite app_nil_r in Hfilter. now repeat split.
  - rewrite (join_good_truthy group Hg).
    exists (groups ++ [group]). subst chunks. repeat split.
    + now rewrite map_app.
    + apply Forall_app; split; [exact Hgood | now constructor].
    + rewrite concat_app. cbn [concat]. now rewrite app_nil_r.
Qed.

End ChunkerGroups.

Section ChunkerExtras.
Import Str Chunker.

(** X1: every chunk is the join, with blank lines, of a run of paragraphs of
    the text that begins with a paragraph with content; and the paragraphs
    with content of the text are those of the chunks, in the same order:
    none is lost, repeated or moved. *)
Theorem chunk_text_keeps_paragraphs (text : string) (max_chunk_size : Z) :
  exists groups : list (list string),
    chunk_text text max_chunk_size = map (join blank_line) groups
    /\ Forall (fun group => exists p rest, group = p :: rest /\ p <> "") groups
    /\ filter (fun p => truthy p = true) (concat groups)
       = filter (fun p => truthy p = true) (split_blank text).
Proof.
  destruct (chunk_paragraphs_grouped max_chunk_size (split_blank text))
    as (groups & H1 & H2 & H3).
  exists groups. split; [exact H1 |]. split; [| exact H3].
  eapply Forall_impl; [exact H2 |].
  intros group (p & rest & -> & Hp). exists p, rest. split; [reflexivity |].
  now apply truthy_true.
Qed.

Lemma chunk_paragraphs_nil_iff (max_chunk_size : Z) (paragraphs : list string) :
  chunk_paragraphs max_chunk_size paragraphs = []
  <-> Forall (fun p => p = "") paragraphs.
Proof.
  destruct (chunk_paragraphs_grouped max_chunk_size paragraphs)
    as (groups & H1 & H2 & H3).
  rewrite H1. split.
  - intros E. destruct groups; [| discriminate]. cbn in H3.
    apply Forall_forall. intros p Hp.
    destruct (truthy p) eqn:Ep; [| now apply truthy_false].
    assert (Hin : In p (filter (fun p => truthy p = true) paragraphs)).
    { apply list_elem_of_In, list_elem_of_filter. split; [exact Ep | exact Hp]. }
    rewrite <- H3 in Hin. destruct Hin.
  - intros Hall.
    destruct groups as [|g groups]; [reflexivity |]. exfalso.
    apply Forall_inv in H2. destruct H2 as (p & rest & -> & Hp).
    assert (Hin : In p (filter (fun p => truthy p = true) paragraphs)).
    { rewrite <- H3. cbn [concat app]. apply list_elem_of_In, list_elem_of_filter.
      split; [exact Hp | left]. }
    apply list_elem_of_In, list_elem_of_filter in Hin as [_ Hin].
    rewrite Forall_forall in Hall.
    rewrite (Hall p Hin) in Hp. discriminate.
Qed.

(** X2: a text has no chunk exactly when all its paragraphs are empty, that
    is when it is empty or made of blank-line separators only; the budget
    plays no part. *)
Theorem chunk_text_nil_iff (text : string) (max_chunk_size : Z) :
  chunk_text text max_chunk_size = []
  <-> Forall (fun p => p = "") (split_blank text).
Proof. apply chunk_paragraphs_nil_iff. Qed.

End ChunkerExtras.

(** ** The totals, the sections and the calls of a run *)

Section RunExtras.
Import Str Chunker Run Comparer.

Variable call_gemini_api : nat -> string -> string -> api_reply.
Variable call_gemini_for_text : string -> text_reply.

Local Abbreviation run := (compare_texts call_gemini_api call_gemini_for_text).
Local Abbreviation results := (pair_results call_gemini_api).

(** What the pairs give, whether their comparisons succeeded or not. *)
Lemma pairs_totals i rs :
  let acc := acc_concat (map_indexed pair_contribution i rs) in
  let succeeded := filter (fun r => error r = None) rs in
  total_additions acc = Zsum (map (reported additions) succeeded)
  /\ total_deletions acc = Zsum (map (reported deletions) succeeded)
  /\ total_modifications acc = Zsum (map (reported modifications) succeeded)
  /\ length (chunk_errors acc) = length (filter (fun r => error r <> None) rs).
Proof.
  revert i. induction rs as [|r rs IH]; intros i; [repeat split |].
  destruct (IH (S i)) as (I1 & I2 & I3 & I4). cbn zeta in *.
  cbn [map_indexed acc_concat foldr].
  fold (acc_concat (map_indexed pair_contribution (S i) rs)).
  cbn [acc_append total_additions total_deletions total_modifications chunk_errors].
  rewrite length_app, I1, I2, I3, I4.
  destruct (error r) as [msg|] eqn:Er.
  - rewrite (pair_contribution_failure i r msg Er).
    rewrite filter_cons_False by (rewrite Er; congruence).
    rewrite filter_cons_True by (rewrite Er; congruence).
    cbn [total_additions total_deletions total_modifications chunk_errors length].
    repeat split; lia.
  - destruct (pair_contribution_success i r Er) as (_ & P2 & P3 & P4 & P5).
    rewrite filter_cons_True by exact Er.
    rewrite filter_cons_False by (rewrite Er; congruence).
    rewrite P2, P3, P4, P5. cbn [map Zsum foldr length]. repeat split; lia.
Qed.

Lemma pairs_sections i rs :
  all_diff_sections (acc_concat (map_indexed pair_contribution i rs))
  = concat (map_indexed
              (fun i r =>
                 match error r with
                 | Some error_message =>
                     [section "unchanged"
                        (blank_line +:+ "[ERROR PROCESSING CHUNK " +:+ pretty (i + 1)
                         +:+ ": " +:+ error_message +:+ "]" +:+ blank_line)]
                 | None => get (diff_sections r) []
                 end) i rs).
Proof.
  rewrite acc_concat_sections, map_map_indexed. f_equal.
  revert i. induction rs as [|r rs IH]; intros i; [reflexivity |].
  cbn [map_indexed]. rewrite IH. f_equal.
  destruct (error r) as [msg|] eqn:Er.
  - now rewrite (pair_contribution_failure i r msg Er).
  - now destruct (pair_contribution_success i r Er) as (P1 & _).
Qed.

(** What the leftover chunks add to the accumulators. *)
Lemma with_leftover_fields chunks1 chunks2 acc :
  let acc' := with_leftover chunks1 chunks2 acc in
  all_diff_sections acc'
  = all_diff_sections acc
    ++ map (section "added") (drop (length chunks1) chunks2)
    ++ map (section "deleted") (drop (length chunks2) chunks1)
  /\ total_additions acc'
     = (total_additions acc + Z.of_nat (length chunks2 - length chunks1))%Z
  /\ total_deletions acc'
     = (total_deletions acc + Z.of_nat (length chunks1 - length chunks2))%Z
  /\ total_modifications acc' = total_modifications acc
  /\ chunk_errors acc' = chunk_errors acc.
Proof.
  cbn zeta. unfold with_leftover. repeat case_bool_decide.
  - destruct (added_fold (length chunks1) (drop (length chunks1) chunks2) acc)
      as (A1 & A2 & A3 & A4 & A5). cbn zeta in *.
    rewrite A1, A2, A3, A4, A5, length_drop.
    rewrite (drop_ge chunks1) by lia. cbn [map]. rewrite app_nil_r.
    repeat split; lia.
  - destruct (deleted_fold (length chunks2) (drop (length chunks2) chunks1) acc)
      as (D1 & D2 & D3 & D4 & D5). cbn zeta in *.
    rewrite D1, D2, D3, D4, D5, length_drop.
    rewrite (drop_ge chunks2) by lia. cbn [map app].
    repeat split; lia.
  - rewrite (drop_ge chunks1), (drop_ge chunks2) by lia. cbn [map app].
    rewrite app_nil_r. repeat split; lia.
Qed.

Lemma aggregate_result_chunk_counts n1 n2 acc final :
  let s := out_summary (aggregate_result n1 n2 acc final) in
  s !! "chunks_processed" = Some (Z.of_nat (n1 `min` n2))
  /\ s !! "chunks_added" = Some (Z.of_nat (n2 - n1))
  /\ s !! "chunks_deleted" = Some (Z.of_nat (n1 - n2)).
Proof.
  unfold aggregate_result. simpl out_summary.
  repeat split; simplify_map_eq; f_equal; lia.
Qed.

(** X3: the totals of a run.  The additions are those reported by the
    pairs whose comparison succeeded plus one for each chunk that only the
    second document has; the deletions likewise with the first document;
    the modifications are those reported by the pairs that succeeded; and
    [chunk_errors] is the number of pairs whose comparison failed. *)
Theorem run_totals (text1 text2 : string) (max_chunk_size : Z) :
  (0 < max_chunk_size - prompt_overhead_estimate)%Z ->
  let size := (max_chunk_size - prompt_overhead_estimate)%Z in
  let chunks1 := chunk_text text1 size in
  let chunks2 := chunk_text text2 size in
  chunks1 <> [] \/ chunks2 <> [] ->
  let succeeded := filter (fun r => error r = None) (results chunks1 chunks2) in
  let failed := filter (fun r => error r <> None) (results chunks1 chunks2) in
  exists trace result,
    run text1 text2 max_chunk_size = (trace, inr result)
    /\ out_summary result !! "additions"
       = Some (Zsum (map (reported additions) succeeded)
               + Z.of_nat (length chunks2 - length chunks1))%Z
    /\ out_summary result !! "deletions"
       = Some (Zsum (map (reported deletions) succeeded)
               + Z.of_nat (length chunks1 - length chunks2))%Z
    /\ out_summary result !! "modifications"
       = Some (Zsum (map (reported modifications) succeeded))
    /\ out_summary result !! "chunk_errors" = Some (Z.of_nat (length failed)).
Proof.
  intros Hpos size chunks1 chunks2 Hne succeeded failed.
  destruct (compare_texts_runs call_gemini_api call_gemini_for_text
              text1 text2 max_chunk_size Hpos Hne) as [final Hrun].
  fold size chunks1 chunks2 in Hrun. rewrite Hrun.
  eexists _, _. split; [reflexivity |].
  destruct (aggregate_result_summary (length chunks1) (length chunks2)
              (final_acc call_gemini_api chunks1 chunks2) final)
    as (S1 & S2 & S3 & _ & S5).
  cbn zeta in *. rewrite S1, S2, S3, S5.
  unfold final_acc.
  destruct (with_leftover_fields chunks1 chunks2
              (fold_indexed process_pair 0 (results chunks1 chunks2) acc_init))
    as (_ & L2 & L3 & L4 & L5).
  cbn zeta in *. rewrite L2, L3, L4, L5, pairs_fold_init.
  destruct (pairs_totals 0 (results chunks1 chunks2)) as (P1 & P2 & P3 & P4).
  cbn zeta in *. rewrite P1, P2, P3, P4. repeat split.
Qed.

(** X4: the sections of a run, in order: for each aligned pair, in the
    order of the pairs, the sections of its answer, or the one error marker
    when its comparison failed; then the chunks that only the second
    document has, tagged added; then those that only the first has, tagged
    deleted (one of these two lists is empty). *)
Theorem run_sections (text1 text2 : string) (max_chunk_size : Z) :
  (0 < max_chunk_size - prompt_overhead_estimate)%Z ->
  let size := (max_chunk_size - prompt_overhead_estimate)%Z in
  let chunks1 := chunk_text text1 size in
  let chunks2 := chunk_text text2 size in
  chunks1 <> [] \/ chunks2 <> [] ->
  exists trace result,
    run text1 text2 max_chunk_size = (trace, inr result)
    /\ out_diff_sections result
       = concat (map_indexed
                   (fun i r =>
                      match error r with
                      | Some error_message =>
                          [section "unchanged"
                             (blank_line +:+ "[ERROR PROCESSING CHUNK "
                              +:+ pretty (i + 1) +:+ ": " +:+ error_message
                              +:+ "]" +:+ blank_line)]
                      | None => get (diff_sections r) []
                      end) 0 (results chunks1 chunks2))
         ++ map (section "added") (drop (length chunks1) chunks2)
         ++ map (section "deleted") (drop (length chunks2) chunks1)
    /\ (drop (length chunks1) chunks2 = [] \/ drop (length chunks2) chunks1 = []).
Proof.
  intros Hpos size chunks1 chunks2 Hne.
  destruct (compare_texts_runs call_gemini_api call_gemini_for_text
              text1 text2 max_chunk_size Hpos Hne) as [final Hrun].
  fold size chunks1 chunks2 in Hrun. rewrite Hrun.
  eexists _, _. split; [reflexivity |].
  cbn [out_diff_sections aggregate_result]. unfold final_acc.
  destruct (with_leftover_fields chunks1 chunks2
              (fold_indexed process_pair 0 (results chunks1 chunks2) acc_init))
    as (L1 & _).
  cbn zeta in *. rewrite L1, pairs_fold_init, pairs_sections.
  split; [reflexivity |].
  destruct (decide (length chunks2 <= length chunks1)).
  - left. now apply drop_ge.
  - right. apply drop_ge. lia.
Qed.

(** X5: the chunk counts and the calls.  The comparator is called once for
    each aligned pair and for nothing else; [chunks_processed] is the
    number of these calls, [chunks_added] and [chunks_deleted] are the
    numbers of leftover chunks of the second and of the first document; the
    three add up to the number of chunks of the longer document, and one of
    the last two is zero. *)
Theorem run_chunk_counts (text1 text2 : string) (max_chunk_size : Z) :
  (0 < max_chunk_size - prompt_overhead_estimate)%Z ->
  let size := (max_chunk_size - prompt_overhead_estimate)%Z in
  let chunks1 := chunk_text text1 size in
  let chunks2 := chunk_text text2 size in
  chunks1 <> [] \/ chunks2 <> [] ->
  let added := length (drop (length chunks1) chunks2) in
  let deleted := length (drop (length chunks2) chunks1) in
  exists trace result,
    run text1 text2 max_chunk_size = (trace, inr result)
    /\ filter (fun ev => is_comparison ev = true) trace = pair_events chunks1 chunks2
    /\ out_summary result !! "chunks_processed"
       = Some (Z.of_nat (length (pair_events chunks1 chunks2)))
    /\ out_summary result !! "chunks_added" = Some (Z.of_nat added)
    /\ out_summary result !! "chunks_deleted" = Some (Z.of_nat deleted)
    /\ length (pair_events chunks1 chunks2) + added + deleted
       = length chunks1 `max` length chunks2
    /\ (added = 0 \/ deleted = 0).
Proof.
  intros Hpos size chunks1 chunks2 Hne added deleted.
  destruct (compare_texts_runs call_gemini_api call_gemini_for_text
              text1 text2 max_chunk_size Hpos Hne) as [final Hrun].
  fold size chunks1 chunks2 in Hrun. rewrite Hrun.
  destruct (aggregate_result_chunk_counts (length chunks1) (length chunks2)
              (final_acc call_gemini_api chunks1 chunks2) final) as (C1 & C2 & C3).
  assert (Hpairs : length (pair_events chunks1 chunks2)
                   = length chunks1 `min` length chunks2).
  { unfold pair_events. now rewrite map_indexed_length, aligned_pairs_length. }
  assert (Hadded : added = length chunks2 - length chunks1)
    by (unfold added; now rewrite length_drop).
  assert (Hdeleted : deleted = length chunks1 - length chunks2)
    by (unfold deleted; now rewrite length_drop).
  eexists _, _. split; [reflexivity |].
  split; [| rewrite Hpairs, Hadded, Hdeleted; repeat split; solve [assumption | lia]].
  cbn [app]. rewrite !filter_cons_False by (cbn; congruence).
  rewrite filter_app.
  assert (Hp : forall i l,
             filter (fun ev => is_comparison ev = true)
               (map_indexed (fun i pair => CompareChunkCalled i pair.1 pair.2) i l)
             = map_indexed (fun i pair => CompareChunkCalled i pair.1 pair.2) i l).
  { intros i l. revert i. induction l as [|x l IH]; intros i; [reflexivity |].
    cbn [map_indexed]. rewrite filter_cons_True by reflexivity. now rewrite IH. }
  unfold pair_events. rewrite Hp.
  unfold synthesis_events. destruct (negb _).
  - rewrite filter_cons_False by (cbn; congruence). cbn. now rewrite app_nil_r.
  - cbn. now rewrite app_nil_r.
Qed.

End RunExtras.

(** ** The narrative of a run *)

Section NarrativeExtras.
Import Str Chunker Run Comparer.

Variable call_gemini_api : nat -> string -> string -> api_reply.
Variable call_gemini_for_text : string -> text_reply.

Local Abbreviation run := (compare_texts call_gemini_api call_gemini_for_text).
Local Abbreviation results := (pair_results call_gemini_api).

(** The final synthesis step, in closed form: the note on the errors, if
    any, then the text of the model, or the raw narratives when the model
    gave none, or a fixed sentence when there is no narrative. *)
Lemma final_synthesis_text acc :
  final_synthesis call_gemini_for_text acc
  = (synthesis_events acc,
     inr ((if is_empty (chunk_errors acc) then ""
           else error_prefix (chunk_errors acc))
          +:+
          (if is_empty (all_chunk_summaries_raw acc)
           then "No specific changes were identified or summarized during chunk processing."
           else
             match call_gemini_for_text
                     (synthesis_prompt (total_additions acc) (total_deletions acc)
                        (total_modifications acc) (synthesis_input acc)) with
             | Text synthesized_summary =>
                 if truthy synthesized_summary then synthesized_summary
                 else "Synthesis Failed. Raw Chunk Summaries:"
                      +:+ summaries_separator +:+ synthesis_input acc
             | TextRaised synth_error =>
                 "Synthesis Failed (" +:+ synth_error +:+ "). Raw Chunk Summaries:"
                 +:+ summaries_separator +:+ synthesis_input acc
             end))).
Proof.
  unfold final_synthesis, synthesis_events, synthesize.
  destruct (is_empty (all_chunk_summaries_raw acc)); simpl.
  - destruct (is_empty (chunk_errors acc)); reflexivity.
  - destruct (call_gemini_for_text _) as [text | e]; simpl.
    + destruct (truthy text); simpl;
        destruct (is_empty (chunk_errors acc)); reflexivity.
    + destruct (is_empty (chunk_errors acc)); reflexivity.
Qed.

Lemma compare_texts_narrative text1 text2 max_chunk_size :
  (0 < max_chunk_size - prompt_overhead_estimate)%Z ->
  let size := (max_chunk_size - prompt_overhead_estimate)%Z in
  let chunks1 := chunk_text text1 size in
  let chunks2 := chunk_text text2 size in
  chunks1 <> [] \/ chunks2 <> [] ->
  forall trace result,
    run text1 text2 max_chunk_size = (trace, inr result) ->
    final_synthesis call_gemini_for_text (final_acc call_gemini_api chunks1 chunks2)
    = (synthesis_events (final_acc call_gemini_api chunks1 chunks2),
       inr (out_detailed_summary result))
    /\ trace = [ChunkTextCalled text1 size; ChunkTextCalled text2 size]
               ++ pair_events chunks1 chunks2
               ++ synthesis_events (final_acc call_gemini_api chunks1 chunks2).
Proof.
  intros Hpos size chunks1 chunks2 Hne trace result Hrun.
  destruct (compare_texts_runs call_gemini_api call_gemini_for_text
              text1 text2 max_chunk_size Hpos Hne) as [final Hruns].
  fold size chunks1 chunks2 in Hruns. rewrite Hruns in Hrun.
  injection Hrun as <- <-. split; [| reflexivity].
  cbn [out_detailed_summary aggregate_result].
  pose proof (final_synthesis_text (final_acc call_gemini_api chunks1 chunks2)) as Htext.
  unfold compare_texts in Hruns.
  rewrite bool_decide_eq_false_2 in Hruns by lia.
  unfold chunk_text_call in Hruns. fold size chunks1 chunks2 in Hruns.
  assert (Hif : is_empty chunks1 && is_empty chunks2 = false).
  { destruct (is_empty chunks1 && is_empty chunks2) eqn:E; [| reflexivity].
    apply empty_chunks_iff in E as [E1 E2]. destruct Hne; congruence. }
  cbn [bind emit ret] in Hruns. rewrite Hif in Hruns.
  rewrite compare_pairs_runs in Hruns. cbn [bind] in Hruns.
  rewrite handle_leftover_runs in Hruns. cbn [bind] in Hruns.
  fold (final_acc call_gemini_api chunks1 chunks2) in Hruns.
  rewrite Htext in Hruns. cbn [bind ret] in Hruns.
  injection Hruns as _ Hfinal.
  rewrite Htext. do 2 f_equal. exact Hfinal.
Qed.

Lemma truthy_append_r s t : truthy t = true -> truthy (s +:+ t) = true.
Proof. destruct s; [now rewrite append_nil_l | reflexivity]. Qed.

(** X6: the narrative that a run returns is never the empty string. *)
Theorem run_narrative_not_empty (text1 text2 : string) (max_chunk_size : Z)
    (trace : list event) (result : Comparison) :
  run text1 text2 max_chunk_size = (trace, inr result) ->
  out_detailed_summary result <> "".
Proof.
  intros Hrun.
  assert (Hpos : (0 < max_chunk_size - prompt_overhead_estimate)%Z).
  { destruct (decide (max_chunk_size - prompt_overhead_estimate <= 0)%Z) as [H|H]; [| lia].
    unfold compare_texts in Hrun. rewrite bool_decide_eq_true_2 in Hrun by exact H.
    discriminate. }
  set (size := (max_chunk_size - prompt_overhead_estimate)%Z) in *.
  destruct (decide (chunk_text text1 size = [] /\ chunk_text text2 size = []))
    as [[E1 E2] | Hsome].
  - rewrite (compare_texts_empty _ _ _ _ _ Hpos E1 E2) in Hrun.
    injection Hrun as _ <-. discriminate.
  - assert (Hne : chunk_text text1 size <> [] \/ chunk_text text2 size <> []).
    { destruct (chunk_text text1 size); [| left; discriminate].
      destruct (chunk_text text2 size); [| right; discriminate].
      exfalso. now apply Hsome. }
    destruct (compare_texts_narrative text1 text2 max_chunk_size Hpos Hne
                trace result Hrun) as [Hfinal _].
    rewrite final_synthesis_text in Hfinal.
    injection Hfinal as Hfinal. rewrite <- Hfinal.
    apply truthy_true, truthy_append_r.
    destruct (is_empty (all_chunk_summaries_raw _)); [reflexivity |].
    destruct (call_gemini_for_text _) as [text | e]; [| reflexivity].
    destruct (truthy text) eqn:Et; [exact Et | reflexivity].
Qed.

(** The lines on the errors, pair by pair. *)
Lemma pairs_errors i rs :
  chunk_errors (acc_concat (map_indexed pair_contribution i rs))
  = concat (map_indexed
              (fun i r =>
                 match error r with
                 | Some error_message =>
                     ["Chunk " +:+ pretty (i + 1) +:+ ": " +:+ error_message]
                 | None => []
                 end) i rs).
Proof.
  rewrite acc_concat_errors, map_map_indexed. f_equal.
  revert i. induction rs as [|r rs IH]; intros i; [reflexivity |].
  cbn [map_indexed]. rewrite IH. f_equal.
  destruct (error r) as [msg|] eqn:Er.
  - now rewrite (pair_contribution_failure i r msg Er).
  - now destruct (pair_contribution_success i r Er) as (_ & _ & _ & _ & P5).
Qed.

Lemma final_acc_errors chunks1 chunks2 :
  chunk_errors (final_acc call_gemini_api chunks1 chunks2)
  = concat (map_indexed
              (fun i r =>
                 match error r with
                 | Some error_message =>
                     ["Chunk " +:+ pretty (i + 1) +:+ ": " +:+ error_message]
                 | None => []
                 end) 0 (results chunks1 chunks2)).
Proof.
  unfold final_acc.
  destruct (with_leftover_fields chunks1 chunks2
              (fold_indexed process_pair 0 (results chunks1 chunks2) acc_init))
    as (_ & _ & _ & _ & L5).
  cbn zeta in L5. now rewrite L5, pairs_fold_init, pairs_errors.
Qed.

Lemma error_lines_length i rs :
  length (concat (map_indexed
                    (fun i r =>
                       match error r with
                       | Some error_message =>
                           ["Chunk " +:+ pretty (i + 1) +:+ ": " +:+ error_message]
                       | None => []
                       end) i rs))
  = length (filter (fun r => error r <> None) rs).
Proof.
  revert i. induction rs as [|r rs IH]; intros i; [reflexivity |].
  cbn [map_indexed concat]. rewrite length_app, IH.
  destruct (error r) as [msg|] eqn:Er.
  - rewrite filter_cons_True by (rewrite Er; congruence). reflexivity.
  - rewrite filter_cons_False by (rewrite Er; congruence). reflexivity.
Qed.

(** X7: the narrative of a run is the note on the errors followed by the
    body that the final step made (the text of the model, or the raw
    narratives when the model gave none, or the fixed sentence when there
    is no narrative), and it is that body alone, without any note, when no
    comparison failed.  The note gives the number of failed pairs and, in
    the order of the pairs, one line for each of them with the number of
    the chunk and the error; the body is not empty. *)
Theorem run_narrative_error_note (text1 text2 : string) (max_chunk_size : Z)
    (trace : list event) (result : Comparison) :
  run text1 text2 max_chunk_size = (trace, inr result) ->
  let size := (max_chunk_size - prompt_overhead_estimate)%Z in
  let chunks1 := chunk_text text1 size in
  let chunks2 := chunk_text text2 size in
  chunks1 <> [] \/ chunks2 <> [] ->
  let acc := final_acc call_gemini_api chunks1 chunks2 in
  let failed := filter (fun r => error r <> None) (results chunks1 chunks2) in
  let lines :=
    concat (map_indexed
              (fun i r =>
                 match error r with
                 | Some error_message =>
                     ["Chunk " +:+ pretty (i + 1) +:+ ": " +:+ error_message]
                 | None => []
                 end) 0 (results chunks1 chunks2)) in
  let body :=
    if is_empty (all_chunk_summaries_raw acc)
    then "No specific changes were identified or summarized during chunk processing."
    else
      match call_gemini_for_text
              (synthesis_prompt (total_additions acc) (total_deletions acc)
                 (total_modifications acc) (synthesis_input acc)) with
      | Text synthesized_summary =>
          if truthy synthesized_summary then synthesized_summary
          else "Synthesis Failed. Raw Chunk Summaries:"
               +:+ summaries_separator +:+ synthesis_input acc
      | TextRaised synth_error =>
          "Synthesis Failed (" +:+ synth_error +:+ "). Raw Chunk Summaries:"
          +:+ summaries_separator +:+ synthesis_input acc
      end in
  length lines = length failed
  /\ body <> ""
  /\ (failed <> [] ->
      out_detailed_summary result
      = "**Note:** Errors occurred during the processing of "
        +:+ pretty (length failed)
        +:+ " chunk(s). The comparison or summary below might be incomplete or inaccurate in affected areas."
        +:+ String LF "Error Details:" +:+ String LF "- "
        +:+ join (String LF "- ") lines
        +:+ blank_line +:+ "---" +:+ blank_line +:+ body)
  /\ (failed = [] -> out_detailed_summary result = body).
Proof.
  intros Hrun size chunks1 chunks2 Hne acc failed lines body.
  assert (Hpos : (0 < max_chunk_size - prompt_overhead_estimate)%Z).
  { destruct (decide (max_chunk_size - prompt_overhead_estimate <= 0)%Z) as [H|H]; [| lia].
    unfold compare_texts in Hrun. rewrite bool_decide_eq_true_2 in Hrun by exact H.
    discriminate. }
  destruct (compare_texts_narrative text1 text2 max_chunk_size Hpos Hne
              trace result Hrun) as [Hfinal _].
  fold size chunks1 chunks2 acc in Hfinal.
  rewrite final_synthesis_text in Hfinal. injection Hfinal as Hfinal.
  fold body in Hfinal.
  assert (Hlen : length lines = length failed) by apply error_lines_length.
  assert (Herrors : chunk_errors acc = lines) by apply final_acc_errors.
  rewrite Herrors in Hfinal.
  split; [exact Hlen |]. split; [| split].
  - apply truthy_true. unfold body.
    destruct (is_empty (all_chunk_summaries_raw acc)); [reflexivity |].
    destruct (call_gemini_for_text _) as [text | e]; [| reflexivity].
    destruct (truthy text) eqn:Et; [exact Et | reflexivity].
  - intros Hfailed. rewrite <- Hfinal, <- Hlen.
    destruct lines as [|l ls] eqn:El.
    + destruct failed; [congruence | discriminate Hlen].
    + cbn [is_empty]. unfold error_prefix.
      now rewrite !append_assoc.
  - intros Hfailed. rewrite <- Hfinal.
    destruct lines as [|l ls] eqn:El; [reflexivity |].
    rewrite Hfailed in Hlen. discriminate Hlen.
Qed.

End NarrativeExtras.

Section NarrativeExtras2.
Import Str Chunker Run Comparer.

Variable call_gemini_api : nat -> string -> string -> api_reply.
Variable call_gemini_for_text : string -> text_reply.

Local Abbreviation run := (compare_texts call_gemini_api call_gemini_for_text).
Local Abbreviation results := (pair_results call_gemini_api).

(** X8: what the model of the synthesis gives is what the narrative ends
    with: its text when it has one, and otherwise the text that was
    prepared for it, so that the narratives of the chunks are not lost.
    When no comparison failed nothing comes before the text of the model. *)
Theorem run_narrative_synthesis (text1 text2 : string) (max_chunk_size : Z)
    (trace : list event) (result : Comparison) :
  run text1 text2 max_chunk_size = (trace, inr result) ->
  let size := (max_chunk_size - prompt_overhead_estimate)%Z in
  let chunks1 := chunk_text text1 size in
  let chunks2 := chunk_text text2 size in
  let acc := final_acc call_gemini_api chunks1 chunks2 in
  all_chunk_summaries_raw acc <> [] ->
  let prompt :=
    synthesis_prompt (total_additions acc) (total_deletions acc)
      (total_modifications acc) (synthesis_input acc) in
  In (SynthesisCalled prompt) trace
  /\ (forall synthesized_summary,
        call_gemini_for_text prompt = Text synthesized_summary ->
        synthesized_summary <> "" ->
        (exists before, out_detailed_summary result = before +:+ synthesized_summary)
        /\ (Forall (fun r => error r = None) (results chunks1 chunks2) ->
            out_detailed_summary result = synthesized_summary))
  /\ ((call_gemini_for_text prompt = Text ""
       \/ exists synth_error, call_gemini_for_text prompt = TextRaised synth_error) ->
      exists before,
        out_detailed_summary result
        = before +:+ "Raw Chunk Summaries:" +:+ summaries_separator
          +:+ synthesis_input acc).
Proof.
  intros Hrun size chunks1 chunks2 acc Hsome prompt.
  assert (Hpos : (0 < max_chunk_size - prompt_overhead_estimate)%Z).
  { destruct (decide (max_chunk_size - prompt_overhead_estimate <= 0)%Z) as [H|H]; [| lia].
    unfold compare_texts in Hrun. rewrite bool_decide_eq_true_2 in Hrun by exact H.
    discriminate. }
  assert (Hne : chunks1 <> [] \/ chunks2 <> []).
  { destruct chunks1 as [|c1 l1] eqn:E1; [| left; discriminate].
    destruct chunks2 as [|c2 l2] eqn:E2; [| right; discriminate].
    exfalso. apply Hsome. reflexivity. }
  destruct (compare_texts_narrative call_gemini_api call_gemini_for_text
              text1 text2 max_chunk_size Hpos Hne trace result Hrun)
    as [Hfinal Htrace].
  fold size chunks1 chunks2 acc in Hfinal, Htrace.
  rewrite final_synthesis_text in Hfinal. injection Hfinal as Hfinal.
  fold prompt in Hfinal.
  assert (Hempty : is_empty (all_chunk_summaries_raw acc) = false)
    by (destruct (all_chunk_summaries_raw acc); [congruence | reflexivity]).
  rewrite Hempty in Hfinal.
  split; [| split].
  - rewrite Htrace. unfold synthesis_events. rewrite Hempty. cbn [negb].
    apply in_or_app. right. apply in_or_app. right. now left.
  - intros s Hs Hs'. rewrite Hs in Hfinal.
    apply truthy_true in Hs'. rewrite Hs' in Hfinal. split.
    + eexists. symmetry. exact Hfinal.
    + intros Hok. rewrite <- Hfinal.
      unfold acc. rewrite final_acc_errors.
      assert (E : concat (map_indexed
                  (fun i r =>
                     match error r with
                     | Some error_message =>
                         ["Chunk " +:+ pretty (i + 1) +:+ ": " +:+ error_message]
                     | None => []
                     end) 0 (results chunks1 chunks2)) = []).
      { generalize 0 at 2. induction Hok as [|r rs Hr _ IH]; intros i; [reflexivity |].
        cbn [map_indexed concat]. rewrite Hr. apply IH. }
      now rewrite E.
  - set (note := if is_empty (chunk_errors acc) then ""
                 else error_prefix (chunk_errors acc)) in Hfinal.
    intros [Hs | [e He]].
    + rewrite Hs in Hfinal. cbn [truthy] in Hfinal.
      exists (note +:+ "Synthesis Failed. "). rewrite <- Hfinal.
      rewrite (append_assoc note). reflexivity.
    + rewrite He in Hfinal.
      exists (note +:+ "Synthesis Failed (" +:+ e +:+ "). ").
      rewrite <- Hfinal.
      rewrite (append_assoc note). f_equal.
      change ("Synthesis Failed (" +:+ e +:+ "). ")
        with ("Synthesis Failed (" +:+ (e +:+ "). ")).
      rewrite (append_assoc "Synthesis Failed (" (e +:+ "). ")).
      rewrite (append_assoc e "). "). reflexivity.
Qed.

(** X9: when the two documents have as many chunks and every comparison
    succeeded with an empty narrative, nothing is sent for synthesis: the
    model is not called for it, and the narrative is a fixed sentence. *)
Theorem run_without_narratives (text1 text2 : string) (max_chunk_size : Z) :
  (0 < max_chunk_size - prompt_overhead_estimate)%Z ->
  let size := (max_chunk_size - prompt_overhead_estimate)%Z in
  let chunks1 := chunk_text text1 size in
  let chunks2 := chunk_text text2 size in
  chunks1 <> [] ->
  length chunks1 = length chunks2 ->
  Forall (fun r => error r = None
                   /\ (detailed_summary r = None \/ detailed_summary r = Some ""))
    (results chunks1 chunks2) ->
  exists result,
    run text1 text2 max_chunk_size
    = ([ChunkTextCalled text1 size; ChunkTextCalled text2 size]
         ++ pair_events chunks1 chunks2,
       inr result)
    /\ out_detailed_summary result
       = "No specific changes were identified or summarized during chunk processing.".
Proof.
  intros Hpos size chunks1 chunks2 Hne Hlen Hquiet.
  destruct (compare_texts_runs call_gemini_api call_gemini_for_text
              text1 text2 max_chunk_size Hpos (or_introl Hne)) as [final Hrun].
  fold size chunks1 chunks2 in Hrun.
  destruct (compare_texts_narrative call_gemini_api call_gemini_for_text
              text1 text2 max_chunk_size Hpos (or_introl Hne) _ _ Hrun)
    as [Hfinal _].
  fold size chunks1 chunks2 in Hfinal.
  rewrite final_synthesis_text in Hfinal. injection Hfinal as Hfinal.
  cbn [out_detailed_summary aggregate_result] in Hfinal.
  assert (Hnone : all_chunk_summaries_raw (final_acc call_gemini_api chunks1 chunks2) = []).
  { rewrite final_acc_summaries, pair_narratives.
    unfold with_leftover. rewrite !bool_decide_eq_false_2 by lia.
    cbn [all_chunk_summaries_raw acc_init]. rewrite app_nil_r.
    generalize 0 at 2. induction Hquiet as [|r rs [Hr Hd] _ IH]; intros i; [reflexivity |].
    cbn [map_indexed concat]. rewrite Hr, IH.
    destruct Hd as [-> | ->]; reflexivity. }
  assert (Herr : chunk_errors (final_acc call_gemini_api chunks1 chunks2) = []).
  { rewrite final_acc_errors.
    generalize 0 at 2. induction Hquiet as [|r rs [Hr Hd] _ IH]; intros i; [reflexivity |].
    cbn [map_indexed concat]. rewrite Hr. apply IH. }
  rewrite Hnone, Herr in Hfinal. cbn [is_empty] in Hfinal.
  rewrite Hrun. unfold synthesis_events. rewrite Hnone. cbn [is_empty negb].
  rewrite app_nil_r. eexists. split; [reflexivity |].
  cbn [out_detailed_summary aggregate_result]. now rewrite <- Hfinal.
Qed.

(** X10: when only the second document has chunks, the comparator is not
    called at all; every chunk of the second document is one section tagged
    added, in order, and counts for one addition; nothing else is counted.
    Likewise, with deleted, when only the first document has chunks. *)
Theorem run_with_one_empty_document (text1 text2 : string) (max_chunk_size : Z) :
  (0 < max_chunk_size - prompt_overhead_estimate)%Z ->
  let size := (max_chunk_size - prompt_overhead_estimate)%Z in
  let chunks1 := chunk_text text1 size in
  let chunks2 := chunk_text text2 size in
  (chunks1 = [] -> chunks2 <> [] ->
   exists prompt result,
     run text1 text2 max_chunk_size
     = ([ChunkTextCalled text1 size; ChunkTextCalled text2 size; SynthesisCalled prompt],
        inr result)
     /\ out_diff_sections result = map (section "added") chunks2
     /\ out_summary result !! "additions" = Some (Z.of_nat (length chunks2))
     /\ out_summary result !! "deletions" = Some 0%Z
     /\ out_summary result !! "modifications" = Some 0%Z
     /\ out_summary result !! "chunk_errors" = Some 0%Z)
  /\ (chunks2 = [] -> chunks1 <> [] ->
      exists prompt result,
        run text1 text2 max_chunk_size
        = ([ChunkTextCalled text1 size; ChunkTextCalled text2 size; SynthesisCalled prompt],
           inr result)
        /\ out_diff_sections result = map (section "deleted") chunks1
        /\ out_summary result !! "additions" = Some 0%Z
        /\ out_summary result !! "deletions" = Some (Z.of_nat (length chunks1))
        /\ out_summary result !! "modifications" = Some 0%Z
        /\ out_summary result !! "chunk_errors" = Some 0%Z).
Proof.
  intros Hpos size chunks1 chunks2.
  split; intros Hnil Hne.
  - destruct (compare_texts_runs call_gemini_api call_gemini_for_text
                text1 text2 max_chunk_size Hpos (or_intror Hne)) as [final Hrun].
    fold size chunks1 chunks2 in Hrun.
    assert (Hacc : final_acc call_gemini_api chunks1 chunks2
                   = fold_indexed process_added 0 chunks2 acc_init).
    { unfold final_acc, with_leftover, pair_results, aligned_pairs.
      rewrite Hnil. cbn [length zip_with map_indexed fold_indexed].
      destruct chunks2 as [|c l] eqn:E2; [congruence |].
      rewrite bool_decide_eq_true_2 by (cbn; lia). reflexivity. }
    assert (Hs : is_empty (all_chunk_summaries_raw
                             (fold_indexed process_added 0 chunks2 acc_init)) = false).
    { destruct chunks2 as [|c l]; [congruence |]. cbn [fold_indexed].
      rewrite (fold_indexed_append process_added process_added_append).
      reflexivity. }
    assert (Hev : pair_events chunks1 chunks2 = []).
    { unfold pair_events, aligned_pairs. now rewrite Hnil. }
    rewrite Hev, Hacc in Hrun. unfold synthesis_events in Hrun.
    rewrite Hs in Hrun. cbn [negb app] in Hrun.
    rewrite Hrun. eexists _, _. split; [reflexivity |].
    destruct (aggregate_result_summary (length chunks1) (length chunks2)
                (fold_indexed process_added 0 chunks2 acc_init) final)
      as (S1 & S2 & S3 & _ & S5).
    cbn zeta in *. rewrite S1, S2, S3, S5.
    cbn [out_diff_sections aggregate_result].
    destruct (added_fold 0 chunks2 acc_init) as (A1 & A2 & A3 & A4 & A5).
    cbn zeta in *. rewrite A1, A2, A3, A4, A5. repeat split.
  - destruct (compare_texts_runs call_gemini_api call_gemini_for_text
                text1 text2 max_chunk_size Hpos (or_introl Hne)) as [final Hrun].
    fold size chunks1 chunks2 in Hrun.
    assert (Hz : zip chunks1 (@nil string) = []) by (now destruct chunks1).
    assert (Hacc : final_acc call_gemini_api chunks1 chunks2
                   = fold_indexed process_deleted 0 chunks1 acc_init).
    { unfold final_acc, with_leftover, pair_results, aligned_pairs.
      rewrite Hnil, Hz. cbn [length map_indexed fold_indexed].
      destruct chunks1 as [|c l] eqn:E1; [congruence |].
      rewrite bool_decide_eq_false_2 by (cbn; lia).
      rewrite bool_decide_eq_true_2 by (cbn; lia). reflexivity. }
    assert (Hs : is_empty (all_chunk_summaries_raw
                             (fold_indexed process_deleted 0 chunks1 acc_init)) = false).
    { destruct chunks1 as [|c l]; [congruence |]. cbn [fold_indexed].
      rewrite (fold_indexed_append process_deleted process_deleted_append).
      reflexivity. }
    assert (Hev : pair_events chunks1 chunks2 = []).
    { unfold pair_events, aligned_pairs. now rewrite Hnil, Hz. }
    rewrite Hev, Hacc in Hrun. unfold synthesis_events in Hrun.
    rewrite Hs in Hrun. cbn [negb app] in Hrun.
    rewrite Hrun. eexists _, _. split; [reflexivity |].
    destruct (aggregate_result_summary (length chunks1) (length chunks2)
                (fold_indexed process_deleted 0 chunks1 acc_init) final)
      as (S1 & S2 & S3 & _ & S5).
    cbn zeta in *. rewrite S1, S2, S3, S5.
    cbn [out_diff_sections aggregate_result].
    destruct (deleted_fold 0 chunks1 acc_init) as (A1 & A2 & A3 & A4 & A5).
    cbn zeta in *. rewrite A1, A2, A3, A4, A5. repeat split.
Qed.

(** X11: a run gives the result for two empty documents, without any call
    to the model, exactly when all the paragraphs of both texts are empty:
    each text is empty or made of blank-line separators only. *)
Theorem run_on_empty_documents (text1 text2 : string) (max_chunk_size : Z) :
  (0 < max_chunk_size - prompt_overhead_estimate)%Z ->
  let size := (max_chunk_size - prompt_overhead_estimate)%Z in
  (Forall (fun p => p = "") (split_blank text1)
   /\ Forall (fun p => p = "") (split_blank text2))
  <-> run text1 text2 max_chunk_size
      = ([ChunkTextCalled text1 size; ChunkTextCalled text2 size], inr empty_result).
Proof.
  intros Hpos size. split.
  - intros [H1 H2]. apply compare_texts_empty; [exact Hpos | |];
      now apply chunk_paragraphs_nil_iff.
  - intros Hrun.
    destruct (decide (chunk_text text1 size = [] /\ chunk_text text2 size = []))
      as [[E1 E2] | Hsome].
    + split; now apply (chunk_paragraphs_nil_iff size).
    + exfalso.
      assert (Hne : chunk_text text1 size <> [] \/ chunk_text text2 size <> []).
      { destruct (chunk_text text1 size); [| left; discriminate].
        destruct (chunk_text text2 size); [| right; discriminate].
        exfalso. now apply Hsome. }
      destruct (compare_texts_runs call_gemini_api call_gemini_for_text
                  text1 text2 max_chunk_size Hpos Hne) as [final Hruns].
      fold size in Hruns. rewrite Hruns in Hrun.
      apply (f_equal (fun x : list event * (exn + Comparison) =>
                        match x.2 with
                        | inr r => out_summary r !! "chunks_processed"
                        | inl _ => None
                        end)) in Hrun.
      cbv beta in Hrun. cbn [snd] in Hrun. rename Hrun into Hres.
      destruct (aggregate_result_summary
                  (length (chunk_text text1 size)) (length (chunk_text text2 size))
                  (final_acc call_gemini_api (chunk_text text1 size) (chunk_text text2 size))
                  final) as (_ & _ & _ & S4 & _).
      cbn zeta in S4. rewrite S4 in Hres.
      assert (Hnone : out_summary empty_result !! "chunks_processed" = None)
        by (vm_compute; reflexivity).
      rewrite Hnone in Hres. discriminate.
Qed.

End NarrativeExtras2.

(** ** The extracted text *)

Section StripFacts.
Import Str Py.

Lemma lstrip_starts c s : starts_with_char c (lstrip s) = true -> is_space c = false.
Proof.
  induction s as [|d s IH]; [discriminate |].
  cbn [lstrip]. destruct (is_space d) eqn:Ed; [exact IH |].
  cbn [starts_with_char]. intros H. apply Ascii.eqb_eq in H. now subst.
Qed.

Lemma rstrip_starts c s :
  starts_with_char c s = true -> is_space c = false ->
  starts_with_char c (rstrip s) = true.
Proof.
  destruct s as [|d s]; [discriminate |].
  cbn [starts_with_char rstrip]. intros H Hc.
  apply Ascii.eqb_eq in H. subst d.
  destruct (rstrip s); [rewrite Hc |]; cbn; apply Ascii.eqb_refl.
Qed.

Lemma rstrip_starts_inv c s :
  starts_with_char c (rstrip s) = true -> starts_with_char c s = true.
Proof.
  destruct s as [|d s]; [discriminate |].
  cbn [starts_with_char rstrip].
  destruct (rstrip s); [destruct (is_space d); [discriminate |] |]; cbn; auto.
Qed.

Lemma rstrip_ends c s : ends_with_char c (rstrip s) = true -> is_space c = false.
Proof.
  induction s as [|d s IH]; [discriminate |].
  cbn [rstrip]. destruct (rstrip s) as [|d' s'] eqn:E.
  - destruct (is_space d) eqn:Ed; [discriminate |].
    cbn. intros H. apply Ascii.eqb_eq in H. now subst.
  - exact IH.
Qed.

Lemma strip_starts c s : starts_with_char c (strip s) = true -> is_space c = false.
Proof. unfold strip. intros H. eapply lstrip_starts, rstrip_starts_inv, H. Qed.

Lemma strip_ends c s : ends_with_char c (strip s) = true -> is_space c = false.
Proof. unfold strip. apply rstrip_ends. Qed.

End StripFacts.

Section ExtractorExtras.
Import Str Py Chunker Extractor.

Lemma extracted_text_is_stripped_aux (read : pdf_read) :
  (forall c, starts_with_char c (extract_text_with_pdfplumber read) = true ->
             is_space c = false)
  /\ (forall c, ends_with_char c (extract_text_with_pdfplumber read) = true ->
                is_space c = false).
Proof.
  destruct read as [|pages]; cbn.
  - split; discriminate.
  - split; intros c H; [eapply strip_starts | eapply strip_ends]; exact H.
Qed.

(** X12: the text that either library gives is stripped: it neither
    begins nor ends with a white space character, and it is empty when the
    reading raised. *)
Theorem extracted_text_is_stripped (read : pdf_read) :
  let text := extract_text_with_pdfplumber read in
  extract_text_with_pypdf2 read = text
  /\ (forall c, starts_with_char c text = true -> is_space c = false)
  /\ (forall c, ends_with_char c text = true -> is_space c = false)
  /\ (read = ReadFailed -> text = "").
Proof.
  destruct read as [|pages]; cbn.
  - repeat split; discriminate.
  - split; [reflexivity |].
    split; [intros c H; eapply strip_starts; exact H |].
    split; [intros c H; eapply strip_ends; exact H | discriminate].
Qed.

Lemma extract_text_from_pdf_cases with_pdfplumber with_pypdf2 :
  let text := extract_text_from_pdf with_pdfplumber with_pypdf2 in
  (extract_text_with_pdfplumber with_pdfplumber <> ""
   /\ text = extract_text_with_pdfplumber with_pdfplumber)
  \/ (extract_text_with_pdfplumber with_pdfplumber = ""
      /\ extract_text_with_pypdf2 with_pypdf2 <> ""
      /\ text = extract_text_with_pypdf2 with_pypdf2)
  \/ (extract_text_with_pdfplumber with_pdfplumber = ""
      /\ extract_text_with_pypdf2 with_pypdf2 = ""
      /\ text = extraction_error).
Proof.
  cbn zeta. unfold extract_text_from_pdf.
  destruct (truthy (extract_text_with_pdfplumber with_pdfplumber)) eqn:E1; cbn [negb].
  - rewrite E1. cbn [negb]. left. split; [now apply truthy_true | reflexivity].
  - apply truthy_false in E1. right.
    destruct (truthy (extract_text_with_pypdf2 with_pypdf2)) eqn:E2; cbn [negb].
    + left. split; [exact E1 |]. split; [now apply truthy_true | reflexivity].
    + apply truthy_false in E2. right. now repeat split.
Qed.

Lemma extract_text_from_pdf_head with_pdfplumber with_pypdf2 :
  exists c rest,
    extract_text_from_pdf with_pdfplumber with_pypdf2 = String c rest
    /\ is_space c = false.
Proof.
  destruct (extract_text_from_pdf_cases with_pdfplumber with_pypdf2)
    as [[Hne ->] | [(_ & Hne & ->) | (_ & _ & ->)]].
  - destruct (extract_text_with_pdfplumber with_pdfplumber) as [|c rest] eqn:E;
      [congruence |].
    exists c, rest. split; [reflexivity |].
    destruct (extracted_text_is_stripped_aux with_pdfplumber) as [Hs _].
    apply Hs. rewrite E. cbn. apply Ascii.eqb_refl.
  - destruct (extract_text_with_pypdf2 with_pypdf2) as [|c rest] eqn:E;
      [congruence |].
    exists c, rest. split; [reflexivity |].
    destruct (extracted_text_is_stripped_aux with_pypdf2) as [Hs _].
    apply Hs. change (extract_text_with_pdfplumber with_pypdf2)
      with (extract_text_with_pypdf2 with_pypdf2). rewrite E. cbn. apply Ascii.eqb_refl.
  - eexists _, _. split; reflexivity.
Qed.

(** A text that begins with a character that is not white space has a
    first paragraph with content. *)
Lemma headed_text_first_paragraph c rest :
  is_space c = false ->
  exists p ps, split_blank (String c rest) = p :: ps /\ truthy p = true.
Proof.
  intros Hc. apply split_blank_first; [discriminate |].
  cbn [String.prefix blank_line].
  destruct (Ascii.ascii_dec LF c) as [<- | Hne]; [discriminate | reflexivity].
Qed.

Lemma headed_text_has_chunks c rest max_chunk_size :
  is_space c = false -> chunk_text (String c rest) max_chunk_size <> [].
Proof.
  intros Hc Hnil. apply chunk_paragraphs_nil_iff in Hnil.
  destruct (headed_text_first_paragraph c rest Hc) as (p & ps & Hsplit & Hp).
  rewrite Hsplit in Hnil. apply Forall_inv in Hnil. subst p. discriminate.
Qed.

Lemma headed_text_one_chunk c rest max_chunk_size :
  is_space c = false ->
  (len (String c rest) <= max_chunk_size)%Z ->
  chunk_text (String c rest) max_chunk_size = [String c rest].
Proof.
  intros Hc Hfit.
  destruct (headed_text_first_paragraph c rest Hc) as (p & ps & Hsplit & Hp).
  pose proof (join_split_blank (String c rest)) as Hjoin. rewrite Hsplit in Hjoin.
  unfold chunk_text, chunk_paragraphs. rewrite Hsplit.
  rewrite chunk_loop_cons, chunk_step_start.
  rewrite chunk_loop_fits; [| exact Hp | now rewrite Hjoin].
  rewrite Hjoin. reflexivity.
Qed.

(** X13: [extract_text_from_pdf] gives the text of the first library when
    it is not empty, else the text of the second when that is not empty,
    else the error message; what it gives is never empty and never begins
    with a white space character. *)
Theorem extract_text_from_pdf_never_empty (with_pdfplumber with_pypdf2 : pdf_read) :
  let text := extract_text_from_pdf with_pdfplumber with_pypdf2 in
  text <> ""
  /\ (forall c, starts_with_char c text = true -> is_space c = false)
  /\ (extract_text_with_pdfplumber with_pdfplumber <> "" ->
      text = extract_text_with_pdfplumber with_pdfplumber)
  /\ (extract_text_with_pdfplumber with_pdfplumber = "" ->
      extract_text_with_pypdf2 with_pypdf2 <> "" ->
      text = extract_text_with_pypdf2 with_pypdf2)
  /\ (extract_text_with_pdfplumber with_pdfplumber = "" ->
      extract_text_with_pypdf2 with_pypdf2 = "" ->
      text = extraction_error).
Proof.
  cbn zeta.
  destruct (extract_text_from_pdf_head with_pdfplumber with_pypdf2)
    as (c & rest & Htext & Hc).
  split; [rewrite Htext; discriminate |].
  split.
  { rewrite Htext. cbn. intros d Hd. apply Ascii.eqb_eq in Hd. now subst. }
  destruct (extract_text_from_pdf_cases with_pdfplumber with_pypdf2)
    as [[H1 H] | [(H1 & H2 & H) | (H1 & H2 & H)]]; cbn zeta in H;
    repeat split; intros; congruence.
Qed.

(** X14: the text extracted from a PDF always has a chunk, whatever the
    budget; and when it fits in the budget it is one chunk, the text
    itself. *)
Theorem extracted_text_chunks (with_pdfplumber with_pypdf2 : pdf_read)
    (max_chunk_size : Z) :
  let text := extract_text_from_pdf with_pdfplumber with_pypdf2 in
  chunk_text text max_chunk_size <> []
  /\ ((len text <= max_chunk_size)%Z -> chunk_text text max_chunk_size = [text]).
Proof.
  cbn zeta.
  destruct (extract_text_from_pdf_head with_pdfplumber with_pypdf2)
    as (c & rest & -> & Hc).
  split; [now apply headed_text_has_chunks | now apply headed_text_one_chunk].
Qed.

End ExtractorExtras.

(** ** The rendering *)

Section VisualizerExtras.
Import Str Py Comparer Visualizer.

Lemma replace_char_app old new s t :
  replace_char old new (s +:+ t) = replace_char old new s +:+ replace_char old new t.
Proof.
  induction s as [|c s IH]; [reflexivity |].
  rewrite append_cons. cbn [replace_char]. rewrite IH. now rewrite append_assoc.
Qed.

(** What a character of the text becomes. *)
Local Abbreviation piece :=
  (fun c : ascii =>
     if Ascii.eqb c "&" then "&amp;"
     else if Ascii.eqb c "<" then "&lt;"
     else if Ascii.eqb c ">" then "&gt;"
     else if Ascii.eqb c DQ then "&quot;"
     else if Ascii.eqb c "'" then "&#x27;"
     else if Ascii.eqb c LF then "<br>"
     else String c "").

Lemma display_text_char c : display_text (String c "") = piece c.
Proof.
  unfold display_text, html_escape. cbv beta.
  destruct (Ascii.eqb_spec c "&") as [-> | H1]; [reflexivity |].
  destruct (Ascii.eqb_spec c "<") as [-> | H2]; [reflexivity |].
  destruct (Ascii.eqb_spec c ">") as [-> | H3]; [reflexivity |].
  destruct (Ascii.eqb_spec c DQ) as [-> | H4]; [reflexivity |].
  destruct (Ascii.eqb_spec c "'") as [-> | H5]; [reflexivity |].
  destruct (Ascii.eqb_spec c LF) as [-> | H6]; [reflexivity |].
  cbn [replace_char].
  repeat (rewrite (proj2 (Ascii.eqb_neq _ _)) by assumption;
          rewrite ?append_cons, ?append_nil_l; cbn [replace_char]).
  reflexivity.
Qed.

Lemma display_text_app s t : display_text (s +:+ t) = display_text s +:+ display_text t.
Proof. unfold display_text, html_escape. now rewrite !replace_char_app. Qed.

Lemma display_text_cons c s :
  display_text (String c s) = piece c +:+ display_text s.
Proof.
  change (String c s) with (String c "" +:+ s).
  now rewrite display_text_app, display_text_char.
Qed.

Lemma find_char_ge x s : (-1 <= find_char x s)%Z.
Proof.
  induction s as [|d s IH]; cbn [find_char]; [lia |].
  destruct (Ascii.eqb d x); [lia |]. case_bool_decide; lia.
Qed.

Lemma find_char_app_absent x p s :
  find_char x p = (-1)%Z -> find_char x s = (-1)%Z ->
  find_char x (p +:+ s) = (-1)%Z.
Proof.
  intros Hp Hs. induction p as [|d p IH]; [exact Hs |].
  rewrite append_cons. cbn [find_char] in *.
  destruct (Ascii.eqb d x); [discriminate |].
  pose proof (find_char_ge x p).
  case_bool_decide as E; [| lia].
  rewrite IH by exact E. now rewrite bool_decide_eq_true_2.
Qed.

Lemma piece_clean x c :
  x = LF \/ x = DQ \/ x = "'"%char -> find_char x (piece c) = (-1)%Z.
Proof.
  intros Hx. cbv beta.
  destruct (Ascii.eqb_spec c "&") as [-> | H1];
    [destruct Hx as [-> | [-> | ->]]; reflexivity |].
  destruct (Ascii.eqb_spec c "<") as [-> | H2];
    [destruct Hx as [-> | [-> | ->]]; reflexivity |].
  destruct (Ascii.eqb_spec c ">") as [-> | H3];
    [destruct Hx as [-> | [-> | ->]]; reflexivity |].
  destruct (Ascii.eqb_spec c DQ) as [-> | H4];
    [destruct Hx as [-> | [-> | ->]]; reflexivity |].
  destruct (Ascii.eqb_spec c "'") as [-> | H5];
    [destruct Hx as [-> | [-> | ->]]; reflexivity |].
  destruct (Ascii.eqb_spec c LF) as [-> | H6];
    [destruct Hx as [-> | [-> | ->]]; reflexivity |].
  cbn [find_char].
  destruct Hx as [-> | [-> | ->]];
    now rewrite (proj2 (Ascii.eqb_neq _ _)) by assumption.
Qed.

(** X15: the text of a section is displayed character by character: the
    five characters that HTML reserves become their entities, once, a line
    feed becomes a line break tag, and any other character stays as it is.
    So the text displayed has no line feed and no quote of either kind. *)
Theorem display_text_by_character (text : string) :
  display_text text
  = foldr (fun c out => piece c +:+ out) "" (list_ascii_of_string text)
  /\ find_char LF (display_text text) = (-1)%Z
  /\ find_char DQ (display_text text) = (-1)%Z
  /\ find_char "'" (display_text text) = (-1)%Z.
Proof.
  induction text as [|c text (IH & I1 & I2 & I3)]; [repeat split |].
  rewrite display_text_cons. cbn [list_ascii_of_string foldr]. rewrite <- IH.
  split; [reflexivity |].
  repeat split; apply find_char_app_absent; auto using piece_clean.
Qed.

Lemma piece_prefix_free c d s t :
  piece c +:+ s = piece d +:+ t -> c = d /\ s = t.
Proof.
  cbv beta.
  destruct (Ascii.eqb_spec c "&") as [-> | C1];
  [| destruct (Ascii.eqb_spec c "<") as [-> | C2];
  [| destruct (Ascii.eqb_spec c ">") as [-> | C3];
  [| destruct (Ascii.eqb_spec c DQ) as [-> | C4];
  [| destruct (Ascii.eqb_spec c "'") as [-> | C5];
  [| destruct (Ascii.eqb_spec c LF) as [-> | C6]]]]]];
  (destruct (Ascii.eqb_spec d "&") as [-> | D1];
  [| destruct (Ascii.eqb_spec d "<") as [-> | D2];
  [| destruct (Ascii.eqb_spec d ">") as [-> | D3];
  [| destruct (Ascii.eqb_spec d DQ) as [-> | D4];
  [| destruct (Ascii.eqb_spec d "'") as [-> | D5];
  [| destruct (Ascii.eqb_spec d LF) as [-> | D6]]]]]]);
  rewrite ?append_cons, ?append_nil_l; intros H;
  simplify_eq; first [now split | congruence].
Qed.

(** X16: the display of a text loses nothing: two texts that are displayed
    alike are the same text. *)
Theorem display_text_injective (text1 text2 : string) :
  display_text text1 = display_text text2 -> text1 = text2.
Proof.
  revert text2. induction text1 as [|c s IH]; intros [|d t] H.
  - reflexivity.
  - exfalso. rewrite display_text_cons in H. cbv beta in H.
    change (display_text "") with ("" +:+ "") in H.
    destruct (Ascii.eqb d "&"), (Ascii.eqb d "<"), (Ascii.eqb d ">"),
      (Ascii.eqb d DQ), (Ascii.eqb d "'"), (Ascii.eqb d LF); discriminate H.
  - exfalso. rewrite display_text_cons in H. cbv beta in H.
    change (display_text "") with ("" +:+ "") in H.
    destruct (Ascii.eqb c "&"), (Ascii.eqb c "<"), (Ascii.eqb c ">"),
      (Ascii.eqb c DQ), (Ascii.eqb c "'"), (Ascii.eqb c LF); discriminate H.
  - rewrite !display_text_cons in H.
    apply piece_prefix_free in H as [-> H]. f_equal. now apply IH.
Qed.

Lemma generate_diff_html_fold sections out :
  foldl (fun html_output section => html_output +:+ section_html section) out sections
  = out +:+ foldr (fun section rest => section_html section +:+ rest) "" sections.
Proof.
  revert out. induction sections as [|s sections IH]; intros out; cbn [foldl foldr].
  - now rewrite append_empty_r.
  - now rewrite IH, append_assoc.
Qed.

(** The types that the renderer knows; a section without a type counts as
    unchanged. *)
Local Abbreviation known :=
  (fun section : RawSection =>
     In (get (raw_type section) "unchanged")
        ["unchanged"; "added"; "deleted"; "modified"]).

Lemma section_html_unknown section : ~ known section -> section_html section = "".
Proof.
  intros H. unfold section_html.
  destruct (String.eqb_spec (get (raw_type section) "unchanged") "unchanged") as [E|_];
    [exfalso; apply H; rewrite E; now left |].
  destruct (String.eqb_spec (get (raw_type section) "unchanged") "added") as [E|_];
    [exfalso; apply H; rewrite E; right; now left |].
  destruct (String.eqb_spec (get (raw_type section) "unchanged") "deleted") as [E|_];
    [exfalso; apply H; rewrite E; right; right; now left |].
  destruct (String.eqb_spec (get (raw_type section) "unchanged") "modified") as [E|_];
    [exfalso; apply H; rewrite E; right; right; right; now left |].
  reflexivity.
Qed.

(** X17: the page is the header, then what each section gives, in order,
    then the closing tag; a section whose type is not one of the four is
    left out without a trace, so that the page is the one of the sections
    of a known type. *)
Theorem generate_diff_html_skips_unknown_types
    (sections1 sections2 : list RawSection) (stray : RawSection) :
  ~ In (get (raw_type stray) "unchanged") ["unchanged"; "added"; "deleted"; "modified"] ->
  generate_diff_html (sections1 ++ stray :: sections2)
  = generate_diff_html (sections1 ++ sections2)
  /\ generate_diff_html (sections1 ++ sections2)
     = html_header
       +:+ foldr (fun section rest => section_html section +:+ rest) "" sections1
       +:+ foldr (fun section rest => section_html section +:+ rest) "" sections2
       +:+ "</div>".
Proof.
  intros Hstray. unfold generate_diff_html.
  rewrite !generate_diff_html_fold, !foldr_app. cbn [foldr].
  rewrite (section_html_unknown stray Hstray), append_nil_l.
  split; [reflexivity |].
  assert (Hfold : forall l (tail : string),
             foldr (fun section rest => section_html section +:+ rest) tail l
             = foldr (fun section rest => section_html section +:+ rest) "" l +:+ tail).
  { induction l as [|x l IH]; intros tail; cbn [foldr]; [reflexivity |].
    now rewrite IH, append_assoc. }
  rewrite (Hfold sections1 (foldr _ "" sections2)).
  now rewrite !append_assoc.
Qed.

End VisualizerExtras.

(** ** The calls to the model *)

Section SliceFacts.
Import Str Py.

Lemma rfind_char_ge x s : (-1 <= rfind_char x s)%Z.
Proof.
  induction s as [|d s IH]; cbn [rfind_char]; [lia |].
  case_bool_decide; [destruct (Ascii.eqb d x) |]; lia.
Qed.

Lemma len_cons c s : len (String c s) = (len s + 1)%Z.
Proof. unfold len. cbn [String.length]. lia. Qed.

Lemma find_char_app_first c pre rest :
  find_char c pre = (-1)%Z -> find_char c (pre +:+ String c rest) = len pre.
Proof.
  induction pre as [|d pre IH]; intros Hpre.
  - rewrite append_nil_l. cbn [find_char]. now rewrite Ascii.eqb_refl.
  - rewrite append_cons, len_cons. cbn [find_char] in *.
    destruct (Ascii.eqb d c); [discriminate |].
    pose proof (find_char_ge c pre).
    case_bool_decide as E; [| lia].
    rewrite IH by exact E. pose proof (len_nonneg pre).
    now rewrite bool_decide_eq_false_2 by lia.
Qed.

Lemma rfind_char_app_last c s post :
  rfind_char c post = (-1)%Z -> rfind_char c (s +:+ String c post) = len s.
Proof.
  intros Hpost. induction s as [|d s IH].
  - rewrite append_nil_l. cbn [rfind_char]. rewrite Hpost.
    rewrite bool_decide_eq_true_2 by reflexivity. now rewrite Ascii.eqb_refl.
  - rewrite append_cons, len_cons. cbn [rfind_char]. rewrite IH.
    pose proof (len_nonneg s). now rewrite bool_decide_eq_false_2 by lia.
Qed.

Lemma find_absent_rfind c s : find_char c s = (-1)%Z -> rfind_char c s = (-1)%Z.
Proof.
  induction s as [|d s IH]; [easy |].
  cbn [find_char rfind_char]. pose proof (find_char_ge c s).
  destruct (Ascii.eqb d c); [discriminate |].
  case_bool_decide as E; [| lia].
  intros _. now rewrite IH, bool_decide_eq_true_2.
Qed.

Lemma drop_chars_app pre s : drop_chars (String.length pre) (pre +:+ s) = s.
Proof. induction pre as [|d pre IH]; [now destruct s | exact IH]. Qed.

Lemma slice_to_app s t : slice_to (String.length s) (s +:+ t) = s.
Proof.
  induction s as [|d s IH]; [now destruct t |].
  rewrite append_cons. cbn [String.length slice_to]. now rewrite IH.
Qed.

(** The slice between two positions inside the string. *)
Lemma slice_middle pre mid post :
  slice (len pre) (len pre + len mid) (pre +:+ mid +:+ post) = mid.
Proof.
  unfold slice, slice_bound.
  pose proof (len_nonneg pre). pose proof (len_nonneg mid). pose proof (len_nonneg post).
  rewrite !len_append.
  rewrite !bool_decide_eq_false_2 by lia.
  rewrite !Z.min_l by lia.
  replace (len pre + len mid - len pre)%Z with (len mid) by lia.
  unfold len. rewrite !Nat2Z.id.
  now rewrite drop_chars_app, slice_to_app.
Qed.

End SliceFacts.

Section GeminiExtras.
Import Str Py Run Comparer Gemini.

Variable json_loads : string -> option ChunkResult.
Variable json_dumps : ChunkResult -> string.

Local Abbreviation call := (call_gemini_api json_loads).
Local Abbreviation load := (call_and_load json_loads json_dumps).

Lemma andb_assoc_test (a b c : bool) : b && c = false -> a && b && c = false.
Proof. destruct a, b, c; easy. Qed.

(** X18: when the text of the response is not a JSON object as it stands
    but holds one between its first opening brace and its last closing
    brace, that part, and nothing around it, is what [call_gemini_api]
    returns and what [compare_chunk] then parses. *)
Theorem call_gemini_api_cuts_out_the_object
    (api_key : option string) (r : response) (before inside after : string)
    (result_json : ChunkResult) :
  no_key api_key = false ->
  candidates r = true ->
  let cleaned_json := String "{" (inside +:+ "}") in
  text r = TextIs (before +:+ cleaned_json +:+ after) ->
  find_char "{" before = (-1)%Z ->
  find_char "}" after = (-1)%Z ->
  starts_with_char "{" (strip (before +:+ cleaned_json +:+ after))
  && ends_with_char "}" (strip (before +:+ cleaned_json +:+ after)) = false ->
  json_loads cleaned_json = Some result_json ->
  call api_key (Responded r) = inr (Verbatim cleaned_json)
  /\ load api_key (Responded r) = Parsed cleaned_json result_json.
Proof.
  intros Hkey Hcand cleaned Htext Hbefore Hafter Htest Hloads.
  assert (Hcall : call api_key (Responded r) = inr (Verbatim cleaned)).
  { unfold call_gemini_api. rewrite Hkey, Hcand, Htext. cbn [negb].
    rewrite andb_assoc_test by exact Htest.
    assert (Ht : truthy (before +:+ cleaned +:+ after) = true).
    { destruct before; reflexivity. }
    rewrite Ht.
    assert (Hstart : find_char "{" (before +:+ cleaned +:+ after) = len before).
    { unfold cleaned. rewrite append_cons. now apply find_char_app_first. }
    assert (Hend : rfind_char "}" (before +:+ cleaned +:+ after)
                   = (len before + len cleaned - 1)%Z).
    { replace (before +:+ cleaned +:+ after)
        with ((before +:+ String "{" inside) +:+ String "}" after).
      - rewrite rfind_char_app_last by now apply find_absent_rfind.
        unfold cleaned. rewrite !len_append, !len_cons, len_append.
        change (len "}") with 1%Z. lia.
      - unfold cleaned. rewrite !append_assoc, !append_cons, !append_assoc.
        now rewrite append_cons, append_nil_l. }
    rewrite Hstart, Hend.
    pose proof (len_nonneg before). pose proof (len_nonneg cleaned).
    rewrite !bool_decide_eq_false_2 by lia. cbn [negb andb].
    replace (len before + len cleaned - 1 + 1)%Z with (len before + len cleaned)%Z by lia.
    rewrite slice_middle, Hloads. reflexivity. }
  split; [exact Hcall |].
  unfold call_and_load. now rewrite Hcall, Hloads.
Qed.

Lemma find_absent_strip_start c t :
  find_char c t = (-1)%Z -> starts_with_char c (strip t) = false.
Proof.
  intros Habsent. destruct (starts_with_char c (strip t)) eqn:E; [| reflexivity].
  exfalso. unfold strip in E. apply rstrip_starts_inv in E.
  induction t as [|d t IH]; [discriminate |].
  cbn [find_char] in Habsent. cbn [lstrip] in E.
  destruct (Ascii.eqb d c) eqn:Edc; [discriminate |].
  pose proof (find_char_ge c t).
  case_bool_decide as Ht; [| lia].
  destruct (is_space d); [now apply IH |].
  cbn [starts_with_char] in E. congruence.
Qed.

(** X19: for a response that has candidates and a text, the error
    "Could not extract JSON object from Gemini response" is what
    [call_gemini_api] returns exactly when the text is not empty and holds
    no opening brace; a missing closing brace never leads to it, since the
    test on [json_end] compares [rfind + 1] with -1. *)
Theorem cannot_extract_iff_no_opening_brace
    (api_key : option string) (r : response) (response_text : string) :
  no_key api_key = false ->
  candidates r = true ->
  text r = TextIs response_text ->
  call api_key (Responded r)
  = inr (Dumped (error_result "Could not extract JSON object from Gemini response"
                   (Some response_text)
                   "Error: Could not extract JSON object from API response."))
  <-> response_text <> "" /\ find_char "{" response_text = (-1)%Z.
Proof.
  intros Hkey Hcand Htext. unfold call_gemini_api.
  rewrite Hkey, Hcand, Htext. cbn [negb].
  pose proof (rfind_char_ge "}" response_text) as Hend.
  split.
  - intros Hcall.
    destruct (truthy response_text) eqn:Et; cbn [andb] in Hcall.
    + split; [now apply truthy_true |].
      destruct (starts_with_char "{" (strip response_text)
                && ends_with_char "}" (strip response_text)); [discriminate |].
      rewrite (bool_decide_eq_false_2 (rfind_char "}" response_text + 1 = -1)%Z)
        in Hcall by lia.
      case_bool_decide as Estart; [exact Estart |].
      cbn [negb andb] in Hcall.
      destruct (json_loads _); discriminate.
    + discriminate.
  - intros [Hne Habsent].
    assert (Et : truthy response_text = true) by (now destruct response_text).
    rewrite Et, (find_absent_strip_start _ _ Habsent), Habsent. cbn [andb].
    now rewrite bool_decide_eq_true_2.
Qed.

(** X20: whatever the service does, [compare_chunk] either works on an
    object that [json.loads] read in the text returned by
    [call_gemini_api], or returns a failure that carries an error, no
    section and counts all zero: a missing key, a blocked call, an empty
    text, an exception of the service, a text without a JSON object and a
    text that does not decode all end there. *)
Theorem compare_chunk_failures_are_neutral
    (api_key : option string) (outcome : generate_outcome) :
  let chunk_result := classify (load api_key outcome) in
  (exists response_json_str result_json,
      call api_key outcome = inr (Verbatim response_json_str)
      /\ json_loads response_json_str = Some result_json
      /\ chunk_result = classify (Parsed response_json_str result_json))
  \/ (exists error_message,
        error chunk_result = Some error_message
        /\ diff_sections chunk_result = Some []
        /\ Comparer.summary chunk_result = Some zero_counts).
Proof.
  cbn zeta. unfold call_and_load.
  destruct (call api_key outcome) as [e | [s | d]] eqn:Ecall.
  - right. eexists. now repeat split.
  - destruct (json_loads s) as [obj|] eqn:Eloads.
    + left. now exists s, obj.
    + right. eexists. now repeat split.
  - right.
    assert (Hd : exists err raw detail, d = error_result err raw detail).
    { unfold call_gemini_api in Ecall.
      destruct (no_key api_key); [discriminate |].
      injection Ecall as Ecall.
      destruct outcome as [r | e | e].
      - destruct (candidates r); cbn [negb] in Ecall;
          [| injection Ecall as <-; now eexists _, _, _].
        destruct (text r) as [t | e]; [| injection Ecall as <-; now eexists _, _, _].
        destruct (truthy t && starts_with_char "{" (strip t)
                  && ends_with_char "}" (strip t)); [discriminate |].
        destruct (truthy t); [| injection Ecall as <-; now eexists _, _, _].
        destruct (negb _ && negb _);
          [| injection Ecall as <-; now eexists _, _, _].
        destruct (json_loads _); [discriminate |].
        injection Ecall as <-. now eexists _, _, _.
      - injection Ecall as <-. now eexists _, _, _.
      - injection Ecall as <-. now eexists _, _, _. }
    destruct Hd as (err & raw & detail & ->).
    exists err. now repeat split.
Qed.

End GeminiExtras.

(** ** The page *)

Section AppExtras.
Import Str Py Chunker Run Comparer Extractor.

Variable json_loads : string -> option ChunkResult.
Variable json_dumps : ChunkResult -> string.
Variable api_key : option string.
Variable generate_json : nat -> string -> string -> Gemini.generate_outcome.
Variable generate_text : string -> Gemini.generate_outcome.

Local Abbreviation compare_call :=
  (App.compare_call json_loads json_dumps api_key generate_json).
Local Abbreviation synthesis_call := (App.synthesis_call api_key generate_text).
Local Abbreviation main :=
  (App.main json_loads json_dumps api_key generate_json generate_text).

(** The narrative of the final step is never empty. *)
Lemma final_synthesis_truthy (call_gemini_for_text : string -> text_reply) acc events final :
  final_synthesis call_gemini_for_text acc = (events, inr final) ->
  truthy final = true.
Proof.
  rewrite final_synthesis_text. intros H. injection H as _ <-.
  apply truthy_append_r.
  destruct (is_empty (all_chunk_summaries_raw _)); [reflexivity |].
  destruct (call_gemini_for_text _) as [text | e]; [| reflexivity].
  destruct (truthy text) eqn:Et; [exact Et | reflexivity].
Qed.

(** The run that [main] makes: both texts have chunks, so the run goes
    through the loops and the final step. *)
Lemma main_run (pdf1 pdf2 : pdf_read * pdf_read) :
  let text1 := extract_text_from_pdf pdf1.1 pdf1.2 in
  let text2 := extract_text_from_pdf pdf2.1 pdf2.2 in
  let chunks1 := chunk_text text1 6500 in
  let chunks2 := chunk_text text2 6500 in
  let acc := final_acc compare_call chunks1 chunks2 in
  exists final,
    final_synthesis synthesis_call acc = (synthesis_events acc, inr final)
    /\ App.compare_texts json_loads json_dumps api_key generate_json generate_text
         text1 text2 App.default_max_chunk_size
       = ([ChunkTextCalled text1 6500; ChunkTextCalled text2 6500]
            ++ pair_events chunks1 chunks2 ++ synthesis_events acc,
          inr (aggregate_result (length chunks1) (length chunks2) acc final))
    /\ chunks1 <> [] /\ chunks2 <> [].
Proof.
  intros text1 text2 chunks1 chunks2 acc.
  assert (H1 : chunks1 <> []).
  { unfold chunks1, text1.
    destruct (extract_text_from_pdf_head pdf1.1 pdf1.2) as (c & rest & -> & Hc).
    now apply headed_text_has_chunks. }
  assert (H2 : chunks2 <> []).
  { unfold chunks2, text2.
    destruct (extract_text_from_pdf_head pdf2.1 pdf2.2) as (c & rest & -> & Hc).
    now apply headed_text_has_chunks. }
  assert (Hpos : (0 < App.default_max_chunk_size - prompt_overhead_estimate)%Z)
    by reflexivity.
  destruct (compare_texts_runs compare_call synthesis_call text1 text2
              App.default_max_chunk_size Hpos (or_introl H1)) as [final Hrun].
  destruct (compare_texts_narrative compare_call synthesis_call text1 text2
              App.default_max_chunk_size Hpos (or_introl H1) _ _ Hrun) as [Hfinal _].
  exists final. split; [exact Hfinal |]. split; [exact Hrun |]. now split.
Qed.

(** What the page shows for the result of such a run. *)
Lemma display_aggregate_result n1 n2 acc final :
  truthy final = true ->
  App.display (aggregate_result n1 n2 acc final)
  = [App.Success "Comparison completed!";
     App.Subheader "Summary of Changes";
     App.Line ("Additions: " +:+ pretty (total_additions acc));
     App.Line ("Deletions: " +:+ pretty (total_deletions acc));
     App.Line ("Modifications: " +:+ pretty (total_modifications acc));
     App.Subheader "Change Analysis";
     App.Line final]
    ++ (if is_empty (all_diff_sections acc)
        then [App.Warning "Difference sections not available for visualization."]
        else [App.Subheader "Visualized Differences";
              App.Html (Visualizer.generate_diff_html
                          (map Visualizer.raw_of (all_diff_sections acc)))]).
Proof.
  intros Hfinal. unfold App.display, App.count_line.
  destruct (aggregate_result_summary n1 n2 acc final) as (S1 & S2 & S3 & _ & _).
  cbn zeta in *. rewrite S1, S2, S3.
  rewrite bool_decide_eq_false_2.
  - cbn [aggregate_result out_detailed_summary out_diff_sections].
    rewrite Hfinal. reflexivity.
  - intros Hempty. rewrite Hempty in S1. discriminate.
Qed.

(** X21: for replies of the types that the prompt prescribes.  Whatever
    the two files hold, and whatever the service does among the outcomes of
    [generate_outcome] with [json.loads] reading objects whose counts are
    integers, whose sections are a list of sections with string fields and
    whose narrative is a string, the handler ends without an exception and
    with the success banner; it shows the three counts as numbers, never
    as N/A, and an analysis that is not empty; it made at least one
    comparison; and it ends with the rendered sections, or with the warning
    that there is none.  An object that [compare_chunk] accepts with a
    count of another type makes the addition to the totals raise; such
    replies are not replies of this model. *)
Theorem main_shows_counts_and_analysis (pdf1 pdf2 : pdf_read * pdf_read) :
  exists trace (n_additions n_deletions n_modifications : Z) narrative rest chunk1 chunk2,
    main pdf1 pdf2
    = ([App.Info "Extracting text from PDFs...";
        App.Info "Analyzing differences with Gemini...";
        App.Success "Comparison completed!";
        App.Subheader "Summary of Changes";
        App.Line ("Additions: " +:+ pretty n_additions);
        App.Line ("Deletions: " +:+ pretty n_deletions);
        App.Line ("Modifications: " +:+ pretty n_modifications);
        App.Subheader "Change Analysis";
        App.Line narrative] ++ rest,
       trace, None)
    /\ narrative <> ""
    /\ In (CompareChunkCalled 0 chunk1 chunk2) trace
    /\ (rest = [App.Warning "Difference sections not available for visualization."]
        \/ exists html, rest = [App.Subheader "Visualized Differences"; App.Html html]).
Proof.
  destruct (main_run pdf1 pdf2) as (final & Hfinal & Hrun & H1 & H2).
  cbn zeta in *. unfold App.main. rewrite Hrun.
  apply final_synthesis_truthy in Hfinal.
  rewrite (display_aggregate_result _ _ _ _ Hfinal).
  destruct (chunk_text (extract_text_from_pdf pdf1.1 pdf1.2) 6500)
    as [|chunk1 chunks1] eqn:E1; [congruence |].
  destruct (chunk_text (extract_text_from_pdf pdf2.1 pdf2.2) 6500)
    as [|chunk2 chunks2] eqn:E2; [congruence |].
  eexists _, _, _, _, final, _, chunk1, chunk2.
  split; [reflexivity |].
  split; [now apply truthy_true |].
  split; [right; right; left; reflexivity |].
  destruct (is_empty _); [now left | right; now eexists].
Qed.

(** Without a key every comparison fails in the same way. *)
Local Abbreviation key_message :=
  "Google API key not found. Please set the GOOGLE_API_KEY environment variable.".

Lemma compare_call_without_key i text1 text2 :
  Gemini.no_key api_key = true ->
  classify (compare_call i text1 text2)
  = error_result ("Unexpected error: " +:+ key_message) None
      ("Unexpected Error during chunk comparison: " +:+ key_message).
Proof.
  intros Hkey. unfold App.compare_call, Gemini.call_and_load, Gemini.call_gemini_api.
  now rewrite Hkey.
Qed.

Lemma pair_results_without_key chunks1 chunks2 :
  Gemini.no_key api_key = true ->
  Forall (fun r => error r = Some ("Unexpected error: " +:+ key_message))
    (pair_results compare_call chunks1 chunks2).
Proof.
  intros Hkey. unfold pair_results. generalize (aligned_pairs chunks1 chunks2).
  generalize 0. intros i l. revert i.
  induction l as [|pair l IH]; intros i; cbn [map_indexed]; constructor.
  - now rewrite compare_call_without_key.
  - apply IH.
Qed.

Lemma map_indexed_compose {A B C} (f : nat -> B -> C) (g : nat -> A -> B) i l :
  map_indexed f i (map_indexed g i l) = map_indexed (fun j x => f j (g j x)) i l.
Proof. revert i. induction l as [|x l IH]; intros i; cbn; [reflexivity | now rewrite IH]. Qed.

Lemma all_failed_filters (error_message : string) rs :
  Forall (fun r => error r = Some error_message) rs ->
  filter (fun r => error r = None) rs = []
  /\ filter (fun r => error r <> None) rs = rs.
Proof.
  induction 1 as [|r rs Hr _ [IH1 IH2]]; [now split |].
  rewrite filter_cons_False by (rewrite Hr; congruence).
  rewrite filter_cons_True by (rewrite Hr; congruence).
  now rewrite IH1, IH2.
Qed.

Lemma all_failed_errors (error_message : string) i rs :
  Forall (fun r => error r = Some error_message) rs ->
  concat (map_indexed
            (fun i r =>
               match error r with
               | Some error_message =>
                   ["Chunk " +:+ pretty (i + 1) +:+ ": " +:+ error_message]
               | None => []
               end) i rs)
  = map_indexed (fun i _ => "Chunk " +:+ pretty (i + 1) +:+ ": " +:+ error_message) i rs.
Proof.
  intros H. revert i. induction H as [|r rs Hr _ IH]; intros i; [reflexivity |].
  cbn [map_indexed concat]. now rewrite Hr, IH.
Qed.

(** X22: without an API key the handler still ends with the success
    banner.  Every aligned pair fails with the message of the missing key,
    so the counts shown are those of the leftover chunks alone and no
    modification; the analysis is the note on the errors followed by the
    raw narratives, since the synthesis gives no text; and the error
    markers are rendered as sections. *)
Theorem main_without_key (pdf1 pdf2 : pdf_read * pdf_read) :
  Gemini.no_key api_key = true ->
  let chunks1 := chunk_text (extract_text_from_pdf pdf1.1 pdf1.2) 6500 in
  let chunks2 := chunk_text (extract_text_from_pdf pdf2.1 pdf2.2) 6500 in
  let acc := final_acc compare_call chunks1 chunks2 in
  exists trace html,
    main pdf1 pdf2
    = ([App.Info "Extracting text from PDFs...";
        App.Info "Analyzing differences with Gemini...";
        App.Success "Comparison completed!";
        App.Subheader "Summary of Changes";
        App.Line ("Additions: " +:+ pretty (Z.of_nat (length chunks2 - length chunks1)));
        App.Line ("Deletions: " +:+ pretty (Z.of_nat (length chunks1 - length chunks2)));
        App.Line "Modifications: 0";
        App.Subheader "Change Analysis";
        App.Line (error_prefix (chunk_errors acc)
                  +:+ "Synthesis Failed. Raw Chunk Summaries:"
                  +:+ summaries_separator +:+ synthesis_input acc);
        App.Subheader "Visualized Differences";
        App.Html html],
       trace, None)
    /\ chunk_errors acc
       = map_indexed
           (fun i _ => "Chunk " +:+ pretty (i + 1) +:+ ": Unexpected error: "
                       +:+ key_message)
           0 (aligned_pairs chunks1 chunks2).
Proof.
  intros Hkey chunks1 chunks2 acc.
  destruct (main_run pdf1 pdf2) as (final & Hfinal & Hrun & H1 & H2).
  cbn zeta in *. fold chunks1 chunks2 acc in Hfinal, Hrun, H1, H2.
  pose proof (pair_results_without_key chunks1 chunks2 Hkey) as Hall.
  set (message := "Unexpected error: " +:+ key_message) in *.
  assert (Herrors : chunk_errors acc
                    = map_indexed
                        (fun i _ => "Chunk " +:+ pretty (i + 1) +:+ ": " +:+ message)
                        0 (aligned_pairs chunks1 chunks2)).
  { unfold acc. rewrite final_acc_errors.
    rewrite (all_failed_errors message 0 _ Hall).
    unfold pair_results. now rewrite map_indexed_compose. }
  assert (Hpairs : aligned_pairs chunks1 chunks2 <> []).
  { unfold aligned_pairs. destruct chunks1; [congruence |].
    destruct chunks2; [congruence | discriminate]. }
  assert (Hsome_errors : is_empty (chunk_errors acc) = false).
  { rewrite Herrors. destruct (aligned_pairs chunks1 chunks2); [congruence | reflexivity]. }
  assert (Hresults : pair_results compare_call chunks1 chunks2 <> []).
  { unfold pair_results. destruct (aligned_pairs chunks1 chunks2); [congruence | discriminate]. }
  assert (Hsome_summaries : is_empty (all_chunk_summaries_raw acc) = false).
  { unfold acc. rewrite final_acc_summaries, pair_narratives.
    destruct (pair_results compare_call chunks1 chunks2) as [|r rs] eqn:Ers; [congruence |].
    apply Forall_inv in Hall. cbn [map_indexed concat]. rewrite Hall. reflexivity. }
  assert (Hsome_sections : is_empty (all_diff_sections acc) = false).
  { unfold acc, final_acc.
    destruct (with_leftover_fields chunks1 chunks2
                (fold_indexed process_pair 0 (pair_results compare_call chunks1 chunks2)
                   acc_init)) as (L1 & _).
    cbn zeta in L1. rewrite L1, pairs_fold_init, pairs_sections.
    destruct (pair_results compare_call chunks1 chunks2) as [|r rs] eqn:Ers; [congruence |].
    apply Forall_inv in Hall. cbn [map_indexed concat]. rewrite Hall. reflexivity. }
  assert (Htotals : total_additions acc = Z.of_nat (length chunks2 - length chunks1)
                    /\ total_deletions acc = Z.of_nat (length chunks1 - length chunks2)
                    /\ total_modifications acc = 0%Z).
  { unfold acc, final_acc.
    destruct (with_leftover_fields chunks1 chunks2
                (fold_indexed process_pair 0 (pair_results compare_call chunks1 chunks2)
                   acc_init)) as (_ & L2 & L3 & L4 & _).
    cbn zeta in *. rewrite L2, L3, L4, pairs_fold_init.
    destruct (pairs_totals 0 (pair_results compare_call chunks1 chunks2))
      as (P1 & P2 & P3 & _).
    cbn zeta in *. rewrite P1, P2, P3.
    destruct (all_failed_filters message _ Hall) as [-> _]. cbn. repeat split; lia. }
  destruct Htotals as (T1 & T2 & T3).
  assert (Hnarrative :
            final = error_prefix (chunk_errors acc)
                    +:+ "Synthesis Failed. Raw Chunk Summaries:"
                    +:+ summaries_separator +:+ synthesis_input acc).
  { rewrite final_synthesis_text in Hfinal. injection Hfinal as Hfinal.
    rewrite Hsome_errors, Hsome_summaries in Hfinal.
    unfold App.synthesis_call, Gemini.call_gemini_for_text in Hfinal.
    rewrite Hkey in Hfinal. cbn [truthy] in Hfinal. now rewrite <- Hfinal. }
  unfold App.main. rewrite Hrun.
  rewrite display_aggregate_result
    by (eapply final_synthesis_truthy; exact Hfinal).
  fold acc. rewrite Hsome_sections, T1, T2, T3, <- Hnarrative.
  eexists _, _. split; [reflexivity |].
  exact Herrors.
Qed.


End AppExtras.

(** * Further runs on the sample documents *)

Section FurtherWitnesses.
Import Str Py Chunker Run Comparer Examples.

Lemma chunk_text_budget_slack_witness :
  In "aaa" (split_blank ("aaa" +:+ blank_line +:+ "bb"))
  /\ (In ("aaa" +:+ blank_line +:+ "bb") (split_blank ("aaa" +:+ blank_line +:+ "bb"))
      \/ (len ("aaa" +:+ blank_line +:+ "bb") <= 5 + 2)%Z).
Proof.
  split; [vm_compute; now left |].
  apply (chunk_text_budget_slack ("aaa" +:+ blank_line +:+ "bb") 5).
  vm_compute. now left.
Defined.

Lemma run_totals_witness :
  exists trace result,
    compare_texts second_call_fails no_narrative three_paragraphs five_paragraphs 1501
    = (trace, inr result)
    /\ out_summary result !! "additions" = Some 6%Z
    /\ out_summary result !! "deletions" = Some 2%Z
    /\ out_summary result !! "modifications" = Some 2%Z
    /\ out_summary result !! "chunk_errors" = Some 1%Z.
Proof.
  destruct (run_totals second_call_fails no_narrative three_paragraphs five_paragraphs
              1501 eq_refl ltac:(left; vm_compute; discriminate))
    as (trace & result & Hrun & A & D & M & E).
  exists trace, result. split; [exact Hrun |].
  rewrite A, D, M, E. vm_compute. repeat split.
Defined.

Lemma run_sections_witness :
  exists trace result,
    compare_texts second_call_fails no_narrative three_paragraphs five_paragraphs 1501
    = (trace, inr result)
    /\ out_diff_sections result
       = [ {| ds_type := "modified"; ds_text := "a"; ds_original := Some "old" |};
           section "unchanged"
             (blank_line
              +:+ "[ERROR PROCESSING CHUNK 2: Invalid response format from Gemini, failed JSON decoding]"
              +:+ blank_line);
           {| ds_type := "modified"; ds_text := "c"; ds_original := Some "old" |};
           section "added" "d";
           section "added" "e" ].
Proof.
  destruct (run_sections second_call_fails no_narrative three_paragraphs five_paragraphs
              1501 eq_refl ltac:(left; vm_compute; discriminate))
    as (trace & result & Hrun & Hsections & _).
  exists trace, result. split; [exact Hrun |].
  etransitivity; [exact Hsections | vm_compute; reflexivity].
Defined.

Lemma run_chunk_counts_witness :
  exists trace result,
    compare_texts second_call_fails no_narrative three_paragraphs five_paragraphs 1501
    = (trace, inr result)
    /\ length (filter (fun ev => is_comparison ev = true) trace) = 3
    /\ out_summary result !! "chunks_processed" = Some 3%Z
    /\ out_summary result !! "chunks_added" = Some 2%Z
    /\ out_summary result !! "chunks_deleted" = Some 0%Z.
Proof.
  destruct (run_chunk_counts second_call_fails no_narrative three_paragraphs
              five_paragraphs 1501 eq_refl ltac:(left; vm_compute; discriminate))
    as (trace & result & Hrun & Hcalls & P & A & D & _).
  exists trace, result. split; [exact Hrun |].
  rewrite Hcalls, P, A, D. vm_compute. repeat split.
Defined.

Lemma run_narrative_not_empty_witness :
  exists trace result,
    compare_texts always_succeeds no_narrative "a" "b" 8000 = (trace, inr result)
    /\ out_detailed_summary result <> "".
Proof.
  destruct (compare_texts always_succeeds no_narrative "a" "b" 8000)
    as [trace [e | result]] eqn:E.
  - exfalso. vm_compute in E. discriminate.
  - exists trace, result. split; [reflexivity |].
    exact (run_narrative_not_empty always_succeeds no_narrative "a" "b" 8000
             trace result E).
Defined.

Lemma run_narrative_error_note_witness :
  exists trace result body,
    compare_texts second_call_fails no_narrative three_paragraphs five_paragraphs 1501
    = (trace, inr result)
    /\ body <> ""
    /\ out_detailed_summary result
       = "**Note:** Errors occurred during the processing of 1 chunk(s). The comparison or summary below might be incomplete or inaccurate in affected areas."
         +:+ String LF "Error Details:" +:+ String LF "- "
         +:+ "Chunk 2: Invalid response format from Gemini, failed JSON decoding"
         +:+ blank_line +:+ "---" +:+ blank_line +:+ body.
Proof.
  destruct (compare_texts second_call_fails no_narrative three_paragraphs
              five_paragraphs 1501) as [trace [e | result]] eqn:E.
  - exfalso. vm_compute in E. discriminate.
  - destruct (run_narrative_error_note second_call_fails no_narrative
                three_paragraphs five_paragraphs 1501 trace result E
                ltac:(left; vm_compute; discriminate))
      as (_ & Hbody & Hnote & _).
    exists trace, result. eexists. split; [reflexivity |]. split; [exact Hbody |].
    etransitivity; [apply Hnote; vm_compute; discriminate |].
    reflexivity.
Defined.

Lemma run_narrative_synthesis_witness :
  exists trace result prompt,
    compare_texts always_succeeds (fun _ => Text "All three parts changed.")
      three_paragraphs three_paragraphs 1501
    = (trace, inr result)
    /\ In (SynthesisCalled prompt) trace
    /\ out_detailed_summary result = "All three parts changed.".
Proof.
  destruct (compare_texts always_succeeds (fun _ => Text "All three parts changed.")
              three_paragraphs three_paragraphs 1501)
    as [trace [e | result]] eqn:E.
  - exfalso. vm_compute in E. discriminate.
  - destruct (run_narrative_synthesis always_succeeds
                (fun _ => Text "All three parts changed.")
                three_paragraphs three_paragraphs 1501 trace result E
                ltac:(vm_compute; discriminate))
      as (Hcall & Htext & _).
    exists trace, result. eexists. split; [reflexivity |].
    split; [exact Hcall |].
    apply (Htext "All three parts changed." eq_refl ltac:(discriminate)).
    vm_compute. repeat constructor.
Defined.

Lemma run_without_narratives_witness :
  exists result,
    compare_texts Samples.always_quiet no_narrative "a" "b" 1501
    = ([ChunkTextCalled "a" 1; ChunkTextCalled "b" 1; CompareChunkCalled 0 "a" "b"],
       inr result)
    /\ out_detailed_summary result
       = "No specific changes were identified or summarized during chunk processing.".
Proof.
  apply (run_without_narratives Samples.always_quiet no_narrative "a" "b" 1501 eq_refl).
  - vm_compute. discriminate.
  - reflexivity.
  - vm_compute. constructor; [split; [reflexivity | right; reflexivity] | constructor].
Defined.

Lemma run_with_one_empty_document_witness :
  exists prompt result,
    compare_texts always_succeeds no_narrative "" three_paragraphs 1501
    = ([ChunkTextCalled "" 1; ChunkTextCalled three_paragraphs 1; SynthesisCalled prompt],
       inr result)
    /\ out_diff_sections result = map (section "added") ["a"; "b"; "c"]
    /\ out_summary result !! "additions" = Some 3%Z.
Proof.
  destruct (proj1 (run_with_one_empty_document always_succeeds no_narrative
                     "" three_paragraphs 1501 eq_refl)
              eq_refl ltac:(vm_compute; discriminate))
    as (prompt & result & Hrun & Hsections & Hadditions & _).
  exists prompt, result. split; [exact Hrun |].
  split; [exact Hsections | exact Hadditions].
Defined.

Lemma run_on_empty_documents_witness :
  compare_texts always_succeeds no_narrative "" blank_line 8000
  = ([ChunkTextCalled "" 6500; ChunkTextCalled blank_line 6500], inr empty_result).
Proof.
  apply (proj1 (run_on_empty_documents always_succeeds no_narrative "" blank_line
                  8000 eq_refl)).
  split; vm_compute; repeat constructor.
Defined.

Lemma display_text_injective_witness :
  Visualizer.display_text ("a<b" +:+ String LF "c") = "a&lt;b<br>c"
  /\ Visualizer.display_text ("a<" +:+ "b" +:+ String LF "c") = "a&lt;b<br>c"
  /\ "a<b" +:+ String LF "c" = "a<" +:+ "b" +:+ String LF "c".
Proof.
  split; [reflexivity |]. split; [reflexivity |].
  apply (display_text_injective
           ("a<b" +:+ String LF "c") ("a<" +:+ "b" +:+ String LF "c")).
  reflexivity.
Defined.

Lemma generate_diff_html_skips_unknown_types_witness :
  Visualizer.generate_diff_html
    [Visualizer.raw_of (section "added" "a"); Samples.moved;
     Visualizer.raw_of (section "deleted" "b")]
  = Visualizer.generate_diff_html
      [Visualizer.raw_of (section "added" "a");
       Visualizer.raw_of (section "deleted" "b")].
Proof.
  apply (generate_diff_html_skips_unknown_types
           [Visualizer.raw_of (section "added" "a")]
           [Visualizer.raw_of (section "deleted" "b")] Samples.moved).
  cbn. intros [H | [H | [H | [H | []]]]]; discriminate H.
Defined.

Lemma call_gemini_api_cuts_out_the_object_witness :
  Gemini.call_gemini_api Samples.json_loads (Some "key") (Gemini.Responded Samples.fenced)
  = inr (Gemini.Verbatim "{}")
  /\ Gemini.call_and_load Samples.json_loads Samples.json_dumps (Some "key")
       (Gemini.Responded Samples.fenced)
     = Parsed "{}" Samples.empty_object.
Proof.
  apply (call_gemini_api_cuts_out_the_object Samples.json_loads Samples.json_dumps
           (Some "key") Samples.fenced ("```json" +:+ String LF "") ""
           (String LF "```") Samples.empty_object);
    reflexivity.
Defined.

Lemma cannot_extract_iff_no_opening_brace_witness :
  Gemini.call_gemini_api Samples.json_loads (Some "key") (Gemini.Responded Samples.chatty)
  = inr (Gemini.Dumped
           (error_result "Could not extract JSON object from Gemini response"
              (Some "I cannot compare these.")
              "Error: Could not extract JSON object from API response.")).
Proof.
  apply (proj2 (cannot_extract_iff_no_opening_brace Samples.json_loads (Some "key")
                  Samples.chatty "I cannot compare these." eq_refl eq_refl eq_refl)).
  split; [discriminate | reflexivity].
Defined.

Lemma main_without_key_witness :
  exists shown trace,
    App.main Samples.json_loads Samples.json_dumps None
      Samples.always_fenced Samples.always_chatty Samples.two_pages Samples.scan
    = (shown, trace, None)
    /\ In (App.Success "Comparison completed!") shown
    /\ In (App.Line "Additions: 0") shown
    /\ In (App.Line "Modifications: 0") shown.
Proof.
  destruct (main_without_key Samples.json_loads Samples.json_dumps None
              Samples.always_fenced Samples.always_chatty Samples.two_pages
              Samples.scan eq_refl)
    as (trace & html & Hmain & _).
  eexists _, trace. split; [exact Hmain |].
  split; [right; right; left; reflexivity |].
  split; [do 4 right; left; vm_compute; reflexivity |].
  do 6 right; left; reflexivity.
Defined.


End FurtherWitnesses.
